(** * platform-aws: a shallow embedding of [src/platform-aws.c]

    The development follows the C file top to bottom: the platform table,
    the cached platform lookup ([get_platform_type], [get_platform_data]),
    the initialisation ([platform_init]), the endpoint configuration
    ([platform_config_endpoint]) and the rail sorting ([get_rail_vf_idx],
    [platform_sort_rails]).

    C strings are [string]s (lists of 8-bit characters), C [int]s are [Z],
    function-local [static] variables and the plugin's globals are fields
    of one [globals] record that every function threads explicitly, the
    process environment is a finite map, and the [fi_info] list lives in a
    heap of nodes addressed by pointers. [malloc] and [realloc] are
    answered by an [allocator]. The functions that thread [globals]
    record their warnings; the pure rail functions are embedded by what
    they return and store, without their warnings. *)

From Stdlib Require Import ZArith QArith Ascii String List Bool Lia.
From stdpp Require Import base option list gmap strings.

Local Open Scope Z_scope.

(** ** C library and system constants *)

(** errno values of Linux (asm-generic/errno-base.h, errno.h); libfabric's
    FI_E* codes are the errno values of the same name. *)
Definition EIO : Z := 5.
Definition ENOMEM : Z := 12.
Definition EINVAL : Z := 22.
Definition ENOPROTOOPT : Z := 92.
Definition EOPNOTSUPP : Z := 95.
Definition ENOTSUP : Z := EOPNOTSUPP.
Definition FI_EOPNOTSUPP : Z := EOPNOTSUPP.
Definition FI_ENOPROTOOPT : Z := ENOPROTOOPT.
Definition PATH_MAX : Z := 4096.
Definition ncclSuccess : Z := 0.

(** [FI_MAJOR] and [FI_MINOR] of rdma/fabric.h. *)
Definition FI_MAJOR (version : Z) : Z := Z.shiftr version 16.
Definition FI_MINOR (version : Z) : Z := Z.land version 65535.

Definition newline : ascii := "010"%char.
Definition NUL : ascii := "000"%char.
(** [EOF] is -1; stored into a [char] it is the byte 0xFF. *)
Definition char_of_EOF : ascii := "255"%char.

(** A string between double quotes, as in the format strings of the
    warnings. *)
Definition quoted (s : string) : string :=
  String "034"%char (s +:+ String "034"%char EmptyString).

(** The C string held by a buffer: the characters before the first NUL. *)
Fixpoint cstr (buf : string) : string :=
  match buf with
  | EmptyString => EmptyString
  | String c rest => if Ascii.eqb c NUL then EmptyString else String c (cstr rest)
  end.

Definition strlen (s : string) : Z := Z.of_nat (String.length s).

(** [strcmp a b == 0] *)
Definition strcmp_eq (a b : string) : bool := String.eqb a b.

Definition tolower (c : ascii) : ascii :=
  let n := nat_of_ascii c in
  if ((65 <=? n) && (n <=? 90))%nat then ascii_of_nat (n + 32) else c.

Fixpoint map_string (f : ascii -> ascii) (s : string) : string :=
  match s with
  | EmptyString => EmptyString
  | String c rest => String (f c) (map_string f rest)
  end.

(** [strcasecmp a b == 0] *)
Definition strcasecmp_eq (a b : string) : bool :=
  String.eqb (map_string tolower a) (map_string tolower b).

(** [snprintf(buf, size, ...)] keeps at most [size - 1] characters. *)
Definition snprintf_trunc (size : nat) (s : string) : string :=
  substring 0 (size - 1) s.

(** ** Files *)

(** A file that can be opened: its bytes, and whether running past them is
    a read error (then [ferror] is set) or a plain end of file. *)
Record file := { f_data : string; f_error : bool }.

(** [fopen(path, "r")]: [None] when the file cannot be opened. *)
Definition filesystem := string -> option file.

(** The loop of [get_platform_type]:
    [while (feof(fd) == 0 && ferror(fd) == 0 && (ch = fgetc(fd)) != '\n')
       platform_type[len++] = ch;]
    Returns the characters stored and whether the stream was exhausted.
    When [fgetc] hits the end it returns [EOF], which is not ['\n'], so the
    loop body stores it before the next test of [feof] ends the loop. *)
Fixpoint read_first_line (data : string) : string * bool :=
  match data with
  | EmptyString => (String char_of_EOF EmptyString, true)
  | String ch rest =>
      if Ascii.eqb ch newline then (EmptyString, false)
      else let '(buf, eof) := read_first_line rest in (String ch buf, eof)
  end.

(** ** Allocation *)

(** How [malloc] and [realloc] answer a request for [size] bytes: [true]
    when they return a buffer, [false] when they return NULL. *)
Record allocator := { malloc : nat -> bool; realloc : nat -> bool }.

(** An allocator that never fails. *)
Definition allocating : allocator :=
  {| malloc := fun _ => true; realloc := fun _ => true |}.

(** [size_t platform_type_len = 64;] The variable is never assigned. *)
Definition platform_type_len : nat := 64.

(** What follows a store in the loop of [get_platform_type], once [len]
    characters are stored:
    [if (len >= platform_type_len)
       platform_type = realloc(platform_type, len + platform_type_len);]
    [false] when the buffer is NULL afterwards. *)
Definition grow_buffer (a : allocator) (len : nat) : bool :=
  if (platform_type_len <=? len)%nat then realloc a (len + platform_type_len)
  else true.

(** The loop of [get_platform_type] with its buffer, when [len]
    characters are stored. It stores what [read_first_line] says, and
    does not test the result of [realloc]: once that is NULL, the next
    store, or the store of the final NUL after the loop, goes through a
    null pointer, and the call has no defined behaviour ([None]). *)
Fixpoint read_first_line_alloc (a : allocator) (len : nat) (data : string)
  : option (string * bool) :=
  match data with
  | EmptyString =>
      if grow_buffer a (S len) then Some (String char_of_EOF EmptyString, true)
      else None
  | String ch rest =>
      if Ascii.eqb ch newline then Some (EmptyString, false)
      else if grow_buffer a (S len) then
        match read_first_line_alloc a (S len) rest with
        | Some (buf, eof) => Some (String ch buf, eof)
        | None => None
        end
      else None
  end.

(** [fgets(buf, size, fp)] on a freshly opened file: at most [size - 1]
    characters, stopping after a newline. *)
Fixpoint fgets_chars (n : nat) (data : string) : string * bool :=
  match n with
  | O => (EmptyString, false)
  | S n' =>
      match data with
      | EmptyString => (EmptyString, true)
      | String ch rest =>
          if Ascii.eqb ch newline then (String ch EmptyString, false)
          else let '(buf, eof) := fgets_chars n' rest in (String ch buf, eof)
      end
  end.

(** [None] is the NULL result: a read error, or end of file before any
    character. *)
Definition fgets (size : nat) (fp : file) : option string :=
  let '(buf, exhausted) := fgets_chars (size - 1) (f_data fp) in
  if exhausted && f_error fp then None
  else if exhausted && String.eqb buf EmptyString then None
  else Some buf.

(** ** [strtol] with base 10 *)

Definition isspace (c : ascii) : bool :=
  let n := nat_of_ascii c in
  ((n =? 32) || ((9 <=? n) && (n <=? 13)))%nat.

Definition digit_val (c : ascii) : option Z :=
  let n := nat_of_ascii c in
  if ((48 <=? n) && (n <=? 57))%nat then Some (Z.of_nat n - 48) else None.

Fixpoint skip_space (s : string) : nat * string :=
  match s with
  | String c rest =>
      if isspace c then let '(k, r) := skip_space rest in (S k, r) else (O, s)
  | EmptyString => (O, s)
  end.

(** The longest run of decimal digits: its value and its length. *)
Fixpoint digits (s : string) (acc : Z) (count : nat) : Z * nat :=
  match s with
  | String c rest =>
      match digit_val c with
      | Some d => digits rest (10 * acc + d) (S count)
      | None => (acc, count)
      end
  | EmptyString => (acc, count)
  end.

Definition LONG_MAX : Z := 2 ^ 63 - 1.
Definition LONG_MIN : Z := - 2 ^ 63.

(** [(int) x] on a two's-complement 32-bit [int]. *)
Definition to_int (x : Z) : Z := (x + 2 ^ 31) mod 2 ^ 32 - 2 ^ 31.

(** [(size_t) x] on a 64-bit [size_t]. *)
Definition to_size_t (x : Z) : Z := x mod 2 ^ 64.

(** [strtol(nptr, &endptr, 10)]: the value and [endptr - nptr]. Leading
    white space and one sign are skipped; without a digit no conversion
    is performed and [endptr = nptr]. *)
Definition strtol10 (nptr : string) : Z * nat :=
  let '(k, s1) := skip_space nptr in
  let '(neg, ksign, s2) :=
    match s1 with
    | String "-"%char r => (true, 1%nat, r)
    | String "+"%char r => (false, 1%nat, r)
    | _ => (false, O, s1)
    end in
  let '(v, nd) := digits s2 0 O in
  if (nd =? 0)%nat then (0, O)
  else (Z.max LONG_MIN (Z.min LONG_MAX (if neg then - v else v)),
        (k + ksign + nd)%nat).

(** ** The platform table *)

Record ec2_platform_data := {
  name : string;
  topology : option string;
  default_dup_conns : Z;
  latency : Q;
  gdr_required : bool;
  net_flush_required : bool;
  default_protocol : string;
  domain_per_thread : Z
}.

(** Members without an initialiser are zero: no topology, [0] duplicate
    connections, latency [0.0]. *)
Definition platform_data_map : list ec2_platform_data := [
  {| name := "p4d.24xlarge"; topology := Some "p4d-24xl-topo.xml";
     default_dup_conns := 0; latency := 75 # 1; gdr_required := true;
     net_flush_required := true; default_protocol := "SENDRECV";
     domain_per_thread := 0 |};
  {| name := "p4de.24xlarge"; topology := Some "p4de-24xl-topo.xml";
     default_dup_conns := 0; latency := 75 # 1; gdr_required := true;
     net_flush_required := true; default_protocol := "SENDRECV";
     domain_per_thread := 0 |};
  {| name := "p3dn.24xlarge"; topology := None;
     default_dup_conns := 4; latency := 150 # 1; gdr_required := false;
     net_flush_required := true; default_protocol := "SENDRECV";
     domain_per_thread := 0 |};
  {| name := "p5.48xlarge"; topology := Some "p5.48xl-topo.xml";
     default_dup_conns := 0; latency := 75 # 1; gdr_required := true;
     net_flush_required := false; default_protocol := "RDMA";
     domain_per_thread := 0 |};
  {| name := "g5.48xlarge"; topology := Some "g5.48xl-topo.xml";
     default_dup_conns := 0; latency := 0 # 1; gdr_required := false;
     net_flush_required := true; default_protocol := "SENDRECV";
     domain_per_thread := 0 |};
  {| name := "trn1.32xlarge"; topology := None;
     default_dup_conns := 0; latency := 0 # 1; gdr_required := true;
     net_flush_required := true; default_protocol := "SENDRECV";
     domain_per_thread := 1 |};
  {| name := "trn1n.32xlarge"; topology := None;
     default_dup_conns := 0; latency := 0 # 1; gdr_required := true;
     net_flush_required := true; default_protocol := "SENDRECV";
     domain_per_thread := 1 |}
].

(** ** Transport endpoints *)

(** The endpoint options this file gets or sets. *)
Inductive fi_opt :=
| FI_OPT_EFA_EMULATED_WRITE
| FI_OPT_EFA_SENDRECV_IN_ORDER_ALIGNED_128_BYTES
| FI_OPT_EFA_WRITE_IN_ORDER_ALIGNED_128_BYTES
| FI_OPT_MAX_MSG_SIZE.

(** An endpoint is opaque to this file; what it can observe of one is how
    the endpoint answers [fi_getopt] and [fi_setopt]. *)
Record fid_ep := {
  (** [fi_getopt(.., FI_OPT_EFA_EMULATED_WRITE, &optval, &optlen)]:
      return code, [optlen] and [optval] on return *)
  ep_getopt_emulated_write : Z * Z * bool;
  (** the return code of [fi_setopt] for an option *)
  ep_setopt : fi_opt -> Z
}.

(** What [platform_config_endpoint] and [platform_sort_rails] read of a
    [struct fi_info]: the link [next], [fabric_attr->prov_name] and
    [nic->device_attr->name]. A pointer is an address; NULL is [None]. *)
Definition ptr := positive.

Record fi_info := {
  next : option ptr;
  prov_name : string;
  device_name : string
}.

Inductive gdr_support_level := GDR_UNKNOWN | GDR_SUPPORTED | GDR_UNSUPPORTED.

Definition gdr_is_supported (l : gdr_support_level) : bool :=
  match l with GDR_SUPPORTED => true | _ => false end.

(** ** Program state, inputs and observations *)

(** What a call does that can be observed from outside the process state:
    opening a file, a call into the transport library, a warning
    ([NCCL_OFI_WARN], recorded with its format string). *)
Inductive event :=
| EvFopen (path : string)
| EvGetopt (optname : fi_opt)
| EvSetopt (optname : fi_opt) (optval : Z)
| EvWarn (fmt : string).

(** The mutable state of the process: the function-local statics (prefixed
    with the initials of their function), the plugin's globals this file
    assigns, the environment, [errno], and the observations so far. *)
Record globals := {
  (** [static bool init] and [static char *platform_type] of
      [get_platform_type] *)
  gpt_init : bool;
  gpt_platform_type : option string;
  (** [static bool init] and [static struct ec2_platform_data
      *platform_data] of [get_platform_data] *)
  gpd_init : bool;
  gpd_platform_data : option ec2_platform_data;
  (** the statics of [platform_config_endpoint] *)
  nccl_proto_configured : bool;
  need_ordering : bool;
  (** plugin globals *)
  nic_dup_conns : Z;
  net_latency : Q;
  nccl_ofi_selected_protocol : string;
  global_domain_per_thread : Z;
  support_gdr : gdr_support_level;
  (** the caller's variable that the argument of [platform_init] points
      to ([*provider_filter]) *)
  provider_filter : option string;
  (** process environment ([getenv]/[setenv]) and [errno] *)
  environ : gmap string string;
  errno : Z;
  trace : list event
}.

Definition set_gpt (init : bool) (pt : option string) (g : globals) : globals :=
  {| gpt_init := init; gpt_platform_type := pt;
     gpd_init := gpd_init g; gpd_platform_data := gpd_platform_data g;
     nccl_proto_configured := nccl_proto_configured g;
     need_ordering := need_ordering g; nic_dup_conns := nic_dup_conns g;
     net_latency := net_latency g;
     nccl_ofi_selected_protocol := nccl_ofi_selected_protocol g;
     global_domain_per_thread := global_domain_per_thread g;
     support_gdr := support_gdr g; provider_filter := provider_filter g;
     environ := environ g; errno := errno g;
     trace := trace g |}.

Definition set_gpd (init : bool) (pd : option ec2_platform_data) (g : globals)
  : globals :=
  {| gpt_init := gpt_init g; gpt_platform_type := gpt_platform_type g;
     gpd_init := init; gpd_platform_data := pd;
     nccl_proto_configured := nccl_proto_configured g;
     need_ordering := need_ordering g; nic_dup_conns := nic_dup_conns g;
     net_latency := net_latency g;
     nccl_ofi_selected_protocol := nccl_ofi_selected_protocol g;
     global_domain_per_thread := global_domain_per_thread g;
     support_gdr := support_gdr g; provider_filter := provider_filter g;
     environ := environ g; errno := errno g;
     trace := trace g |}.

Definition set_negotiation (configured need : bool) (g : globals) : globals :=
  {| gpt_init := gpt_init g; gpt_platform_type := gpt_platform_type g;
     gpd_init := gpd_init g; gpd_platform_data := gpd_platform_data g;
     nccl_proto_configured := configured; need_ordering := need;
     nic_dup_conns := nic_dup_conns g; net_latency := net_latency g;
     nccl_ofi_selected_protocol := nccl_ofi_selected_protocol g;
     global_domain_per_thread := global_domain_per_thread g;
     support_gdr := support_gdr g; provider_filter := provider_filter g;
     environ := environ g; errno := errno g;
     trace := trace g |}.

Definition set_tunables (dup : Z) (lat : Q) (proto : string) (dpt : Z)
  (g : globals) : globals :=
  {| gpt_init := gpt_init g; gpt_platform_type := gpt_platform_type g;
     gpd_init := gpd_init g; gpd_platform_data := gpd_platform_data g;
     nccl_proto_configured := nccl_proto_configured g;
     need_ordering := need_ordering g; nic_dup_conns := dup;
     net_latency := lat; nccl_ofi_selected_protocol := proto;
     global_domain_per_thread := dpt;
     support_gdr := support_gdr g; provider_filter := provider_filter g;
     environ := environ g; errno := errno g;
     trace := trace g |}.

Definition set_environ (env : gmap string string) (e : Z) (g : globals)
  : globals :=
  {| gpt_init := gpt_init g; gpt_platform_type := gpt_platform_type g;
     gpd_init := gpd_init g; gpd_platform_data := gpd_platform_data g;
     nccl_proto_configured := nccl_proto_configured g;
     need_ordering := need_ordering g; nic_dup_conns := nic_dup_conns g;
     net_latency := net_latency g;
     nccl_ofi_selected_protocol := nccl_ofi_selected_protocol g;
     global_domain_per_thread := global_domain_per_thread g;
     support_gdr := support_gdr g; provider_filter := provider_filter g;
     environ := env; errno := e;
     trace := trace g |}.

Definition set_provider_filter (pf : option string) (g : globals) : globals :=
  {| gpt_init := gpt_init g; gpt_platform_type := gpt_platform_type g;
     gpd_init := gpd_init g; gpd_platform_data := gpd_platform_data g;
     nccl_proto_configured := nccl_proto_configured g;
     need_ordering := need_ordering g; nic_dup_conns := nic_dup_conns g;
     net_latency := net_latency g;
     nccl_ofi_selected_protocol := nccl_ofi_selected_protocol g;
     global_domain_per_thread := global_domain_per_thread g;
     support_gdr := support_gdr g; provider_filter := pf;
     environ := environ g; errno := errno g; trace := trace g |}.

Definition set_trace (t : list event) (g : globals) : globals :=
  {| gpt_init := gpt_init g; gpt_platform_type := gpt_platform_type g;
     gpd_init := gpd_init g; gpd_platform_data := gpd_platform_data g;
     nccl_proto_configured := nccl_proto_configured g;
     need_ordering := need_ordering g; nic_dup_conns := nic_dup_conns g;
     net_latency := net_latency g;
     nccl_ofi_selected_protocol := nccl_ofi_selected_protocol g;
     global_domain_per_thread := global_domain_per_thread g;
     support_gdr := support_gdr g; provider_filter := provider_filter g;
     environ := environ g; errno := errno g;
     trace := t |}.

(** What a call reads and cannot change: the file system, the user's
    plugin parameters ([ofi_nccl_*()]), the libraries found at run time
    and the configuration the file was compiled with. *)
Record world := {
  fs : filesystem;
  (** whether [setenv] of a variable fails, and with which [errno] *)
  setenv_errno : string -> option Z;
  ofi_nccl_disable_gdr_required_check : Z;
  ofi_nccl_disable_native_rdma_check : Z;
  ofi_nccl_eager_max_size : Z;
  ofi_nccl_net_latency : Z;
  ofi_nccl_protocol : option string;
  ofi_nccl_domain_per_thread : Z;
  fi_version : Z;
  (** [dlsym(RTLD_DEFAULT, "ncclGetVersion")]: [None] when the symbol is
      missing, else the result code and the version the function gives *)
  ncclGetVersion : option (Z * Z);
  XML_DIR : string;
  sizeof_rdma_ctrl_msg : Z;
  sizeof_rdma_connection_info : Z;
  HAVE_CUDA : bool;
  HAVE_DECL_FI_OPT_EFA_EMULATED_WRITE : bool;
  HAVE_DECL_FI_OPT_EFA_SENDRECV_IN_ORDER_ALIGNED_128_BYTES : bool;
  HAVE_DECL_FI_OPT_EFA_WRITE_IN_ORDER_ALIGNED_128_BYTES : bool;
  HAVE_DECL_FI_OPT_MAX_MSG_SIZE : bool
}.

(** ** A state monad with early exit *)

(** A step either goes on with a value, leaves the function through
    [goto exit] (or [goto unlock]) with the value of [ret], or has no
    defined behaviour. *)
Inductive outcome (A : Type) :=
| Next (a : A)
| Exit (ret : Z)
| Fault.
Arguments Next {A} a.
Arguments Exit {A} ret.
Arguments Fault {A}.

Definition M (A : Type) : Type := globals -> outcome A * globals.

#[export] Instance M_ret : MRet M := fun A a g => (Next a, g).
#[export] Instance M_bind : MBind M := fun A B f m g =>
  match m g with
  | (Next a, g') => f a g'
  | (Exit ret, g') => (Exit ret, g')
  | (Fault, g') => (Fault, g')
  end.

Definition gets {A} (f : globals -> A) : M A := fun g => (Next (f g), g).
Definition modify (f : globals -> globals) : M unit := fun g => (Next tt, f g).
Definition goto_exit {A} (ret : Z) : M A := fun g => (Exit ret, g).
Definition fault {A} : M A := fun g => (Fault, g).
Definition emit (e : event) : M unit :=
  modify (fun g => set_trace (trace g ++ [e]) g).
Definition NCCL_OFI_WARN (fmt : string) : M unit := emit (EvWarn fmt).

(** The value a C function of type [int] hands to its caller: [None] when
    the call has no defined behaviour. *)
Definition returns (m : M Z) (g : globals) : option Z * globals :=
  match m g with
  | (Next ret, g') => (Some ret, g')
  | (Exit ret, g') => (Some ret, g')
  | (Fault, g') => (None, g')
  end.

Definition getenv (var : string) : M (option string) :=
  gets (fun g => environ g !! var).

(** [setenv(var, value, overwrite)]: [0], or [-1] with [errno] set. *)
Definition setenv (w : world) (var value : string) (overwrite : bool) : M Z :=
  fun g =>
    match setenv_errno w var with
    | Some e => (Next (-1), set_environ (environ g) e g)
    | None =>
        match environ g !! var with
        | Some _ =>
            if overwrite
            then (Next 0, set_environ (<[var := value]> (environ g)) (errno g) g)
            else (Next 0, g)
        | None => (Next 0, set_environ (<[var := value]> (environ g)) (errno g) g)
        end
    end.

(** ** [get_platform_type] *)

Definition product_name_file : string :=
  "/sys/devices/virtual/dmi/id/product_name".

(** [static const char* get_platform_type(void)], with the allocator
    that answers its [malloc] and its [realloc]. *)
Definition get_platform_type_alloc (a : allocator) (w : world)
  : M (option string) :=
  init ← gets gpt_init;
  if init : bool then gets gpt_platform_type
  else
    modify (fun g => set_gpt true (gpt_platform_type g) g);;
    emit (EvFopen product_name_file);;
    match fs w product_name_file with
    | None =>
        NCCL_OFI_WARN "Error opening file: %s";;
        modify (set_gpt true None);;
        mret None
    | Some fd =>
        if negb (malloc a platform_type_len) then
          NCCL_OFI_WARN "Unable to allocate platform type";;
          modify (set_gpt true None);;
          mret None
        else
          match read_first_line_alloc a 0 (f_data fd) with
          | None =>
              modify (set_gpt true None);;
              fault
          | Some (buf, exhausted) =>
              if exhausted && f_error fd then
                NCCL_OFI_WARN "Error reading file: %s";;
                modify (set_gpt true None);;
                mret None
              else
                modify (set_gpt true (Some (cstr buf)));;
                mret (Some (cstr buf))
          end
    end.

(** The function as its callers in this file see it, in a process whose
    allocations succeed. *)
Definition get_platform_type (w : world) : M (option string) :=
  get_platform_type_alloc allocating w.

(** ** [get_platform_data] *)

(** The [for] loop over a table: a later match replaces an earlier one. *)
Fixpoint scan_platform_data (platform_type : string)
  (table : list ec2_platform_data) (platform_data : option ec2_platform_data)
  : option ec2_platform_data :=
  match table with
  | [] => platform_data
  | entry :: rest =>
      scan_platform_data platform_type rest
        (if strcmp_eq platform_type (name entry) then Some entry
         else platform_data)
  end.

Definition get_platform_data_in (table : list ec2_platform_data) (w : world)
  : M (option ec2_platform_data) :=
  init ← gets gpd_init;
  if init : bool then gets gpd_platform_data
  else
    modify (fun g => set_gpd true (gpd_platform_data g) g);;
    platform_type ← get_platform_type w;
    match platform_type with
    | None => mret None
    | Some pt =>
        modify (fun g =>
          set_gpd true (scan_platform_data pt table (gpd_platform_data g)) g);;
        gets gpd_platform_data
    end.

Definition get_platform_data : world -> M (option ec2_platform_data) :=
  get_platform_data_in platform_data_map.

(** ** Endpoint configuration *)

Definition validate_rdma_write (w : world) (ep : fid_ep) : M Z :=
  if HAVE_DECL_FI_OPT_EFA_EMULATED_WRITE w then
    emit (EvGetopt FI_OPT_EFA_EMULATED_WRITE);;
    let '(ret, optlen, optval) := ep_getopt_emulated_write ep in
    if negb (ret =? 0) then
      NCCL_OFI_WARN "Couldn't get FI_OPT_EFA_EMULATED_WRITE. RC: %d, ERROR: %s";;
      mret ret
    else if negb (optlen =? 1) then
      NCCL_OFI_WARN "Unexpected response size when checking FI_OPT_EFA_EMULATED_WRITE.  Expected %lu, got %lu";;
      mret (- EINVAL)
    else if optval : bool then
      NCCL_OFI_WARN "FI_OPT_EFA_EMULATED_WRITE is true when the communication protocol is RDMA write.";;
      mret (- EINVAL)
    else mret ret
  else
    NCCL_OFI_WARN "FI_OPT_EFA_EMULATED_WRITE not declared when the communication protocol is RDMA write.";;
    mret (- EINVAL).

Definition configure_nccl_proto (w : world) : M Z :=
  proto ← getenv "NCCL_PROTO";
  match proto with
  | None =>
      ret ← setenv w "NCCL_PROTO" "simple" false;
      if negb (ret =? 0) then
        NCCL_OFI_WARN "Error setting NCCL_PROTO environment variable: %s";;
        e ← gets errno;
        mret (- e)
      else mret 0
  | Some v =>
      if negb (strcasecmp_eq v "simple") then
        NCCL_OFI_WARN ("NCCL_PROTO was set to " +:+ quoted "LL/LL128" +:+ ", but the Libfabric endpoint does not support 128 byte in-order aligned stores. This endpoint may corrupt data during communication");;
        mret 0
      else mret 0
  end.

(** The [int] result and [*have_ordering] on return. *)
Definition configure_ep_inorder (w : world) (ep : fid_ep) (optname : fi_opt)
  : M (Z * bool) :=
  if HAVE_DECL_FI_OPT_EFA_WRITE_IN_ORDER_ALIGNED_128_BYTES w then
    emit (EvSetopt optname 1);;
    let ret := ep_setopt ep optname in
    if (ret =? - FI_EOPNOTSUPP) || (ret =? - FI_ENOPROTOOPT) then
      mret (0, false)
    else if negb (ret =? 0) then
      NCCL_OFI_WARN "Could not set %s. RC: %d, ERROR: %s";;
      mret (ret, false)
    else mret (0, true)
  else mret (0, false).

Definition configure_ep_max_msg_size (w : world) (ep : fid_ep) : M Z :=
  if HAVE_DECL_FI_OPT_MAX_MSG_SIZE w then
    let eager_max_size := to_size_t (ofi_nccl_eager_max_size w) in
    let optval :=
      Z.max (Z.max (sizeof_rdma_ctrl_msg w) eager_max_size)
            (sizeof_rdma_connection_info w) in
    emit (EvSetopt FI_OPT_MAX_MSG_SIZE optval);;
    let ret := ep_setopt ep FI_OPT_MAX_MSG_SIZE in
    if (ret =? - FI_EOPNOTSUPP) || (ret =? - FI_ENOPROTOOPT) then mret 0
    else if negb (ret =? 0) then
      NCCL_OFI_WARN "Could not set FI_OPT_MAX_MSG_SIZE. RC: %d, ERROR: %s";;
      mret ret
    else mret ret
  else mret 0.

Definition ordering_mismatch_warning : string :=
  "Setting %s option failed after succeeding during initialization".

(** The parts of [platform_config_endpoint] under [#if HAVE_CUDA], block
    by block. *)

(** The choice of [optname] by protocol; [None] is the value [-1]. *)
Definition select_inorder_optname (w : world) (proto : string)
  : M (option fi_opt) :=
  if strcasecmp_eq "SENDRECV" proto then
    mret (if HAVE_DECL_FI_OPT_EFA_SENDRECV_IN_ORDER_ALIGNED_128_BYTES w
          then Some FI_OPT_EFA_SENDRECV_IN_ORDER_ALIGNED_128_BYTES
          else None)
  else if strcasecmp_eq "RDMA" proto then
    mret (if HAVE_DECL_FI_OPT_EFA_WRITE_IN_ORDER_ALIGNED_128_BYTES w
          then Some FI_OPT_EFA_WRITE_IN_ORDER_ALIGNED_128_BYTES
          else None)
  else
    NCCL_OFI_WARN "unkonwn transport %s";;
    goto_exit (- EINVAL).

(** The exception for P5 with the RDMA protocol. [strcmp] on the NULL
    that [get_platform_type] may return has no defined behaviour. *)
Definition p5_rdma_exception (w : world) (proto : string) : M unit :=
  nccl_proto ← getenv "NCCL_PROTO";
  if bool_decide (nccl_proto = None) && strcasecmp_eq "RDMA" proto then
    platform_type ← get_platform_type w;
    match platform_type with
    | None => fault
    | Some pt =>
        if strcmp_eq pt "p5.48xlarge" then
          configured ← gets nccl_proto_configured;
          if negb configured then modify (set_negotiation true false)
          else mret tt
        else mret tt
    end
  else mret tt.

(** [if (need_ordering || !nccl_proto_configured) { ... }] *)
Definition negotiate_ordering (w : world) (ep : fid_ep)
  (optname : option fi_opt) : M unit :=
  need ← gets need_ordering;
  configured ← gets nccl_proto_configured;
  if need || negb configured then
    have_ordering ←
      match optname with
      | Some o =>
          r ← configure_ep_inorder w ep o;
          if negb (r.1 =? 0) then
            NCCL_OFI_WARN "Unexpected failure setting inorder %d";;
            goto_exit r.1
          else mret r.2
      | None => mret false
      end;
    (if need && negb have_ordering then
       NCCL_OFI_WARN ordering_mismatch_warning;;
       goto_exit (- ENOTSUP)
     else mret tt);;
    if negb configured then
      modify (set_negotiation true have_ordering);;
      if negb have_ordering then
        ret ← configure_nccl_proto w;
        if negb (ret =? 0) then
          NCCL_OFI_WARN "Failed to set NCCL_PROTO: %d";;
          goto_exit (- ENOTSUP)
        else mret tt
      else mret tt
    else mret tt
  else mret tt.

Definition set_max_msg_size (w : world) (ep : fid_ep) (proto : string)
  : M unit :=
  if strcasecmp_eq "RDMA" proto then
    ret ← configure_ep_max_msg_size w ep;
    if negb (ret =? 0) then
      NCCL_OFI_WARN "Unexpected failure setting max_msg_size %d";;
      goto_exit ret
    else mret tt
  else mret tt.

Definition config_endpoint_cuda (w : world) (ep : fid_ep) : M Z :=
  proto ← gets nccl_ofi_selected_protocol;
  optname ← select_inorder_optname w proto;
  p5_rdma_exception w proto;;
  negotiate_ordering w ep optname;;
  set_max_msg_size w ep proto;;
  mret 0.

(** The part of [platform_config_endpoint] between the test of the
    endpoint and [#if HAVE_CUDA]: the checks a call makes before it
    negotiates. *)
Definition config_endpoint_checks (w : world) (info : fi_info) (ep : fid_ep)
  : M unit :=
  (* short circuit when not using EFA *)
  (if negb (strcmp_eq (prov_name info) "efa") then goto_exit 0
   else mret tt);;
  (if ofi_nccl_disable_gdr_required_check w =? 0 then
     platform_data ← get_platform_data w;
     gdr ← gets support_gdr;
     match platform_data with
     | Some pd =>
         if gdr_required pd && negb (gdr_is_supported gdr) then
           NCCL_OFI_WARN "GDR disabled on GDR-supported instance type %s";;
           goto_exit (- EINVAL)
         else mret tt
     | None => mret tt
     end
   else mret tt);;
  proto ← gets nccl_ofi_selected_protocol;
  (if strcasecmp_eq "RDMA" proto
      && (ofi_nccl_disable_native_rdma_check w =? 0) then
     ret ← validate_rdma_write w ep;
     if negb (ret =? 0) then goto_exit ret else mret tt
   else mret tt).

Definition platform_config_endpoint_body (w : world) (info : fi_info)
  (endpoint : option fid_ep) : M Z :=
  match endpoint with
  | None =>
      NCCL_OFI_WARN "Unable to configure invalid endpoint";;
      goto_exit (- EINVAL)
  | Some ep =>
      config_endpoint_checks w info ep;;
      if HAVE_CUDA w then config_endpoint_cuda w ep else mret 0
  end.

(** [int platform_config_endpoint(struct fi_info *info, struct fid_ep*
    endpoint)]: the value returned and the state left. *)
Definition platform_config_endpoint (w : world) (info : fi_info)
  (endpoint : option fid_ep) (g : globals) : option Z * globals :=
  returns (platform_config_endpoint_body w info endpoint) g.

(** ** Initialisation *)

Definition configure_nvls_option (w : world) : M Z :=
  nvls ← getenv "NCCL_NVLS_ENABLE";
  match nvls with
  | Some _ => mret 0
  | None =>
      match ncclGetVersion w with
      | None => mret 0
      | Some (nccl_ret, version) =>
          if negb (nccl_ret =? ncclSuccess) then
            NCCL_OFI_WARN "ncclGetVersion returned %d";;
            mret (- ENOTSUP)
          else if version <? 21805 then
            ret ← setenv w "NCCL_NVLS_ENABLE" "0" true;
            if negb (ret =? 0) then
              NCCL_OFI_WARN "Unable to set NCCL_NVLS_ENABLE";;
              e ← gets errno;
              mret (- e)
            else mret 0
          else mret 0
      end
  end.

(** [ret = setenv(..); if (ret != 0) { WARN; ret = -errno; goto exit; }] *)
Definition setenv_or_exit (w : world) (var value : string) (overwrite : bool)
  (warning : string) : M unit :=
  ret ← setenv w var value overwrite;
  if negb (ret =? 0) then
    NCCL_OFI_WARN warning;;
    e ← gets errno;
    goto_exit (- e)
  else mret tt.

Definition fork_safe_var_name (libversion : Z) : string :=
  if (FI_MAJOR libversion >? 1)
     || ((FI_MAJOR libversion =? 1) && (FI_MINOR libversion >=? 13))
  then "FI_EFA_FORK_SAFE" else "RDMAV_FORK_SAFE".

(** The steps of [platform_init], in the order of the source. *)

(** [FI_PROVIDER]: the value of [select_efa]. *)
Definition select_provider : M bool :=
  fi_provider ← getenv "FI_PROVIDER";
  match fi_provider with
  | None =>
      modify (set_provider_filter (Some "efa"));;
      mret true
  | Some p => mret (strcmp_eq p "efa")
  end.

Definition set_fork_safe (w : world) : M unit :=
  let var := fork_safe_var_name (fi_version w) in
  fork_safe ← getenv var;
  if bool_decide (fork_safe = None) then
    setenv_or_exit w var "1" true "Unable to set %s"
  else mret tt.

Definition set_nvls_option (w : world) : M unit :=
  ret ← configure_nvls_option w;
  if negb (ret =? 0) then
    NCCL_OFI_WARN "Unable to configure NVLS option";;
    goto_exit ret
  else mret tt.

Definition set_force_flush (w : world)
  (platform_data : option ec2_platform_data) : M unit :=
  force_flush ← getenv "NCCL_NET_FORCE_FLUSH";
  if match platform_data with
     | Some pd => negb (net_flush_required pd)
     | None => false
     end && bool_decide (force_flush = None) then
    setenv_or_exit w "NCCL_NET_FORCE_FLUSH" "0" false
      "Unable to set NCCL_NET_FORCE_FLUSH"
  else mret tt.

Definition set_chunk_sizes (w : world) : M unit :=
  setenv_or_exit w "NCCL_NVLSTREE_MAX_CHUNKSIZE" "524288" false
    "Unable to set NCCL_NVLSTREE_MAX_CHUNKSIZE";;
  setenv_or_exit w "NCCL_NVLS_CHUNKSIZE" "524288" false
    "Unable to set NCCL_NVLS_CHUNKSIZE".

(** The part of [platform_init] under [#if HAVE_CUDA]. *)
Definition platform_init_cuda (w : world)
  (platform_data : option ec2_platform_data) : M unit :=
  set_fork_safe w;;
  set_nvls_option w;;
  set_force_flush w platform_data;;
  set_chunk_sizes w.

(** [NCCL_TOPO_FILE]; both log lines evaluate [get_platform_type()]. *)
Definition set_topology (w : world)
  (platform_data : option ec2_platform_data) : M unit :=
  topo_file ← getenv "NCCL_TOPO_FILE";
  match topo_file with
  | Some _ => get_platform_type w;; mret tt
  | None =>
      match platform_data with
      | Some {| topology := Some topo |} =>
          let topology_path := XML_DIR w +:+ "/" +:+ topo in
          (* snprintf returns the length of the untruncated path *)
          let ret := strlen topology_path in
          if (ret <? 0) || (ret >=? PATH_MAX) then
            NCCL_OFI_WARN "Error occurred while forming the complete topology XML file path. RC: %d, Buffer Size: %d, XML dir: %s, Topology file: %s";;
            goto_exit (- ENOMEM)
          else
            get_platform_type w;;
            setenv_or_exit w "NCCL_TOPO_FILE" topology_path true
              "Unable to set NCCL_TOPO_FILE"
      | _ => mret tt
      end
  end.

Definition set_nic_dup_conns (platform_data : option ec2_platform_data)
  (g : globals) : globals :=
  match platform_data with
  | Some pd =>
      if nic_dup_conns g =? 0 then
        set_tunables (default_dup_conns pd) (net_latency g)
          (nccl_ofi_selected_protocol g) (global_domain_per_thread g) g
      else g
  | None => g
  end.

Definition set_net_latency (w : world)
  (platform_data : option ec2_platform_data) (g : globals) : globals :=
  if ofi_nccl_net_latency w <? 0 then
    set_tunables (nic_dup_conns g)
      match platform_data with
      | Some pd => if Qle_bool 0 (latency pd) then latency pd else 150 # 1
      | None => 150 # 1 (* historical default for EFA *)
      end
      (nccl_ofi_selected_protocol g) (global_domain_per_thread g) g
  else g.

Definition set_selected_protocol (w : world)
  (platform_data : option ec2_platform_data) (select_efa : bool)
  (g : globals) : globals :=
  if select_efa && bool_decide (ofi_nccl_protocol w = None) then
    match platform_data with
    | Some pd =>
        set_tunables (nic_dup_conns g) (net_latency g)
          (default_protocol pd) (global_domain_per_thread g) g
    | None => g
    end
  else g.

(** [domain_per_thread = ofi_nccl_domain_per_thread();
     if (domain_per_thread == -1) { ... }]
    The parameter is stored first, and the test reads the variable. The
    variable is declared outside this file; it is an [int], like the
    member of [ec2_platform_data] that is assigned to it, so that the
    parameter is converted to [int] by the store. *)
Definition set_domain_per_thread (w : world)
  (platform_data : option ec2_platform_data) (g : globals) : globals :=
  let stored := to_int (ofi_nccl_domain_per_thread w) in
  set_tunables (nic_dup_conns g) (net_latency g)
    (nccl_ofi_selected_protocol g)
    (if stored =? -1 then
       match platform_data with
       | Some pd => domain_per_thread pd
       | None => 0
       end
     else stored) g.

Definition platform_init_body (w : world) : M Z :=
  platform_data ← get_platform_data w;
  select_efa ← select_provider;
  (if HAVE_CUDA w then platform_init_cuda w platform_data else mret tt);;
  set_topology w platform_data;;
  modify (set_nic_dup_conns platform_data);;
  modify (set_net_latency w platform_data);;
  modify (set_selected_protocol w platform_data select_efa);;
  modify (set_domain_per_thread w platform_data);;
  mret 0.

(** [int platform_init(const char **provider_filter)] *)
Definition platform_init (w : world) (g : globals) : option Z * globals :=
  returns (platform_init_body w) g.

(** ** Rail sorting *)

(** [guid + k] *)
Fixpoint string_drop (k : nat) (s : string) : string :=
  match k, s with
  | O, _ => s
  | S k', String _ rest => string_drop k' rest
  | S _, EmptyString => EmptyString
  end.

Definition guid_file (info : fi_info) : string :=
  snprintf_trunc 256
    ("/sys/class/infiniband/" +:+ device_name info +:+ "/node_guid").

(** What [fgets(guid, sizeof(guid), fp)] leaves in [guid], as a C
    string; [None] when the file cannot be opened or read. *)
Definition read_guid (files : filesystem) (info : fi_info) : option string :=
  match files (guid_file info) with
  | None => None
  | Some fp =>
      match fgets 20 fp with
      | None => None
      | Some buf => Some (cstr buf)
      end
  end.

(** The checks and the conversion that follow the read. *)
Definition vf_idx_of_guid (guid : string) : Z :=
  if negb (strlen guid =? 19) then - EINVAL
  else if negb (bool_decide (String.get 14 guid = Some ":"%char))
  then - EINVAL
  else
    let '(vf_idx, endptr) := strtol10 (string_drop 17 guid) in
    if negb (endptr =? 2)%nat then - EINVAL
    else to_int vf_idx.

(** The VF index of a rail, or a negative error code. *)
Definition get_rail_vf_idx (files : filesystem) (info : fi_info) : Z :=
  match read_guid files info with
  | None => - EIO
  | Some guid => vf_idx_of_guid guid
  end.

(** The memory that holds the [fi_info] nodes. *)
Abbreviation heap := (gmap ptr fi_info).

Definition set_next (nxt : option ptr) (info : fi_info) : fi_info :=
  {| next := nxt; prov_name := prov_name info;
     device_name := device_name info |}.

(** Why the first loop of [platform_sort_rails] takes [goto error]. *)
Inductive sort_failure :=
| ListTooShort
| InvalidVfIdx (vf_idx : Z)
| DuplicateInfo.

Inductive sort_stage (A : Type) :=
| Sorted (a : A)
| GotoError (why : sort_failure)
| SortFault.
Arguments Sorted {A} a.
Arguments GotoError {A} why.
Arguments SortFault {A}.

(** The first loop, with [todo] iterations left: places each node of the
    list in [sorted_info_array]. Reading a pointer that the heap does not
    hold, or an element outside the array, has no defined behaviour. *)
Fixpoint assign_rails (files : filesystem) (h : heap) (todo : nat)
  (info_list_in : option ptr) (rail_map : list Z)
  (sorted_info_array : list (option ptr)) : sort_stage (list (option ptr)) :=
  match todo with
  | O => Sorted sorted_info_array
  | S todo' =>
      match info_list_in with
      | None => GotoError ListTooShort
      | Some p =>
          match h !! p with
          | None => SortFault
          | Some info =>
              let vf_idx := get_rail_vf_idx files info in
              if (vf_idx <? 0) || (vf_idx >=? 2) then
                GotoError (InvalidVfIdx vf_idx)
              else
                match rail_map !! Z.to_nat vf_idx with
                | None => SortFault
                | Some rail_idx =>
                    let rail_map' :=
                      <[Z.to_nat vf_idx := rail_idx + 1]> rail_map in
                    match sorted_info_array !! Z.to_nat rail_idx with
                    | None => SortFault
                    | Some (Some _) => GotoError DuplicateInfo
                    | Some None =>
                        assign_rails files h todo' (next info) rail_map'
                          (<[Z.to_nat rail_idx := Some p]> sorted_info_array)
                    end
                end
          end
      end
  end.

(** The second loop, at index [i] with [todo] iterations left: links the
    nodes in the order of [sorted_info_array]. *)
Fixpoint relink_rails (sorted_info_array : list (option ptr))
  (num_rails : nat) (todo : nat) (i : nat) (info_ptr : option ptr)
  (h : heap) : option heap :=
  match todo with
  | O => Some h
  | S todo' =>
      match info_ptr, sorted_info_array !! i with
      | Some p, Some (Some _) =>
          match h !! p with
          | None => None
          | Some info =>
              let nxt :=
                if (i =? num_rails - 1)%nat then None
                else default None (sorted_info_array !! S i) in
              relink_rails sorted_info_array num_rails todo' (S i) nxt
                (<[p := set_next nxt info]> h)
          end
      | _, _ => None (* assert *)
      end
  end.

(** The outcome of the first loop of a call. *)
Definition sort_rails_stage (files : filesystem) (info_list : option ptr)
  (num_rails : Z) (h : heap) : sort_stage (list (option ptr)) :=
  let n := Z.to_nat num_rails in
  assign_rails files h n info_list [0; 2] (replicate n None).

(** [void platform_sort_rails(struct fi_info **info_list, int num_rails)]:
    the function returns nothing; what the caller has afterwards is
    [*info_list] and the memory. [None]: no defined behaviour. *)
Definition platform_sort_rails (files : filesystem) (info_list : option ptr)
  (num_rails : Z) (h : heap) : option (option ptr * heap) :=
  if num_rails <=? 0 then Some (info_list, h)
  else
    match sort_rails_stage files info_list num_rails h with
    | GotoError _ => Some (info_list, h)
    | SortFault => None
    | Sorted sorted_info_array =>
        let head := default None (sorted_info_array !! O) in
        h' ← relink_rails sorted_info_array (Z.to_nat num_rails)
               (Z.to_nat num_rails) O head h;
        Some (head, h')
    end.

(** The list that starts at a pointer. *)
Fixpoint is_list (h : heap) (p : option ptr) (l : list ptr) : Prop :=
  match l with
  | [] => p = None
  | q :: l' =>
      p = Some q /\ exists info, h !! q = Some info /\ is_list h (next info) l'
  end.

(** ** Sample inputs

    A process right after start (all statics zero, the plugin's globals
    at sample values), a file system given by a list of files, and a
    world for a CUDA build against a libfabric that declares every
    option. They serve the examples and witnesses below. *)

Definition process_start : globals :=
  {| gpt_init := false; gpt_platform_type := None;
     gpd_init := false; gpd_platform_data := None;
     nccl_proto_configured := false; need_ordering := false;
     nic_dup_conns := 0; net_latency := 0 # 1;
     nccl_ofi_selected_protocol := "SENDRECV";
     global_domain_per_thread := 0; support_gdr := GDR_SUPPORTED;
     provider_filter := None; environ := ∅; errno := 0; trace := [] |}.

Fixpoint files_of (l : list (string * string)) : filesystem :=
  fun path =>
    match l with
    | [] => None
    | (p, data) :: rest =>
        if String.eqb p path then Some {| f_data := data; f_error := false |}
        else files_of rest path
    end.

Definition sample_world (files : filesystem) : world :=
  {| fs := files; setenv_errno := fun _ => None;
     ofi_nccl_disable_gdr_required_check := 0;
     ofi_nccl_disable_native_rdma_check := 0;
     ofi_nccl_eager_max_size := 8192;
     ofi_nccl_net_latency := -1; ofi_nccl_protocol := None;
     ofi_nccl_domain_per_thread := -1;
     fi_version := 65536 + 18; ncclGetVersion := None;
     XML_DIR := "/usr/share/aws-ofi-nccl/xml";
     sizeof_rdma_ctrl_msg := 64; sizeof_rdma_connection_info := 128;
     HAVE_CUDA := true;
     HAVE_DECL_FI_OPT_EFA_EMULATED_WRITE := true;
     HAVE_DECL_FI_OPT_EFA_SENDRECV_IN_ORDER_ALIGNED_128_BYTES := true;
     HAVE_DECL_FI_OPT_EFA_WRITE_IN_ORDER_ALIGNED_128_BYTES := true;
     HAVE_DECL_FI_OPT_MAX_MSG_SIZE := true |}.

(** The world [w] with the parameter [OFI_NCCL_DOMAIN_PER_THREAD] set. *)
Definition with_domain_per_thread (v : Z) (w : world) : world :=
  {| fs := fs w; setenv_errno := setenv_errno w;
     ofi_nccl_disable_gdr_required_check :=
       ofi_nccl_disable_gdr_required_check w;
     ofi_nccl_disable_native_rdma_check :=
       ofi_nccl_disable_native_rdma_check w;
     ofi_nccl_eager_max_size := ofi_nccl_eager_max_size w;
     ofi_nccl_net_latency := ofi_nccl_net_latency w;
     ofi_nccl_protocol := ofi_nccl_protocol w;
     ofi_nccl_domain_per_thread := v;
     fi_version := fi_version w; ncclGetVersion := ncclGetVersion w;
     XML_DIR := XML_DIR w;
     sizeof_rdma_ctrl_msg := sizeof_rdma_ctrl_msg w;
     sizeof_rdma_connection_info := sizeof_rdma_connection_info w;
     HAVE_CUDA := HAVE_CUDA w;
     HAVE_DECL_FI_OPT_EFA_EMULATED_WRITE :=
       HAVE_DECL_FI_OPT_EFA_EMULATED_WRITE w;
     HAVE_DECL_FI_OPT_EFA_SENDRECV_IN_ORDER_ALIGNED_128_BYTES :=
       HAVE_DECL_FI_OPT_EFA_SENDRECV_IN_ORDER_ALIGNED_128_BYTES w;
     HAVE_DECL_FI_OPT_EFA_WRITE_IN_ORDER_ALIGNED_128_BYTES :=
       HAVE_DECL_FI_OPT_EFA_WRITE_IN_ORDER_ALIGNED_128_BYTES w;
     HAVE_DECL_FI_OPT_MAX_MSG_SIZE := HAVE_DECL_FI_OPT_MAX_MSG_SIZE w |}.

Definition line (s : string) : string := s +:+ String newline EmptyString.

Fixpoint has_char (c : ascii) (s : string) : bool :=
  match s with
  | EmptyString => false
  | String c' rest => Ascii.eqb c' c || has_char c rest
  end.

(** * Notions used by the properties *)

(** ** Observations and the platform type *)

(** Events that are neither an attempt to set an in-order option nor the
    warning of an ordering mismatch. *)
Definition quiet (e : event) : bool :=
  match e with
  | EvSetopt FI_OPT_EFA_SENDRECV_IN_ORDER_ALIGNED_128_BYTES _ => false
  | EvSetopt FI_OPT_EFA_WRITE_IN_ORDER_ALIGNED_128_BYTES _ => false
  | EvWarn fmt => negb (String.eqb fmt ordering_mismatch_warning)
  | _ => true
  end.

(** The platform type that a call in state [g] obtains. *)
Definition identity_of (w : world) (g : globals) : option string :=
  match (get_platform_type w g).1 with
  | Next pt => pt
  | _ => None
  end.

(** ** Weakest preconditions for [M] *)

(** [wp m Q E g]: run from [g], the computation [m] either goes on with a
    value and a state that satisfy [Q], or leaves the function (with
    [Some ret]) or faults ([None]) in a state that satisfies [E]. *)
Definition wp {A} (m : M A) (Q : A -> globals -> Prop)
  (E : option Z -> globals -> Prop) (g : globals) : Prop :=
  match m g with
  | (Next a, g') => Q a g'
  | (Exit ret, g') => E (Some ret) g'
  | (Fault, g') => E None g'
  end.

(** ** How the steps of a call change the state *)

(** [g'] extends the observations of [g] by quiet events only. *)
Definition quietly (g g' : globals) : Prop :=
  exists evs, trace g' = trace g ++ evs /\ Forall (fun e => quiet e = true) evs.

(** What the steps before the negotiation keep: the negotiation statics,
    the environment, the selected protocol, the GDR support level, the
    platform type the process sees; and they add quiet events only. *)
Record kept (w : world) (g g' : globals) : Prop := {
  kept_configured : nccl_proto_configured g' = nccl_proto_configured g;
  kept_need : need_ordering g' = need_ordering g;
  kept_environ : environ g' = environ g;
  kept_protocol : nccl_ofi_selected_protocol g' = nccl_ofi_selected_protocol g;
  kept_identity : identity_of w g' = identity_of w g;
  kept_quietly : quietly g g'
}.

(** What the steps after the negotiation keep: the negotiation statics;
    and they add quiet events only. *)
Record stable (g g' : globals) : Prop := {
  stable_configured : nccl_proto_configured g' = nccl_proto_configured g;
  stable_need : need_ordering g' = need_ordering g;
  stable_quietly : quietly g g'
}.

Definition unsupported (ret : Z) : bool :=
  (ret =? - FI_EOPNOTSUPP) || (ret =? - FI_ENOPROTOOPT).

(** What [configure_ep_inorder] returns for a return code of
    [fi_setopt]. *)
Definition inorder_result (ret : Z) : Z * bool :=
  if unsupported ret then (0, false)
  else if negb (ret =? 0) then (ret, false)
  else (0, true).

(** ** A call in a configured state *)

(** What a call keeps once the domain is configured: the two statics;
    and when ordering is not needed, the call is quiet. *)
Definition settled (g0 g' : globals) : Prop :=
  nccl_proto_configured g' = true
  /\ need_ordering g' = need_ordering g0
  /\ (need_ordering g0 = false -> quietly g0 g').

(** The state after events are added to the observations. *)
Definition observing (evs : list event) (g : globals) : globals :=
  set_trace (trace g ++ evs) g.

(** A call of [platform_config_endpoint] with its inputs. *)
Record call := {
  call_world : world;
  call_info : fi_info;
  call_endpoint : option fid_ep
}.

(** The state after a sequence of calls. *)
Fixpoint run_calls (calls : list call) (g : globals) : globals :=
  match calls with
  | [] => g
  | c :: rest =>
      run_calls rest
        (platform_config_endpoint (call_world c) (call_info c)
           (call_endpoint c) g).2
  end.

(** ** The first call of an unconfigured domain *)

Definition in_order_option (o : fi_opt) : bool :=
  match o with
  | FI_OPT_EFA_SENDRECV_IN_ORDER_ALIGNED_128_BYTES
  | FI_OPT_EFA_WRITE_IN_ORDER_ALIGNED_128_BYTES => true
  | _ => false
  end.

(** Events that are not an attempt the endpoint answers with
    "unsupported". *)
Definition tolerable (ep : fid_ep) (e : event) : bool :=
  quiet e
  || match e with
     | EvSetopt o _ => negb (unsupported (ep_setopt ep o))
     | _ => false
     end.

(** The call has not seen "unsupported" so far. *)
Definition unseen (ep : fid_ep) (g g' : globals) : Prop :=
  exists evs,
    trace g' = trace g ++ evs /\ Forall (fun e => tolerable ep e = true) evs.

(** Either the call has recorded that ordering is not needed, or it has
    not seen "unsupported" so far. *)
Definition first_inv (ep : fid_ep) (g g' : globals) : Prop :=
  (nccl_proto_configured g' = true /\ need_ordering g' = false)
  \/ unseen ep g g'.

(** Sample arguments: an [fi_info] of the EFA provider, and an endpoint
    that has native RDMA writes, answers [inorder] when asked to set an
    in-order option and accepts the maximum message size. *)
Definition efa_info : fi_info :=
  {| next := None; prov_name := "efa"; device_name := "rdmap16s27" |}.

Definition endpoint_answering (inorder : Z) : fid_ep :=
  {| ep_getopt_emulated_write := (0, 1, false);
     ep_setopt := fun o => if in_order_option o then inorder else 0 |}.

(** ** A call of a domain that needs ordering *)

(** The option that [platform_config_endpoint] chooses for a protocol:
    [None] when the protocol is unknown or the build does not declare the
    option. *)
Definition protocol_option (w : world) (proto : string) : option fi_opt :=
  if strcasecmp_eq "SENDRECV" proto then
    if HAVE_DECL_FI_OPT_EFA_SENDRECV_IN_ORDER_ALIGNED_128_BYTES w
    then Some FI_OPT_EFA_SENDRECV_IN_ORDER_ALIGNED_128_BYTES else None
  else if strcasecmp_eq "RDMA" proto then
    if HAVE_DECL_FI_OPT_EFA_WRITE_IN_ORDER_ALIGNED_128_BYTES w
    then Some FI_OPT_EFA_WRITE_IN_ORDER_ALIGNED_128_BYTES else None
  else None.

(** An attempt to set an in-order option. *)
Definition attempt (e : event) : bool :=
  match e with
  | EvSetopt o _ => in_order_option o
  | _ => false
  end.

(** Since [g], exactly one in-order option has been attempted: [o], with
    the value [true]. *)
Definition attempted_once (o : fi_opt) (g g' : globals) : Prop :=
  exists q1 q2,
    trace g' = trace g ++ q1 ++ EvSetopt o 1 :: q2
    /\ Forall (fun e => attempt e = false) q1
    /\ Forall (fun e => attempt e = false) q2.

(** What a call that negotiates in a domain that needs ordering does:
    nothing is said of a call without defined behaviour. *)
Definition ordered_call_post (ep : fid_ep) (o : fi_opt) (g : globals)
  (r : option Z) (g1 : globals) : Prop :=
  match r with
  | None => True
  | Some ret =>
      attempted_once o g g1
      /\ (unsupported (ep_setopt ep o) = true -> ret = - ENOTSUP)
      /\ (unsupported (ep_setopt ep o) = false -> ep_setopt ep o <> 0 ->
          ret = ep_setopt ep o)
      /\ (ret = 0 -> ep_setopt ep o = 0)
  end.

(** A process whose first call, on [p4d.24xlarge] with the given
    protocol and an endpoint that accepts the in-order option, has left
    its domain configured with ordering needed. *)
Definition p4d_world : world :=
  sample_world (files_of [(product_name_file, line "p4d.24xlarge")]).

Definition process_with_protocol (proto : string) : globals :=
  set_tunables 0 (0 # 1) proto 0 process_start.

Definition ordered_process (proto : string) : globals :=
  (platform_config_endpoint p4d_world efa_info (Some (endpoint_answering 0))
     (process_with_protocol proto)).2.

Definition p5_world : world :=
  sample_world (files_of [(product_name_file, line "p5.48xlarge")]).

(** ** Initialisation and the user's settings *)

(** What [platform_init] keeps of the user's settings from [g] to [g']:
    every environment variable that is set keeps its value; the provider
    filter is kept when [FI_PROVIDER] is set; a duplicate connection count
    other than [0] is kept; the latency is kept when [OFI_NCCL_NET_LATENCY]
    is not negative; the selected protocol is kept when [OFI_NCCL_PROTOCOL]
    is set; the domain-per-thread setting is assigned nothing but its
    override, as an [int], when that is not [-1]. *)
Record overrides_kept (w : world) (g g' : globals) : Prop := {
  ok_environ : forall var value,
    environ g !! var = Some value -> environ g' !! var = Some value;
  ok_provider_filter :
    is_Some (environ g !! "FI_PROVIDER") ->
    provider_filter g' = provider_filter g;
  ok_nic_dup_conns :
    nic_dup_conns g <> 0 -> nic_dup_conns g' = nic_dup_conns g;
  ok_net_latency :
    0 <= ofi_nccl_net_latency w -> net_latency g' = net_latency g;
  ok_protocol :
    is_Some (ofi_nccl_protocol w) ->
    nccl_ofi_selected_protocol g' = nccl_ofi_selected_protocol g;
  ok_domain_per_thread :
    to_int (ofi_nccl_domain_per_thread w) <> -1 ->
    global_domain_per_thread g' = to_int (ofi_nccl_domain_per_thread w)
    \/ global_domain_per_thread g' = global_domain_per_thread g
}.

(** A step that changes nothing but the caches of the platform lookup
    and the observations. *)
Definition caches_only (g g' : globals) : Prop :=
  exists t i pt j pd, g' = set_trace t (set_gpd j pd (set_gpt i pt g)).

(** A computation that keeps the user's settings, whatever the state it
    starts from and however it ends. *)
Definition keeps_overrides {A} (w : world) (m : M A) : Prop :=
  forall g0 g (Q : A -> globals -> Prop) E,
    overrides_kept w g0 g ->
    (forall a g', overrides_kept w g0 g' -> Q a g') ->
    (forall ret g', overrides_kept w g0 g' -> E (Some ret) g') ->
    wp m Q E g.

(** ** The VF index of a rail *)

(** The format and the value that the claim gives to the identifier,
    written after its words: four groups of four hexadecimal digits, of
    either case, joined by colons, and the value of the last two digits
    read in base 16. *)
Definition is_hex_digit (c : ascii) : bool :=
  let n := nat_of_ascii c in
  (((48 <=? n) && (n <=? 57)) || ((65 <=? n) && (n <=? 70))
   || ((97 <=? n) && (n <=? 102)))%nat.

Fixpoint matches_pattern (pattern s : string) : bool :=
  match pattern, s with
  | EmptyString, EmptyString => true
  | String "X"%char pattern', String c s' =>
      is_hex_digit c && matches_pattern pattern' s'
  | String p pattern', String c s' => Ascii.eqb p c && matches_pattern pattern' s'
  | _, _ => false
  end.

Definition spec_guid_format (s : string) : bool :=
  matches_pattern "XXXX:XXXX:XXXX:XXXX" s.

Definition hex_val (c : ascii) : Z :=
  match digit_val c with
  | Some d => d
  | None => Z.of_nat (nat_of_ascii (tolower c)) - 87
  end.

Definition spec_slot (s : string) : Z :=
  match string_drop 17 s with
  | String a (String b _) => 16 * hex_val a + hex_val b
  | _ => 0
  end.

(** A rail whose identifier file holds the given text. *)
Definition rail (dev : string) (nxt : option ptr) : fi_info :=
  {| next := nxt; prov_name := "efa"; device_name := dev |}.

Definition guid_files (l : list (string * string)) : filesystem :=
  files_of (map (fun kv => (guid_file (rail kv.1 None), line kv.2)) l).

(** Four rails in discovery order: a list 1, 2, 3, 4 of devices
    [rdmap0] to [rdmap3]. *)
Definition four_rails : heap :=
  list_to_map [(1%positive, rail "rdmap0" (Some 2%positive));
               (2%positive, rail "rdmap1" (Some 3%positive));
               (3%positive, rail "rdmap2" (Some 4%positive));
               (4%positive, rail "rdmap3" None)].

Definition four_guids (g0 g1 g2 g3 : string) : filesystem :=
  guid_files [("rdmap0", g0); ("rdmap1", g1); ("rdmap2", g2); ("rdmap3", g3)].

(** The pointers of the list that starts at [p], read from the memory. *)
Fixpoint read_list (h : heap) (fuel : nat) (p : option ptr) : list ptr :=
  match fuel, p with
  | S fuel', Some q =>
      q :: match h !! q with
           | Some info => read_list h fuel' (next info)
           | None => []
           end
  | _, _ => []
  end.

(** The sorted list of a call on [four_rails], and the VF index of the
    rail at each of its positions. *)
Definition sorted_four (files : filesystem) : option (list ptr * list Z) :=
  match platform_sort_rails files (Some 1%positive) 4 four_rails with
  | Some (head, h') =>
      let l := read_list h' 8 head in
      Some (l, omap (fun p => get_rail_vf_idx files <$> four_rails !! p) l)
  | None => None
  end.

(** ** The platform a process sees *)

(** The platform data that a call in state [g] obtains. *)
Definition platform_of (w : world) (g : globals) : option ec2_platform_data :=
  match (get_platform_data w g).1 with
  | Next pd => pd
  | _ => None
  end.

(** The number of characters that the loop of [get_platform_type] stores
    for a file: those of the first line, and the [EOF] at the end of a
    file that has no newline. *)
Definition stored_chars (data : string) : nat :=
  String.length (read_first_line data).1.

(** A [realloc] of the loop over a file returns NULL. The loop calls
    [realloc] after every store from the 64th on, for 64 bytes more than
    are stored. *)
Definition realloc_failure (a : allocator) (data : string) : Prop :=
  exists len,
    (platform_type_len <= len <= stored_chars data)%nat
    /\ realloc a (len + platform_type_len) = false.

(** A first call of [get_platform_type] stores through a null pointer:
    the product name file opens, [malloc] returns a buffer, and a
    [realloc] of the loop returns NULL. *)
Definition null_buffer (a : allocator) (w : world) : Prop :=
  match fs w product_name_file with
  | None => False
  | Some fd =>
      malloc a platform_type_len = true /\ realloc_failure a (f_data fd)
  end.

(** No platform type can be had: the product name file does not open, or
    [malloc] returns NULL, or the read fails before a newline is met. *)
Definition platform_type_unavailable (a : allocator) (w : world) : Prop :=
  match fs w product_name_file with
  | None => True
  | Some fd =>
      malloc a platform_type_len = false
      \/ (malloc a platform_type_len = true
          /\ ~ realloc_failure a (f_data fd)
          /\ has_char newline (f_data fd) = false /\ f_error fd = true)
  end.

(** ** What a function leaves alone *)

(** A call into the transport library on an endpoint. *)
Definition touches_endpoint (e : event) : bool :=
  match e with
  | EvGetopt _ | EvSetopt _ _ => true
  | _ => false
  end.

(** The events by which [g'] extends the observations of [g] all satisfy
    [ok]. *)
Definition extends_by (ok : event -> bool) (g g' : globals) : Prop :=
  exists evs, trace g' = trace g ++ evs /\ Forall (fun e => ok e = true) evs.

(** A computation that keeps the relation [R] between the state a function
    started in and the current state, however it ends: by going on, by
    leaving the function, or by a fault. *)
Definition frames {A} (R : globals -> globals -> Prop) (m : M A) : Prop :=
  forall g0 g (Q : A -> globals -> Prop) (E : option Z -> globals -> Prop),
    R g0 g ->
    (forall a g', R g0 g' -> Q a g') ->
    (forall r g', R g0 g' -> E r g') ->
    wp m Q E g.

(** The only file that the endpoint configuration opens. *)
Definition opens_product_name_only (e : event) : bool :=
  match e with
  | EvFopen path => String.eqb path product_name_file
  | _ => true
  end.

(** What [platform_config_endpoint] leaves alone: the plugin's tunables,
    the GDR support level and the provider filter; every environment
    variable but [NCCL_PROTO], which it leaves alone when it is set and
    else leaves unset or sets to [simple]; the caches of the platform
    lookup once they are filled; and it opens no file but the product name
    file. *)
Record endpoint_frame (g g' : globals) : Prop := {
  ef_nic_dup_conns : nic_dup_conns g' = nic_dup_conns g;
  ef_net_latency : net_latency g' = net_latency g;
  ef_protocol : nccl_ofi_selected_protocol g' = nccl_ofi_selected_protocol g;
  ef_domain_per_thread :
    global_domain_per_thread g' = global_domain_per_thread g;
  ef_support_gdr : support_gdr g' = support_gdr g;
  ef_provider_filter : provider_filter g' = provider_filter g;
  ef_environ :
    forall var, var <> "NCCL_PROTO" -> environ g' !! var = environ g !! var;
  ef_nccl_proto :
    environ g' !! "NCCL_PROTO" = environ g !! "NCCL_PROTO"
    \/ (environ g !! "NCCL_PROTO" = None
        /\ environ g' !! "NCCL_PROTO" = Some "simple");
  ef_platform_type :
    gpt_init g = true ->
    gpt_init g' = true /\ gpt_platform_type g' = gpt_platform_type g;
  ef_platform_data :
    gpd_init g = true ->
    gpd_init g' = true /\ gpd_platform_data g' = gpd_platform_data g;
  ef_trace : extends_by opens_product_name_only g g'
}.

(** The endpoint reports native RDMA writes to a build that can ask. *)
Definition native_rdma_write (w : world) (ep : fid_ep) : Prop :=
  HAVE_DECL_FI_OPT_EFA_EMULATED_WRITE w = true
  /\ ep_getopt_emulated_write ep = (0, 1, false).

(** The state passes the check that GDR is enabled where the platform
    requires it. *)
Definition gdr_check_passes (w : world) (g : globals) : Prop :=
  ofi_nccl_disable_gdr_required_check w = 0 ->
  forall pd, platform_of w g = Some pd -> gdr_required pd = true ->
    support_gdr g = GDR_SUPPORTED.

(** ** Further sample inputs *)

(** A process without GDR support. *)
Definition process_without_gdr : globals :=
  {| gpt_init := false; gpt_platform_type := None;
     gpd_init := false; gpd_platform_data := None;
     nccl_proto_configured := false; need_ordering := false;
     nic_dup_conns := 0; net_latency := 0 # 1;
     nccl_ofi_selected_protocol := "SENDRECV";
     global_domain_per_thread := 0; support_gdr := GDR_UNSUPPORTED;
     provider_filter := None; environ := ∅; errno := 0; trace := [] |}.

(** A world in which [setenv] fails for one variable. *)
Definition failing_setenv (var : string) (e : Z) (w : world) : world :=
  {| fs := fs w;
     setenv_errno := fun v => if String.eqb v var then Some e else setenv_errno w v;
     ofi_nccl_disable_gdr_required_check := ofi_nccl_disable_gdr_required_check w;
     ofi_nccl_disable_native_rdma_check := ofi_nccl_disable_native_rdma_check w;
     ofi_nccl_eager_max_size := ofi_nccl_eager_max_size w;
     ofi_nccl_net_latency := ofi_nccl_net_latency w;
     ofi_nccl_protocol := ofi_nccl_protocol w;
     ofi_nccl_domain_per_thread := ofi_nccl_domain_per_thread w;
     fi_version := fi_version w; ncclGetVersion := ncclGetVersion w;
     XML_DIR := XML_DIR w;
     sizeof_rdma_ctrl_msg := sizeof_rdma_ctrl_msg w;
     sizeof_rdma_connection_info := sizeof_rdma_connection_info w;
     HAVE_CUDA := HAVE_CUDA w;
     HAVE_DECL_FI_OPT_EFA_EMULATED_WRITE := HAVE_DECL_FI_OPT_EFA_EMULATED_WRITE w;
     HAVE_DECL_FI_OPT_EFA_SENDRECV_IN_ORDER_ALIGNED_128_BYTES :=
       HAVE_DECL_FI_OPT_EFA_SENDRECV_IN_ORDER_ALIGNED_128_BYTES w;
     HAVE_DECL_FI_OPT_EFA_WRITE_IN_ORDER_ALIGNED_128_BYTES :=
       HAVE_DECL_FI_OPT_EFA_WRITE_IN_ORDER_ALIGNED_128_BYTES w;
     HAVE_DECL_FI_OPT_MAX_MSG_SIZE := HAVE_DECL_FI_OPT_MAX_MSG_SIZE w |}.

(** ** The outcome of the negotiation *)

(** What the negotiation of [platform_config_endpoint] is for: once the
    domain is configured, either ordering is needed (the first endpoint
    accepted an in-order option, and every later one has to), or
    [NCCL_PROTO] is set (by the user, or to [simple] by the first call),
    or the process is on [p5.48xlarge] with the RDMA protocol, where the
    code waives the check. *)
Definition negotiated (g : globals) : Prop :=
  nccl_proto_configured g = true ->
  need_ordering g = true
  \/ is_Some (environ g !! "NCCL_PROTO")
  \/ (gpt_init g = true /\ gpt_platform_type g = Some "p5.48xlarge"
      /\ strcasecmp_eq "RDMA" (nccl_ofi_selected_protocol g) = true).

(** The P5 exception neither applies nor faults: when [NCCL_PROTO] is
    unset and the protocol is RDMA, the platform type is known and is not
    [p5.48xlarge]. *)
Definition no_p5_exception (w : world) (g : globals) : Prop :=
  environ g !! "NCCL_PROTO" = None ->
  strcasecmp_eq "RDMA" (nccl_ofi_selected_protocol g) = true ->
  exists pt, identity_of w g = Some pt /\ pt <> "p5.48xlarge".

(** What a first call leaves when its endpoint accepts the in-order
    option [o]. *)
Definition accepted_call_post (w : world) (ep : fid_ep) (o : fi_opt)
  (g : globals) (r : option Z) (g1 : globals) : Prop :=
  nccl_proto_configured g1 = true /\ need_ordering g1 = true
  /\ environ g1 = environ g
  /\ attempted_once o g g1
  /\ (r = Some 0
      \/ (strcasecmp_eq "RDMA" (nccl_ofi_selected_protocol g) = true
          /\ r = Some (ep_setopt ep FI_OPT_MAX_MSG_SIZE)
          /\ ep_setopt ep FI_OPT_MAX_MSG_SIZE <> 0)).

(** ** The effect of [platform_init] *)

(** The environment variables that [platform_init] can set. *)
Definition init_vars (w : world) : list string :=
  [fork_safe_var_name (fi_version w); "NCCL_NVLS_ENABLE";
   "NCCL_NET_FORCE_FLUSH"; "NCCL_NVLSTREE_MAX_CHUNKSIZE";
   "NCCL_NVLS_CHUNKSIZE"; "NCCL_TOPO_FILE"].

(** What the steps of [platform_init] before the assignment of the
    tunables leave alone: every environment variable outside
    [init_vars], the negotiation statics, the GDR support level, the
    provider filter and the tunables; and they touch no endpoint. *)
Record init_frame (w : world) (g g' : globals) : Prop := {
  if_environ :
    forall var, var ∉ init_vars w -> environ g' !! var = environ g !! var;
  if_configured : nccl_proto_configured g' = nccl_proto_configured g;
  if_need : need_ordering g' = need_ordering g;
  if_support_gdr : support_gdr g' = support_gdr g;
  if_provider_filter : provider_filter g' = provider_filter g;
  if_nic_dup_conns : nic_dup_conns g' = nic_dup_conns g;
  if_net_latency : net_latency g' = net_latency g;
  if_protocol : nccl_ofi_selected_protocol g' = nccl_ofi_selected_protocol g;
  if_domain_per_thread :
    global_domain_per_thread g' = global_domain_per_thread g;
  if_trace : extends_by (fun e => negb (touches_endpoint e)) g g'
}.

(** A failing [setenv] leaves in [errno] a value other than [0]. *)
Definition setenv_sets_errno (w : world) : Prop :=
  forall var, setenv_errno w var <> Some 0.

(** The codes with which [platform_init] leaves through [goto exit]. *)
Definition exit_code (w : world) (ret : Z) : Prop :=
  ret = - ENOTSUP \/ ret = - ENOMEM
  \/ exists var e,
       var ∈ init_vars w /\ setenv_errno w var = Some e /\ ret = - e.

(** [setenv(var, value, 0)] on success, on the environment. *)
Definition setenv_default (var value : string) (env : gmap string string)
  : gmap string string :=
  match env !! var with
  | Some _ => env
  | None => <[var := value]> env
  end.

(** Whether [configure_nvls_option] disables NVLS when
    [NCCL_NVLS_ENABLE] is unset. *)
Definition nvls_to_disable (w : world) : bool :=
  match ncclGetVersion w with
  | Some (_, version) => version <? 21805
  | None => false
  end.

(** The environment that the steps of [platform_init] make of [env] when
    none of them leaves the function. *)
Definition init_environ_cuda (w : world) (pd : option ec2_platform_data)
  (env : gmap string string) : gmap string string :=
  let env1 := setenv_default (fork_safe_var_name (fi_version w)) "1" env in
  let env2 :=
    if nvls_to_disable w then setenv_default "NCCL_NVLS_ENABLE" "0" env1
    else env1 in
  let env3 :=
    if match pd with
       | Some pd => negb (net_flush_required pd)
       | None => false
       end
    then setenv_default "NCCL_NET_FORCE_FLUSH" "0" env2
    else env2 in
  setenv_default "NCCL_NVLS_CHUNKSIZE" "524288"
    (setenv_default "NCCL_NVLSTREE_MAX_CHUNKSIZE" "524288" env3).

Definition init_environ_topology (w : world) (pd : option ec2_platform_data)
  (env : gmap string string) : gmap string string :=
  match pd with
  | Some {| topology := Some topo |} =>
      setenv_default "NCCL_TOPO_FILE" (XML_DIR w +:+ "/" +:+ topo) env
  | _ => env
  end.

Definition init_environ (w : world) (pd : option ec2_platform_data)
  (env : gmap string string) : gmap string string :=
  init_environ_topology w pd
    (if HAVE_CUDA w then init_environ_cuda w pd env else env).

(** The value of [select_efa], and the state once [FI_PROVIDER] has been
    looked at. *)
Definition select_efa_of (g : globals) : bool :=
  match environ g !! "FI_PROVIDER" with
  | None => true
  | Some p => strcmp_eq p "efa"
  end.

Definition provider_selected (g : globals) : globals :=
  match environ g !! "FI_PROVIDER" with
  | None => set_provider_filter (Some "efa") g
  | Some _ => g
  end.

(** The assignments that end [platform_init]. *)
Definition assign_tunables (w : world) (pd : option ec2_platform_data)
  (select_efa : bool) (g : globals) : globals :=
  set_domain_per_thread w pd
    (set_selected_protocol w pd select_efa
       (set_net_latency w pd (set_nic_dup_conns pd g))).

(** ** The order of the sorted rails *)

(** The VF index of the rail at a pointer. *)
Definition vf_idx_at (files : filesystem) (h : heap) (p : ptr) : option Z :=
  get_rail_vf_idx files <$> h !! p.

(** The rails of a list whose VF index is [v], in the order of the list. *)
Definition rails_of_vf (files : filesystem) (h : heap) (v : Z)
  (l : list ptr) : list ptr :=
  filter (fun p => vf_idx_at files h p = Some v) l.

(** The lists that [platform_sort_rails] sorts: every rail has the VF
    index 0 or 1, and either no rail has the index 1, or exactly two
    rails have the index 0. *)
Definition sortable (files : filesystem) (h : heap) (seg : list ptr) : Prop :=
  Forall (fun q => vf_idx_at files h q = Some 0 \/ vf_idx_at files h q = Some 1)
    seg
  /\ (rails_of_vf files h 1 seg = []
      \/ length (rails_of_vf files h 0 seg) = 2%nat).

(** ** The identifier file of a rail *)

(** No identifier can be read for a rail: its file cannot be opened, or
    is empty, or the read fails before 19 characters or a newline have
    been read. *)
Definition guid_unreadable (files : filesystem) (info : fi_info) : Prop :=
  match files (guid_file info) with
  | None => True
  | Some fp =>
      f_data fp = EmptyString
      \/ (f_error fp = true
          /\ (String.length (f_data fp) < 19)%nat
          /\ has_char newline (f_data fp) = false)
  end.

(** ** The rail at which the first loop gives up *)

(** The rails that the first loop of a call for [n] rails has placed when
    it comes to the next one: each has the VF index 0 or 1, and either
    none has the index 1, or at most two have the index 0 and those of
    index 1 fit in the array from position 2 on. *)
Definition placed (files : filesystem) (h : heap) (n : nat)
  (pre : list ptr) : Prop :=
  Forall (fun q => vf_idx_at files h q = Some 0 \/ vf_idx_at files h q = Some 1)
    pre
  /\ (rails_of_vf files h 1 pre = []
      \/ ((length (rails_of_vf files h 0 pre) <= 2)%nat
          /\ (2 + length (rails_of_vf files h 1 pre) <= n)%nat)).

(** Why the first loop takes [goto error] at the rail [r] that follows
    the rails [pre] ([None] when the list ends there): the list has
    ended; or the identifier of the rail cannot be read, or has not 19
    characters, or has no colon at index 14, or has no number in base 10
    that ends with it on its last two characters; or its VF index is
    negative, or 2 or more; or its position is taken: position 2 holds
    the first rail of index 1 when the rail is the third of index 0, and
    the third rail of index 0 when it is the first of index 1. *)
Definition rejected (files : filesystem) (h : heap) (pre : list ptr)
  (r : option ptr) : Prop :=
  match r with
  | None => True
  | Some p =>
      exists info,
        h !! p = Some info
        /\ (guid_unreadable files info
            \/ (exists guid,
                  read_guid files info = Some guid
                  /\ (String.length guid <> 19%nat
                      \/ String.get 14 guid <> Some ":"%char
                      \/ (strtol10 (string_drop 17 guid)).2 <> 2%nat))
            \/ get_rail_vf_idx files info < 0
            \/ 2 <= get_rail_vf_idx files info
            \/ (get_rail_vf_idx files info = 0
                /\ length (rails_of_vf files h 0 pre) = 2%nat
                /\ rails_of_vf files h 1 pre <> [])
            \/ (get_rail_vf_idx files info = 1
                /\ (3 <= length (rails_of_vf files h 0 pre))%nat))
  end.

(** * Properties *)

Ltac munfold :=
  unfold mbind, M_bind, mret, M_ret, gets, modify, emit, NCCL_OFI_WARN,
    goto_exit, fault, getenv in *.

Ltac gsimpl :=
  unfold set_gpt, set_gpd, set_negotiation, set_tunables, set_environ,
    set_provider_filter, set_trace in *; simpl in *.

Lemma globals_eta (g : globals) :
  set_trace (trace g) g = g.
Proof. by destruct g. Qed.

(** ** The platform type cache *)

(** With an allocator that never fails, the loop stores the first line
    and goes on. *)
Lemma read_first_line_allocating (len : nat) (data : string) :
  read_first_line_alloc allocating len data = Some (read_first_line data).
Proof.
  revert len. induction data as [|ch rest IH]; intros len.
  - cbn [read_first_line_alloc read_first_line]. unfold grow_buffer.
    by destruct (platform_type_len <=? S len)%nat.
  - cbn [read_first_line_alloc read_first_line].
    destruct (Ascii.eqb ch newline); [done |]. unfold grow_buffer.
    replace (if (platform_type_len <=? S len)%nat
             then realloc allocating (S len + platform_type_len) else true)
      with true by by destruct (platform_type_len <=? S len)%nat.
    rewrite IH. by destruct (read_first_line rest).
Qed.

(** What a call does in a process whose allocations succeed. *)
Lemma get_platform_type_unfold (w : world) (g : globals) :
  get_platform_type w g
  = (init ← gets gpt_init;
     if init : bool then gets gpt_platform_type
     else
       modify (fun g => set_gpt true (gpt_platform_type g) g);;
       emit (EvFopen product_name_file);;
       match fs w product_name_file with
       | None =>
           NCCL_OFI_WARN "Error opening file: %s";;
           modify (set_gpt true None);;
           mret None
       | Some fd =>
           let '(buf, exhausted) := read_first_line (f_data fd) in
           if exhausted && f_error fd then
             NCCL_OFI_WARN "Error reading file: %s";;
             modify (set_gpt true None);;
             mret None
           else
             modify (set_gpt true (Some (cstr buf)));;
             mret (Some (cstr buf))
       end) g.
Proof.
  unfold get_platform_type, get_platform_type_alloc. munfold.
  destruct (gpt_init g); [done |].
  destruct (fs w product_name_file) as [fd|]; [| done].
  cbn [allocating malloc negb]. rewrite read_first_line_allocating.
  by destruct (read_first_line (f_data fd)).
Qed.

(** Once [init] is set, a call answers from the cache: it returns the
    cached pointer and changes nothing, whatever the file system holds. *)
Lemma get_platform_type_cached (w : world) (g : globals) :
  gpt_init g = true ->
  get_platform_type w g = (Next (gpt_platform_type g), g).
Proof. intros H. rewrite !get_platform_type_unfold. munfold. by rewrite H. Qed.

(** The first call opens the file once, and leaves [init] set and its
    result in the cache. *)
Lemma get_platform_type_first (w : world) (g : globals) :
  gpt_init g = false ->
  exists pt evs,
    get_platform_type w g
    = (Next pt,
       set_trace (trace g ++ EvFopen product_name_file :: evs)
         (set_gpt true pt g))
    /\ Forall (fun e => exists fmt, e = EvWarn fmt) evs.
Proof.
  intros H. rewrite !get_platform_type_unfold. munfold. rewrite H. simpl.
  destruct (fs w product_name_file) as [fd|].
  - destruct (read_first_line (f_data fd)) as [buf exhausted].
    destruct (exhausted && f_error fd); simpl.
    + exists None, [EvWarn "Error reading file: %s"]. split.
      * gsimpl. by rewrite <- app_assoc.
      * repeat constructor. by eexists.
    + exists (Some (cstr buf)), []. split; [done | constructor].
  - exists None, [EvWarn "Error opening file: %s"]. split.
    + gsimpl. by rewrite <- app_assoc.
    + repeat constructor. by eexists.
Qed.

(** A failure is remembered like a success: after the first call every
    call, in any world, returns what the first one returned and leaves
    the state (so also the record of files opened) as it is. *)
Lemma get_platform_type_once (w w' : world) (g : globals) :
  gpt_init g = false ->
  exists pt g1,
    get_platform_type w g = (Next pt, g1)
    /\ get_platform_type w' g1 = (Next pt, g1).
Proof.
  intros H. destruct (get_platform_type_first w g H) as (pt & evs & -> & _).
  eexists _, _. split; [done |]. by rewrite get_platform_type_cached.
Qed.

Lemma append_empty (t : string) : "" +:+ t = t.
Proof. reflexivity. Qed.

Lemma append_cons (c : ascii) (s t : string) :
  String c s +:+ t = String c (s +:+ t).
Proof. reflexivity. Qed.

(** A first line that ends in a newline is read without the newline. *)
Lemma read_first_line_terminated (l rest : string) :
  has_char newline l = false ->
  read_first_line (l +:+ String newline rest) = (l, false).
Proof.
  induction l as [|c l IH];
    rewrite ?append_empty, ?append_cons; cbn [has_char read_first_line].
  - intros _. by rewrite Ascii.eqb_refl.
  - intros H. apply orb_false_elim in H as [Hc Hl].
    rewrite Hc. by rewrite (IH Hl).
Qed.

(** A first line that the end of the file cuts short is read with one
    more character: the [EOF] that [fgetc] returned. *)
Lemma read_first_line_unterminated (l : string) :
  has_char newline l = false ->
  read_first_line l = (l +:+ String char_of_EOF EmptyString, true).
Proof.
  induction l as [|c l IH];
    rewrite ?append_empty, ?append_cons; cbn [has_char read_first_line];
    [done |].
  intros H. apply orb_false_elim in H as [Hc Hl].
  rewrite Hc. by rewrite (IH Hl).
Qed.

Lemma cstr_no_NUL (s : string) : has_char NUL s = false -> cstr s = s.
Proof.
  induction s as [|c s IH]; cbn [has_char cstr]; [done |].
  intros H. apply orb_false_elim in H as [Hc Hs].
  rewrite Hc. by rewrite (IH Hs).
Qed.

(** On a product name file whose first line ends in a newline, the first
    call returns that line. *)
Lemma get_platform_type_line (w : world) (g : globals) (fd : file)
  (l rest : string) :
  gpt_init g = false ->
  fs w product_name_file = Some fd ->
  f_data fd = l +:+ String newline rest ->
  has_char newline l = false -> has_char NUL l = false ->
  (get_platform_type w g).1 = Next (Some l).
Proof.
  intros Hi Hf Hd Hn Hz. rewrite !get_platform_type_unfold. munfold.
  rewrite Hi, Hf, Hd, (read_first_line_terminated _ _ Hn). simpl.
  by rewrite (cstr_no_NUL _ Hz).
Qed.

(** C7, at the input where the code departs from it: the product name
    file holds [p5.48xlarge] and ends there, without a newline. The first
    line of the file is [p5.48xlarge]; the first call caches and returns
    that line followed by the character 0xFF, so the platform is not found
    in the table although the file names one of its entries. *)
Theorem get_platform_type_unterminated :
  let w := sample_world (files_of [(product_name_file, "p5.48xlarge")]) in
  (get_platform_type w process_start).1
  = Next (Some ("p5.48xlarge" +:+ String char_of_EOF EmptyString))
  /\ (get_platform_type w process_start).1 <> Next (Some "p5.48xlarge")
  /\ (get_platform_data w process_start).1 = Next None
  /\ (get_platform_data
        (sample_world (files_of [(product_name_file, line "p5.48xlarge")]))
        process_start).1
     = Next (platform_data_map !! 3%nat).
Proof.
  split; [by vm_compute |]. split; [by vm_compute |].
  split; by vm_compute.
Qed.

(** ** The platform data lookup *)

(** What a call to [get_platform_type] does to the state, in one form for
    the first and the later calls. *)
Lemma get_platform_type_spec (w : world) (g : globals) :
  exists pt evs,
    get_platform_type w g
    = (Next pt, set_trace (trace g ++ evs) (set_gpt true pt g))
    /\ Forall (fun e => quiet e = true) evs
    /\ (gpt_init g = true -> pt = gpt_platform_type g /\ evs = []).
Proof.
  destruct (gpt_init g) eqn:Hi.
  - exists (gpt_platform_type g), []. rewrite get_platform_type_cached by done.
    split; [| by split]. f_equal. destruct g. gsimpl. rewrite app_nil_r.
    by simplify_eq/=.
  - rewrite !get_platform_type_unfold. munfold. rewrite Hi. simpl.
    destruct (fs w product_name_file) as [fd|].
    + destruct (read_first_line (f_data fd)) as [buf exhausted].
      destruct (exhausted && f_error fd); simpl.
      * exists None, [EvFopen product_name_file; EvWarn "Error reading file: %s"].
        split; [gsimpl; by rewrite <- app_assoc |].
        split; [by repeat constructor | done].
      * exists (Some (cstr buf)), [EvFopen product_name_file].
        split; [done |]. split; [by repeat constructor | done].
    + exists None, [EvFopen product_name_file; EvWarn "Error opening file: %s"].
      split; [gsimpl; by rewrite <- app_assoc |].
      split; [by repeat constructor | done].
Qed.

(** The platform type does not depend on the statics of
    [get_platform_data]. *)
Lemma get_platform_type_set_gpd (w : world) (g : globals) (i : bool)
  (pd : option ec2_platform_data) :
  get_platform_type w (set_gpd i pd g)
  = ((get_platform_type w g).1, set_gpd i pd (get_platform_type w g).2).
Proof.
  rewrite !get_platform_type_unfold. munfold. simpl.
  destruct (gpt_init g); [done |]. simpl.
  destruct (fs w product_name_file) as [fd|]; [| done].
  destruct (read_first_line (f_data fd)) as [buf exhausted].
  by destruct (exhausted && f_error fd).
Qed.

(** The scan keeps the last entry of the table whose name is the platform
    type, and what it started with when there is none. *)
Lemma scan_platform_data_last (pt : string) (table : list ec2_platform_data)
  (acc : option ec2_platform_data) :
  scan_platform_data pt table acc
  = match last (filter (fun e => name e = pt) table) with
    | Some e => Some e
    | None => acc
    end.
Proof.
  revert acc. induction table as [|e table IH]; intros acc; [done |].
  simpl. rewrite IH, filter_cons. unfold strcmp_eq.
  destruct (String.eqb_spec pt (name e)) as [Heq|Hne].
  - rewrite decide_True by done. rewrite last_cons.
    by destruct (last (filter _ table)).
  - by rewrite decide_False by congruence.
Qed.

(** C8: the first call of [get_platform_data] returns NULL when the
    platform type is NULL or names no entry of the table, and else the
    last entry of the table with that name; the result is cached, and
    every later call, whatever the world, returns it again without
    changing the state. *)
Theorem get_platform_data_lookup (table : list ec2_platform_data)
  (w : world) (g : globals) :
  gpd_init g = false -> gpd_platform_data g = None ->
  exists result g1,
    get_platform_data_in table w g = (Next result, g1)
    /\ result
       = match identity_of w g with
         | None => None
         | Some pt => last (filter (fun e => name e = pt) table)
         end
    /\ (forall e, result = Some e -> e ∈ table /\ Some (name e) = identity_of w g)
    /\ gpd_init g1 = true /\ gpd_platform_data g1 = result
    /\ forall w', get_platform_data_in table w' g1 = (Next result, g1).
Proof.
  intros Hi Hd.
  assert (Hlater : forall r g1, gpd_init g1 = true -> gpd_platform_data g1 = r ->
    forall w', get_platform_data_in table w' g1 = (Next r, g1)).
  { intros r g1 H1 H2 w'. unfold get_platform_data_in. munfold.
    by rewrite H1, H2. }
  unfold get_platform_data_in at 1. munfold. rewrite Hi. simpl.
  rewrite get_platform_type_set_gpd. unfold identity_of.
  destruct (get_platform_type_spec w g) as (pt & evs & -> & _ & _). simpl.
  destruct pt as [pt|].
  - eexists _, _. split; [done |]. simpl. rewrite Hd, scan_platform_data_last.
    set (r := last (filter (λ e, name e = pt) table)).
    assert (Hr : match r with Some e => Some e | None => None end = r)
      by by destruct r.
    rewrite Hr. split; [done |]. split.
    + intros e He. subst r. apply last_Some in He as [l' Hl'].
      assert (e ∈ filter (λ e, name e = pt) table) as Hin
        by (rewrite Hl'; set_solver).
      apply list_elem_of_filter in Hin as [-> Hin]. done.
    + split; [done |]. split; [done |]. by apply Hlater.
  - eexists _, _. split; [done |]. simpl. split; [done |].
    split; [done |]. split; [done |]. split; [done |]. by apply Hlater.
Qed.

Lemma get_platform_data_lookup_witness :
  exists result g1,
    get_platform_data_in platform_data_map
      (sample_world (files_of [(product_name_file, line "p4d.24xlarge")]))
      process_start = (Next result, g1)
    /\ result = platform_data_map !! 0%nat.
Proof.
  destruct (get_platform_data_lookup platform_data_map
    (sample_world (files_of [(product_name_file, line "p4d.24xlarge")]))
    process_start eq_refl eq_refl) as (result & g1 & H1 & H2 & _).
  exists result, g1. split; [exact H1 |]. rewrite H2. reflexivity.
Defined.

(** ** Rules of the weakest preconditions *)

Section wp_rules.
Context {A B : Type}.
Implicit Types (Q : A -> globals -> Prop) (E : option Z -> globals -> Prop).

Lemma wp_ret (a : A) Q E g : Q a g -> wp (mret a) Q E g.
Proof. done. Qed.

Lemma wp_bind (m : M A) (f : A -> M B) (R : B -> globals -> Prop) E g :
  wp m (fun a g' => wp (f a) R E g') E g -> wp (m ≫= f) R E g.
Proof.
  unfold wp, mbind, M_bind. by destruct (m g) as [[a| |] g'].
Qed.

Lemma wp_gets (f : globals -> A) Q E g : Q (f g) g -> wp (gets f) Q E g.
Proof. done. Qed.

Lemma wp_exit (ret : Z) Q E g : E (Some ret) g -> wp (goto_exit ret) Q E g.
Proof. done. Qed.

Lemma wp_fault Q E g : E None g -> wp fault Q E g.
Proof. done. Qed.

Lemma wp_mono (m : M A) Q Q' E E' g :
  wp m Q E g ->
  (forall a g', Q a g' -> Q' a g') ->
  (forall r g', E r g' -> E' r g') ->
  wp m Q' E' g.
Proof.
  unfold wp. destruct (m g) as [[a| |] g']; eauto.
Qed.

(** A computation that always goes on. *)
Lemma wp_of_eq (m : M A) (a : A) (g g' : globals) Q E :
  m g = (Next a, g') -> Q a g' -> wp m Q E g.
Proof. unfold wp. by intros ->. Qed.
End wp_rules.

Lemma wp_modify (f : globals -> globals) (Q : unit -> globals -> Prop) E g :
  Q tt (f g) -> wp (modify f) Q E g.
Proof. done. Qed.

Lemma wp_emit (e : event) (Q : unit -> globals -> Prop) E g :
  Q tt (set_trace (trace g ++ [e]) g) -> wp (emit e) Q E g.
Proof. done. Qed.

Lemma wp_returns (m : M Z) (P : option Z -> globals -> Prop) (g : globals) :
  wp m (fun ret g' => P (Some ret) g') P g ->
  P (returns m g).1 (returns m g).2.
Proof. unfold wp, returns. by destruct (m g) as [[a| |] g']. Qed.

(** One step of symbolic execution. *)
Ltac wp_step :=
  cbv beta;
  lazymatch goal with
  | |- wp (mbind _ _) _ _ _ => apply wp_bind
  | |- wp (mret _) _ _ _ => apply wp_ret
  | |- wp (gets _) _ _ _ => apply wp_gets
  | |- wp (getenv _) _ _ _ => apply wp_gets
  | |- wp (modify _) _ _ _ => apply wp_modify
  | |- wp (emit _) _ _ _ => apply wp_emit
  | |- wp (NCCL_OFI_WARN _) _ _ _ => apply wp_emit
  | |- wp (goto_exit _) _ _ _ => apply wp_exit
  | |- wp fault _ _ _ => apply wp_fault
  | |- wp (if ?c then ?a else ?b) ?Q ?E ?g =>
      let c' := eval cbn in c in
      lazymatch c' with
      | true => change (wp a Q E g)
      | false => change (wp b Q E g)
      | _ => destruct c eqn:?
      end
  | |- wp (match ?x with _ => _ end) _ _ _ => destruct x eqn:?
  end.

(** ** How the steps of a call change the state *)

Lemma quietly_refl g : quietly g g.
Proof. exists []. by rewrite app_nil_r. Qed.

Lemma quietly_trans g1 g2 g3 : quietly g1 g2 -> quietly g2 g3 -> quietly g1 g3.
Proof.
  intros (e1 & H1 & F1) (e2 & H2 & F2). exists (e1 ++ e2).
  rewrite H2, H1, app_assoc. split; [done | by apply Forall_app].
Qed.

Lemma quietly_emit g g' e :
  quietly g g' -> quiet e = true -> quietly g (set_trace (trace g' ++ [e]) g').
Proof.
  intros H He. eapply quietly_trans; [exact H |].
  exists [e]. split; [done | by repeat constructor].
Qed.

(** The platform type a call would obtain depends on the statics of
    [get_platform_type] only. *)
Lemma identity_of_ext (w : world) (g g' : globals) :
  gpt_init g' = gpt_init g -> gpt_platform_type g' = gpt_platform_type g ->
  identity_of w g' = identity_of w g.
Proof.
  intros H1 H2. unfold identity_of. rewrite !get_platform_type_unfold. munfold.
  rewrite H1. destruct (gpt_init g); [done |]. simpl.
  destruct (fs w product_name_file) as [fd|]; [| done].
  destruct (read_first_line (f_data fd)) as [buf exhausted].
  by destruct (exhausted && f_error fd).
Qed.

Lemma kept_refl w g : kept w g g.
Proof. split; try done. apply quietly_refl. Qed.

Lemma kept_trans w g1 g2 g3 : kept w g1 g2 -> kept w g2 g3 -> kept w g1 g3.
Proof.
  intros [] []. split; try congruence. by eapply quietly_trans.
Qed.

Lemma kept_emit w g g' e :
  kept w g g' -> quiet e = true -> kept w g (set_trace (trace g' ++ [e]) g').
Proof.
  intros [] He. split; try done.
  - etrans; [| eassumption]. by apply identity_of_ext.
  - by apply quietly_emit.
Qed.

Lemma get_platform_type_kept (w : world) (g : globals) :
  exists pt g',
    get_platform_type w g = (Next pt, g') /\ kept w g g'
    /\ pt = identity_of w g
    /\ gpt_init g' = true /\ gpt_platform_type g' = pt.
Proof.
  destruct (get_platform_type_spec w g) as (pt & evs & Heq & Hq & Hc).
  eexists pt, _. split; [exact Heq |].
  assert (Hid : pt = identity_of w g) by (unfold identity_of; by rewrite Heq).
  split; [| done]. split; try done. by exists evs.
Qed.

Lemma wp_get_platform_type (w : world) (g : globals)
  (Q : option string -> globals -> Prop) E :
  (forall g', kept w g g' -> gpt_init g' = true ->
     gpt_platform_type g' = identity_of w g -> Q (identity_of w g) g') ->
  wp (get_platform_type w) Q E g.
Proof.
  intros H. destruct (get_platform_type_kept w g) as (pt & g' & Heq & Hk & -> & Hi & Hp).
  eapply wp_of_eq; [exact Heq |]. by apply H.
Qed.

Lemma kept_set_gpd w g i pd : kept w g (set_gpd i pd g).
Proof.
  split; try done; try (by apply identity_of_ext).
  exists []. simpl. by rewrite app_nil_r.
Qed.

Lemma wp_get_platform_data (w : world) (g : globals)
  (Q : option ec2_platform_data -> globals -> Prop) E :
  (forall pd g', kept w g g' -> Q pd g') ->
  wp (get_platform_data w) Q E g.
Proof.
  intros H. unfold get_platform_data, get_platform_data_in.
  wp_step. wp_step. wp_step.
  - wp_step. apply H, kept_refl.
  - wp_step. wp_step. wp_step. apply wp_get_platform_type.
    intros g' Hk _ _.
    assert (Hk' : kept w g g').
    { eapply kept_trans; [| exact Hk]. apply kept_set_gpd. }
    wp_step.
    + wp_step. wp_step. wp_step.
      apply H. eapply kept_trans; [exact Hk' |]. apply kept_set_gpd.
    + wp_step. by apply H.
Qed.

(** ** The steps of the endpoint configuration *)

Ltac kept_tac :=
  repeat first
    [ assumption
    | apply kept_emit; [| reflexivity]
    | apply kept_refl ].

Lemma wp_validate_rdma_write (w : world) (ep : fid_ep) (g : globals)
  (Q : Z -> globals -> Prop) E :
  (forall ret g', kept w g g' -> Q ret g') ->
  wp (validate_rdma_write w ep) Q E g.
Proof.
  intros H. unfold validate_rdma_write.
  destruct (ep_getopt_emulated_write ep) as [[ret optlen] optval].
  repeat wp_step; apply H; kept_tac.
Qed.

Lemma wp_configure_ep_max_msg_size (w : world) (ep : fid_ep) (g : globals)
  (Q : Z -> globals -> Prop) E :
  (forall ret g', kept w g g' -> Q ret g') ->
  wp (configure_ep_max_msg_size w ep) Q E g.
Proof.
  intros H. unfold configure_ep_max_msg_size.
  repeat wp_step; apply H; kept_tac.
Qed.

(** [setenv] changes the environment and [errno] only. *)
Lemma setenv_spec (w : world) (var value : string) (overwrite : bool)
  (g : globals) :
  exists ret env e,
    setenv w var value overwrite g = (Next ret, set_environ env e g)
    /\ (forall v u, environ g !! v = Some u -> v <> var -> env !! v = Some u)
    /\ (forall u, environ g !! var = Some u -> overwrite = false ->
          env !! var = Some u)
    /\ (ret = 0 \/ (ret = -1 /\ setenv_errno w var = Some e /\ env = environ g)).
Proof.
  unfold setenv. destruct (setenv_errno w var) as [e|] eqn:He.
  - exists (-1), (environ g), e. split; [done |].
    split; [done |]. split; [done |]. right. done.
  - destruct (environ g !! var) as [u|] eqn:Hu.
    + destruct overwrite.
      * exists 0, (<[var := value]> (environ g)), (errno g).
        split; [done |]. split; [| split; [done | by left]].
        intros v u' Hv Hne. by rewrite lookup_insert_ne.
      * exists 0, (environ g), (errno g). split.
        { f_equal. by destruct g. }
        split; [done |]. split; [| by left]. intros u' Hu' _. congruence.
    + exists 0, (<[var := value]> (environ g)), (errno g).
      split; [done |]. split; [| split; [done | by left]].
      intros v u' Hv Hne. by rewrite lookup_insert_ne.
Qed.

Lemma kept_stable w g g' : kept w g g' -> stable g g'.
Proof. intros []. by split. Qed.

Lemma stable_refl g : stable g g.
Proof. split; try done. apply quietly_refl. Qed.

Lemma stable_trans g1 g2 g3 : stable g1 g2 -> stable g2 g3 -> stable g1 g3.
Proof. intros [] []. split; try congruence. by eapply quietly_trans. Qed.

Lemma stable_emit g g' e :
  stable g g' -> quiet e = true -> stable g (set_trace (trace g' ++ [e]) g').
Proof. intros [] He. split; try done. by apply quietly_emit. Qed.

Lemma stable_set_environ g env e : stable g (set_environ env e g).
Proof. split; try done. exists []. simpl. by rewrite app_nil_r. Qed.

Ltac stable_tac :=
  repeat first
    [ assumption
    | apply stable_emit; [| reflexivity]
    | apply stable_set_environ
    | apply stable_refl ].

Lemma wp_configure_nccl_proto (w : world) (g : globals)
  (Q : Z -> globals -> Prop) E :
  (forall ret g', stable g g' -> Q ret g') ->
  wp (configure_nccl_proto w) Q E g.
Proof.
  intros H. unfold configure_nccl_proto.
  wp_step. wp_step. wp_step.
  - repeat wp_step; apply H; stable_tac.
  - wp_step.
    destruct (setenv_spec w "NCCL_PROTO" "simple" false g)
      as (ret & env & e & Heq & _).
    eapply wp_of_eq; [exact Heq |].
    repeat wp_step; apply H; stable_tac.
Qed.

(** [configure_ep_inorder] attempts the option once when the build
    declares it, and not at all otherwise. *)
Lemma wp_configure_ep_inorder (w : world) (ep : fid_ep) (o : fi_opt)
  (g : globals) (Q : Z * bool -> globals -> Prop) E :
  (HAVE_DECL_FI_OPT_EFA_WRITE_IN_ORDER_ALIGNED_128_BYTES w = true ->
   forall evs, Forall (fun e => quiet e = true) evs ->
     Q (inorder_result (ep_setopt ep o))
       (set_trace (trace g ++ EvSetopt o 1 :: evs) g)) ->
  (HAVE_DECL_FI_OPT_EFA_WRITE_IN_ORDER_ALIGNED_128_BYTES w = false ->
   Q (0, false) g) ->
  wp (configure_ep_inorder w ep o) Q E g.
Proof.
  intros H1 H0. unfold configure_ep_inorder, inorder_result, unsupported in *.
  destruct (HAVE_DECL_FI_OPT_EFA_WRITE_IN_ORDER_ALIGNED_128_BYTES w);
    [| wp_step; by apply H0].
  specialize (H1 eq_refl).
  wp_step. wp_step. cbv zeta. wp_step.
  - wp_step. by apply (H1 []).
  - wp_step.
    + wp_step. wp_step. wp_step.
      specialize (H1 [EvWarn "Could not set %s. RC: %d, ERROR: %s"]).
      simpl in *. rewrite <- app_assoc. apply H1. by repeat constructor.
    + wp_step. by apply (H1 []).
Qed.

Lemma wp_config_endpoint_checks (w : world) (info : fi_info) (ep : fid_ep)
  (g : globals) (Q : unit -> globals -> Prop) E :
  (forall g', kept w g g' -> Q tt g') ->
  (forall ret g', kept w g g' -> E (Some ret) g') ->
  wp (config_endpoint_checks w info ep) Q E g.
Proof.
  intros HQ HE. unfold config_endpoint_checks.
  wp_step. wp_step; [wp_step; apply HE, kept_refl | wp_step].
  wp_step.
  assert (Hgo : forall g1, kept w g g1 ->
    wp (proto ← gets nccl_ofi_selected_protocol;
        if strcasecmp_eq "RDMA" proto
           && (ofi_nccl_disable_native_rdma_check w =? 0)
        then ret ← validate_rdma_write w ep;
             if negb (ret =? 0) then goto_exit ret else mret tt
        else mret tt) Q E g1).
  { intros g1 Hk. wp_step. wp_step. wp_step.
    - wp_step. apply wp_validate_rdma_write. intros ret g2 Hk2.
      assert (kept w g g2) by by eapply kept_trans.
      wp_step; wp_step; [by apply HE | by apply HQ].
    - wp_step. by apply HQ. }
  wp_step.
  - wp_step. apply wp_get_platform_data. intros pd g1 Hk.
    wp_step. wp_step. wp_step.
    + wp_step.
      * wp_step. wp_step. wp_step. apply HE. kept_tac.
      * wp_step. by apply Hgo.
    + wp_step. by apply Hgo.
  - wp_step. apply Hgo, kept_refl.
Qed.

(** What a call that passes the checks leaves to the negotiation. *)
Lemma config_endpoint_checks_kept (w : world) (info : fi_info) (ep : fid_ep)
  (g g_mid : globals) (o : outcome unit) :
  config_endpoint_checks w info ep g = (o, g_mid) -> kept w g g_mid.
Proof.
  intros Heq.
  pose proof (wp_config_endpoint_checks w info ep g
    (fun _ g' => kept w g g') (fun _ g' => kept w g g')
    (fun _ H => H) (fun _ _ H => H)) as Hwp.
  unfold wp in Hwp. rewrite Heq in Hwp. by destruct o.
Qed.

Lemma wp_set_max_msg_size (w : world) (ep : fid_ep) (proto : string)
  (g : globals) (Q : unit -> globals -> Prop) E :
  (forall g', kept w g g' -> Q tt g') ->
  (forall ret g', kept w g g' -> E (Some ret) g') ->
  wp (set_max_msg_size w ep proto) Q E g.
Proof.
  intros HQ HE. unfold set_max_msg_size. wp_step.
  - wp_step. apply wp_configure_ep_max_msg_size. intros ret g' Hk.
    wp_step.
    + wp_step. wp_step. wp_step. apply HE. kept_tac.
    + wp_step. by apply HQ.
  - wp_step. apply HQ. kept_tac.
Qed.

(** The P5 exception either leaves the negotiation statics alone, or, in
    an unconfigured process with [NCCL_PROTO] unset, the RDMA protocol and
    the platform type [p5.48xlarge], records that ordering is not needed;
    it faults when it has to compare a NULL platform type. *)
Lemma wp_p5_rdma_exception (w : world) (proto : string) (g : globals)
  (Q : unit -> globals -> Prop) E :
  (forall g', kept w g g' ->
     ~ (environ g !! "NCCL_PROTO" = None
        /\ strcasecmp_eq "RDMA" proto = true
        /\ identity_of w g = Some "p5.48xlarge"
        /\ nccl_proto_configured g = false) ->
     Q tt g') ->
  (forall g', kept w g g' ->
     environ g !! "NCCL_PROTO" = None ->
     strcasecmp_eq "RDMA" proto = true ->
     identity_of w g = Some "p5.48xlarge" ->
     nccl_proto_configured g = false ->
     Q tt (set_negotiation true false g')) ->
  (forall g', kept w g g' -> identity_of w g = None -> E None g') ->
  wp (p5_rdma_exception w proto) Q E g.
Proof.
  intros Hsame Hset Hfault. unfold p5_rdma_exception.
  wp_step. wp_step. wp_step.
  - apply andb_prop in Heqb as [Henv Hrdma]. apply bool_decide_eq_true in Henv.
    wp_step. apply wp_get_platform_type. intros g' Hk _ _.
    destruct (identity_of w g) as [pt|] eqn:Hid.
    + wp_step.
      * unfold strcmp_eq in *. apply String.eqb_eq in Heqb. subst pt.
        wp_step. wp_step. rewrite (kept_configured _ _ _ Hk).
        destruct (nccl_proto_configured g) eqn:Hc; simpl.
        -- wp_step. apply Hsame; [done |]. intros (_ & _ & _ & ?). done.
        -- wp_step. by apply Hset.
      * wp_step. apply Hsame; [done |]. intros (_ & _ & Hp & _).
        injection Hp as ->. unfold strcmp_eq in *.
        by rewrite String.eqb_refl in Heqb.
    + wp_step. by apply Hfault.
  - wp_step. apply Hsame; [apply kept_refl |].
    intros (Henv & Hrdma & _ & _).
    rewrite Hrdma, andb_true_r in Heqb.
    apply bool_decide_eq_false in Heqb. done.
Qed.

Lemma observing_nil g : observing [] g = g.
Proof. unfold observing. rewrite app_nil_r. apply globals_eta. Qed.

(** Once configured with ordering not needed, the negotiation block does
    nothing. *)
Lemma negotiate_ordering_unordered (w : world) (ep : fid_ep)
  (optname : option fi_opt) (g : globals) :
  nccl_proto_configured g = true -> need_ordering g = false ->
  negotiate_ordering w ep optname g = (Next tt, g).
Proof.
  intros Hc Hn. unfold negotiate_ordering. munfold. by rewrite Hc, Hn.
Qed.

(** Once configured with ordering needed, the negotiation block attempts
    the option again: an unsupported option is a mismatch ([-ENOTSUP]),
    another failure is returned as it is, and only a success lets the
    call go on. The statics stay as they are. *)
Lemma negotiate_ordering_ordered (w : world) (ep : fid_ep) (o : fi_opt)
  (g : globals) :
  nccl_proto_configured g = true -> need_ordering g = true ->
  HAVE_DECL_FI_OPT_EFA_WRITE_IN_ORDER_ALIGNED_128_BYTES w = true ->
  negotiate_ordering w ep (Some o) g
  = if unsupported (ep_setopt ep o) then
      (Exit (- ENOTSUP),
       observing [EvSetopt o 1; EvWarn ordering_mismatch_warning] g)
    else if negb (ep_setopt ep o =? 0) then
      (Exit (ep_setopt ep o),
       observing [EvSetopt o 1;
                  EvWarn "Could not set %s. RC: %d, ERROR: %s";
                  EvWarn "Unexpected failure setting inorder %d"] g)
    else (Next tt, observing [EvSetopt o 1] g).
Proof.
  intros Hc Hn Hd. unfold negotiate_ordering, configure_ep_inorder, unsupported.
  munfold. rewrite Hc, Hn, Hd. simpl.
  destruct ((ep_setopt ep o =? - FI_EOPNOTSUPP)
            || (ep_setopt ep o =? - FI_ENOPROTOOPT)); simpl.
  - unfold observing. gsimpl. by rewrite <- app_assoc.
  - destruct (ep_setopt ep o =? 0) eqn:H0; simpl; [done |].
    rewrite ?H0. simpl. unfold observing. gsimpl.
    by rewrite <- !app_assoc.
Qed.

(** With ordering needed but no option to attempt, the block fails with
    the mismatch. *)
Lemma negotiate_ordering_ordered_no_option (w : world) (ep : fid_ep)
  (optname : option fi_opt) (g : globals) :
  nccl_proto_configured g = true -> need_ordering g = true ->
  optname = None
  \/ HAVE_DECL_FI_OPT_EFA_WRITE_IN_ORDER_ALIGNED_128_BYTES w = false ->
  negotiate_ordering w ep optname g
  = (Exit (- ENOTSUP), observing [EvWarn ordering_mismatch_warning] g).
Proof.
  intros Hc Hn Hd. unfold negotiate_ordering, configure_ep_inorder.
  munfold. rewrite Hc, Hn. simpl.
  destruct optname as [o|]; [| done].
  destruct Hd as [? | ->]; done.
Qed.

(** In a configured process the negotiation block changes the
    observations only. *)
Lemma negotiate_ordering_configured (w : world) (ep : fid_ep)
  (optname : option fi_opt) (g : globals) :
  nccl_proto_configured g = true ->
  exists o evs, negotiate_ordering w ep optname g = (o, observing evs g)
    /\ (need_ordering g = false -> evs = []).
Proof.
  intros Hc. destruct (need_ordering g) eqn:Hn.
  - destruct optname as [o|].
    + destruct (HAVE_DECL_FI_OPT_EFA_WRITE_IN_ORDER_ALIGNED_128_BYTES w) eqn:Hd.
      * rewrite negotiate_ordering_ordered by done.
        destruct (unsupported _); [by eexists _, _ |].
        destruct (negb _); by eexists _, _.
      * rewrite negotiate_ordering_ordered_no_option by auto.
        by eexists _, _.
    + rewrite negotiate_ordering_ordered_no_option by auto. by eexists _, _.
  - rewrite negotiate_ordering_unordered by done.
    exists (Next tt), []. by rewrite observing_nil.
Qed.

(** ** A call in a configured state *)

Lemma wp_of_outcome {A} (m : M A) (o : outcome A) (g g' : globals)
  (Q : A -> globals -> Prop) E :
  m g = (o, g') ->
  match o with
  | Next a => Q a g'
  | Exit ret => E (Some ret) g'
  | Fault => E None g'
  end ->
  wp m Q E g.
Proof. unfold wp. by intros ->. Qed.

Lemma settled_start g : nccl_proto_configured g = true -> settled g g.
Proof. intros H. split; [done |]. split; [done |]. intros _. apply quietly_refl. Qed.

Lemma settled_stable g0 g g' : settled g0 g -> stable g g' -> settled g0 g'.
Proof.
  intros (Hc & Hn & Hq) []. split; [congruence |]. split; [congruence |].
  intros Hf. eapply quietly_trans; [by apply Hq | done].
Qed.

Lemma settled_observing g0 g evs :
  settled g0 g -> (need_ordering g = false -> evs = []) ->
  settled g0 (observing evs g).
Proof.
  intros (Hc & Hn & Hq) He. split; [done |]. split; [done |].
  intros Hf. rewrite He by congruence. rewrite observing_nil. by apply Hq.
Qed.

Ltac settled_tac :=
  repeat first
    [ eassumption
    | eapply settled_stable; [| eapply kept_stable; eassumption]
    | eapply settled_stable; [| solve [stable_tac] ] ].

Lemma config_endpoint_cuda_settled (w : world) (ep : fid_ep)
  (g0 g : globals) :
  settled g0 g ->
  wp (config_endpoint_cuda w ep)
    (fun _ g' => settled g0 g') (fun _ g' => settled g0 g') g.
Proof.
  intros Hs. unfold config_endpoint_cuda.
  wp_step. wp_step. wp_step.
  assert (Hgo : forall optname,
    wp (p5_rdma_exception w (nccl_ofi_selected_protocol g);;
        negotiate_ordering w ep optname;;
        set_max_msg_size w ep (nccl_ofi_selected_protocol g);; mret 0)
      (fun _ g' => settled g0 g') (fun _ g' => settled g0 g') g).
  { intros optname. wp_step. apply wp_p5_rdma_exception.
    - intros g1 Hk _.
      assert (Hs1 : settled g0 g1) by settled_tac.
      wp_step.
      destruct (negotiate_ordering_configured w ep optname g1)
        as (o & evs & Heq & Hevs); [by destruct Hs1 |].
      assert (Hs2 : settled g0 (observing evs g1))
        by by apply settled_observing.
      eapply wp_of_outcome; [exact Heq |].
      destruct o as [[]| |]; [| done | done].
      wp_step. apply wp_set_max_msg_size.
      + intros g3 Hk3. wp_step. settled_tac.
      + intros r g3 Hk3. settled_tac.
    - intros g1 _ _ _ _ Hc. destruct Hs as (Hc' & _). congruence.
    - intros g1 Hk _. settled_tac. }
  unfold select_inorder_optname. wp_step.
  - wp_step. apply Hgo.
  - wp_step.
    + wp_step. apply Hgo.
    + wp_step. wp_step. wp_step. settled_tac.
Qed.

(** Once the domain is configured, a call of [platform_config_endpoint],
    whatever its arguments and its world, leaves the two statics as they
    are; when ordering is not needed, it neither attempts an in-order
    option nor warns of a mismatch. *)
Lemma platform_config_endpoint_settled (w : world) (info : fi_info)
  (endpoint : option fid_ep) (g : globals) :
  nccl_proto_configured g = true ->
  settled g (platform_config_endpoint w info endpoint g).2.
Proof.
  intros Hc. unfold platform_config_endpoint.
  apply (wp_returns _ (fun _ g' => settled g g')).
  pose proof (settled_start g Hc) as Hs.
  unfold platform_config_endpoint_body. destruct endpoint as [ep|].
  - wp_step. apply wp_config_endpoint_checks.
    + intros g1 Hk. wp_step.
      * apply config_endpoint_cuda_settled. settled_tac.
      * wp_step. settled_tac.
    + intros r g1 Hk. settled_tac.
  - wp_step. wp_step. wp_step. settled_tac.
Qed.

Lemma settled_trans g0 g1 g2 : settled g0 g1 -> settled g1 g2 -> settled g0 g2.
Proof.
  intros (Hc1 & Hn1 & Hq1) (Hc2 & Hn2 & Hq2).
  split; [done |]. split; [congruence |].
  intros Hf. eapply quietly_trans; [by apply Hq1 |]. apply Hq2. congruence.
Qed.

Lemma run_calls_settled (calls : list call) (g : globals) :
  nccl_proto_configured g = true -> settled g (run_calls calls g).
Proof.
  revert g. induction calls as [|c calls IH]; intros g Hc.
  - by apply settled_start.
  - simpl. eapply settled_trans.
    + by apply platform_config_endpoint_settled.
    + apply IH. by apply platform_config_endpoint_settled.
Qed.

(** ** A null endpoint *)

(** C10: with a NULL endpoint, [platform_config_endpoint] returns
    [-EINVAL] whatever the state, the world and [info] are; it leaves the
    state as it was but for the warning it logs, so it changes neither of
    the negotiation statics and calls neither [fi_getopt] nor
    [fi_setopt]. *)
Theorem platform_config_endpoint_null (w : world) (info : fi_info)
  (g : globals) :
  platform_config_endpoint w info None g
  = (Some (- EINVAL),
     observing [EvWarn "Unable to configure invalid endpoint"] g)
  /\ nccl_proto_configured (platform_config_endpoint w info None g).2
     = nccl_proto_configured g
  /\ need_ordering (platform_config_endpoint w info None g).2
     = need_ordering g
  /\ forall (w' : world) (info' : fi_info) (g' : globals),
       (platform_config_endpoint w' info' None g').1
       = (platform_config_endpoint w info None g).1.
Proof. done. Qed.

(** ** The first call of an unconfigured domain *)

Lemma unseen_start (ep : fid_ep) (g : globals) : unseen ep g g.
Proof. exists []. by rewrite app_nil_r. Qed.

Lemma unseen_quietly (ep : fid_ep) (g g1 g2 : globals) :
  unseen ep g g1 -> quietly g1 g2 -> unseen ep g g2.
Proof.
  intros (evs & Ht & Hf) (q & Hq & Hfq).
  exists (evs ++ q). rewrite Hq, Ht, app_assoc. split; [done |].
  apply Forall_app. split; [done |].
  eapply Forall_impl; [exact Hfq |]. intros e He. unfold tolerable.
  by rewrite He.
Qed.

Lemma unseen_attempt (ep : fid_ep) (g g1 g2 : globals) o q :
  unseen ep g g1 -> unsupported (ep_setopt ep o) = false ->
  Forall (fun e => quiet e = true) q ->
  trace g2 = trace g1 ++ EvSetopt o 1 :: q ->
  unseen ep g g2.
Proof.
  intros (evs & Ht & Hf) Hu Hq Ht2.
  exists (evs ++ EvSetopt o 1 :: q). rewrite Ht2, Ht, app_assoc.
  split; [done |]. apply Forall_app. split; [done |]. constructor.
  - unfold tolerable. rewrite Hu. apply orb_true_r.
  - eapply Forall_impl; [exact Hq |]. intros e He. unfold tolerable.
    by rewrite He.
Qed.

Lemma first_inv_stable (ep : fid_ep) (g g1 g2 : globals) :
  first_inv ep g g1 -> stable g1 g2 -> first_inv ep g g2.
Proof.
  intros [[Hc Hn] | Hu] [Hc' Hn' Hq].
  - left. split; congruence.
  - right. by eapply unseen_quietly.
Qed.

(** The negotiation block in an unconfigured state. *)
Lemma negotiate_ordering_first (w : world) (ep : fid_ep) (g : globals)
  (optname : option fi_opt) (g1 : globals) :
  nccl_proto_configured g1 = false -> need_ordering g1 = false ->
  unseen ep g g1 ->
  wp (negotiate_ordering w ep optname)
    (fun _ g' => first_inv ep g g') (fun _ g' => first_inv ep g g') g1.
Proof.
  intros Hc Hn Hu. unfold negotiate_ordering.
  wp_step. wp_step. wp_step. wp_step. rewrite Hc, Hn. simpl.
  assert (Hrec : forall g2,
    wp (modify (set_negotiation true false);;
        (if negb false then
           ret ← configure_nccl_proto w;
           if negb (ret =? 0) then
             NCCL_OFI_WARN "Failed to set NCCL_PROTO: %d";;
             goto_exit (- ENOTSUP)
           else mret tt
         else mret tt))
      (fun _ g' => first_inv ep g g') (fun _ g' => first_inv ep g g') g2).
  { intros g2. wp_step. wp_step. simpl. wp_step.
    apply wp_configure_nccl_proto. intros ret g3 Hs.
    assert (first_inv ep g g3).
    { eapply first_inv_stable; [| exact Hs]. by left. }
    wp_step.
    - wp_step. wp_step. wp_step.
      eapply first_inv_stable; [eassumption |]. stable_tac.
    - by wp_step. }
  wp_step. wp_step.
  - wp_step. apply wp_configure_ep_inorder.
    + intros _ q Hq. unfold inorder_result.
      destruct (unsupported (ep_setopt ep f)) eqn:Hun; simpl.
      * wp_step. wp_step. wp_step. apply Hrec.
      * destruct (ep_setopt ep f =? 0) eqn:H0; simpl.
        -- wp_step. wp_step. wp_step. wp_step. wp_step. wp_step.
           wp_step. right. by eapply unseen_attempt.
        -- rewrite H0. simpl. wp_step. wp_step. wp_step.
           right. eapply (unseen_attempt ep g g1 _ f
             (q ++ [EvWarn "Unexpected failure setting inorder %d"]));
             [done | done | | simpl; by rewrite <- app_assoc].
           apply Forall_app. split; [done | by repeat constructor].
    + intros _. simpl. wp_step. wp_step. wp_step. apply Hrec.
  - wp_step. wp_step. wp_step. apply Hrec.
Qed.

Lemma config_endpoint_cuda_first (w : world) (ep : fid_ep) (g gm : globals) :
  nccl_proto_configured gm = false -> need_ordering gm = false ->
  unseen ep g gm ->
  wp (config_endpoint_cuda w ep)
    (fun _ g' => first_inv ep g g') (fun _ g' => first_inv ep g g') gm.
Proof.
  intros Hc Hn Hu. unfold config_endpoint_cuda.
  assert (Htail : forall g2, first_inv ep g g2 ->
    wp (set_max_msg_size w ep (nccl_ofi_selected_protocol gm);; mret 0)
      (fun _ g' => first_inv ep g g') (fun _ g' => first_inv ep g g') g2).
  { intros g2 Hi. wp_step. apply wp_set_max_msg_size.
    - intros g3 Hk. wp_step.
      eapply first_inv_stable; [exact Hi | by eapply kept_stable].
    - intros r g3 Hk.
      eapply first_inv_stable; [exact Hi | by eapply kept_stable]. }
  assert (Hgo : forall optname,
    wp (p5_rdma_exception w (nccl_ofi_selected_protocol gm);;
        negotiate_ordering w ep optname;;
        set_max_msg_size w ep (nccl_ofi_selected_protocol gm);; mret 0)
      (fun _ g' => first_inv ep g g') (fun _ g' => first_inv ep g g') gm).
  { intros optname. wp_step. apply wp_p5_rdma_exception.
    - intros g1 Hk _. destruct Hk as [Hc1 Hn1 _ _ _ Hq1]. wp_step.
      eapply wp_mono.
      + apply negotiate_ordering_first; [congruence | congruence |].
        by eapply unseen_quietly.
      + intros [] g2 Hi. cbv beta. by apply Htail.
      + done.
    - intros g1 Hk _ _ _ _. wp_step.
      eapply wp_of_outcome.
      { by apply negotiate_ordering_unordered. }
      apply Htail. by left.
    - intros g1 Hk _. right. eapply unseen_quietly; [exact Hu |].
      by destruct Hk. }
  wp_step. wp_step. wp_step. unfold select_inorder_optname. wp_step.
  - wp_step. apply Hgo.
  - wp_step.
    + wp_step. apply Hgo.
    + wp_step. wp_step. wp_step. right.
      eapply unseen_quietly; [exact Hu |].
      exists [EvWarn "unkonwn transport %s"]. split; [done |].
      by repeat constructor.
Qed.

(** C5: when the first call of an unconfigured domain attempts an
    in-order option and the endpoint answers that it is not supported,
    the call leaves the domain configured with ordering not needed
    ([nccl_proto_configured = true], [need_ordering = false]); and after
    any later calls, with any arguments and whatever their endpoints
    would answer, the domain is still in that state, and none of those
    calls has attempted an in-order option or warned of an ordering
    mismatch. *)
Theorem first_call_unsupported (w : world) (info : fi_info) (ep : fid_ep)
  (g : globals) (o : fi_opt) (evs : list event) :
  nccl_proto_configured g = false -> need_ordering g = false ->
  trace (platform_config_endpoint w info (Some ep) g).2 = trace g ++ evs ->
  EvSetopt o 1 ∈ evs -> in_order_option o = true ->
  unsupported (ep_setopt ep o) = true ->
  let g1 := (platform_config_endpoint w info (Some ep) g).2 in
  nccl_proto_configured g1 = true /\ need_ordering g1 = false
  /\ forall later : list call,
       nccl_proto_configured (run_calls later g1) = true
       /\ need_ordering (run_calls later g1) = false
       /\ quietly g1 (run_calls later g1).
Proof.
  intros Hc Hn Ht Hin Ho Hun g1.
  assert (Hinv : first_inv ep g g1).
  { subst g1. unfold platform_config_endpoint.
    apply (wp_returns _ (fun _ g' => first_inv ep g g')).
    unfold platform_config_endpoint_body. wp_step.
    apply wp_config_endpoint_checks.
    - intros gm [Hcm Hnm _ _ _ Hqm].
      assert (unseen ep g gm)
        by (eapply unseen_quietly; [apply unseen_start | done]).
      wp_step.
      + apply config_endpoint_cuda_first; congruence.
      + wp_step. by right.
    - intros r gm Hk. right.
      eapply unseen_quietly; [apply unseen_start | by destruct Hk]. }
  assert (Hrec : nccl_proto_configured g1 = true /\ need_ordering g1 = false).
  { destruct Hinv as [Hrec | (evs' & Ht' & Hf)]; [done |].
    exfalso. subst g1. rewrite Ht in Ht'. apply app_inv_head in Ht'. subst evs'.
    rewrite Forall_forall in Hf. specialize (Hf _ Hin).
    unfold tolerable in Hf. rewrite Hun in Hf.
    by destruct o. }
  destruct Hrec as [Hc1 Hn1]. split; [done |]. split; [done |].
  intros later.
  destruct (run_calls_settled later g1 Hc1) as (H1 & H2 & H3).
  split; [done |]. split; [congruence |]. by apply H3.
Qed.

Lemma first_call_unsupported_witness :
  let g1 :=
    (platform_config_endpoint (sample_world (files_of []))
       efa_info (Some (endpoint_answering (- FI_EOPNOTSUPP)))
       process_start).2 in
  nccl_proto_configured g1 = true /\ need_ordering g1 = false
  /\ forall later : list call,
       nccl_proto_configured (run_calls later g1) = true
       /\ need_ordering (run_calls later g1) = false
       /\ quietly g1 (run_calls later g1).
Proof.
  apply (first_call_unsupported (sample_world (files_of [])) efa_info
           (endpoint_answering (- FI_EOPNOTSUPP)) process_start
           FI_OPT_EFA_SENDRECV_IN_ORDER_ALIGNED_128_BYTES
           [EvFopen product_name_file; EvWarn "Error opening file: %s";
            EvSetopt FI_OPT_EFA_SENDRECV_IN_ORDER_ALIGNED_128_BYTES 1]).
  - reflexivity.
  - reflexivity.
  - vm_compute. reflexivity.
  - apply list_elem_of_In. simpl. auto.
  - reflexivity.
  - reflexivity.
Defined.

(** ** A call of a domain that needs ordering *)

Lemma select_inorder_optname_known (w : world) (proto : string) (o : fi_opt)
  (g : globals) :
  protocol_option w proto = Some o ->
  select_inorder_optname w proto g = (Next (Some o), g).
Proof.
  unfold protocol_option, select_inorder_optname. munfold.
  destruct (strcasecmp_eq "SENDRECV" proto).
  - by destruct (HAVE_DECL_FI_OPT_EFA_SENDRECV_IN_ORDER_ALIGNED_128_BYTES w);
      intros [= ->].
  - destruct (strcasecmp_eq "RDMA" proto); [| done].
    by destruct (HAVE_DECL_FI_OPT_EFA_WRITE_IN_ORDER_ALIGNED_128_BYTES w);
      intros [= ->].
Qed.

Lemma quiet_not_attempt (e : event) : quiet e = true -> attempt e = false.
Proof. destruct e as [| |[] ?|]; simpl; congruence. Qed.

Lemma attempted_once_intro o g g1 g2 q :
  quietly g g1 -> trace g2 = trace g1 ++ EvSetopt o 1 :: q ->
  Forall (fun e => attempt e = false) q ->
  attempted_once o g g2.
Proof.
  intros (q1 & Hq1 & Hf1) Ht Hf. exists q1, q. rewrite Ht, Hq1, <- app_assoc.
  split; [done |]. split; [| done].
  eapply Forall_impl; [exact Hf1 |]. apply quiet_not_attempt.
Qed.

Lemma attempted_once_quietly o g g1 g2 :
  attempted_once o g g1 -> quietly g1 g2 -> attempted_once o g g2.
Proof.
  intros (q1 & q2 & Ht & H1 & H2) (q & Hq & Hf). exists q1, (q2 ++ q).
  rewrite Hq, Ht, <- !app_assoc. split; [done |]. split; [done |].
  apply Forall_app. split; [done |].
  eapply Forall_impl; [exact Hf |]. apply quiet_not_attempt.
Qed.

Lemma config_endpoint_cuda_ordered (w : world) (ep : fid_ep) (o : fi_opt)
  (g gm : globals) :
  nccl_proto_configured gm = true -> need_ordering gm = true ->
  quietly g gm ->
  protocol_option w (nccl_ofi_selected_protocol gm) = Some o ->
  HAVE_DECL_FI_OPT_EFA_WRITE_IN_ORDER_ALIGNED_128_BYTES w = true ->
  wp (config_endpoint_cuda w ep)
    (fun ret g1 => ordered_call_post ep o g (Some ret) g1)
    (fun r g1 => ordered_call_post ep o g r g1) gm.
Proof.
  intros Hc Hn Hq Ho Hd. unfold config_endpoint_cuda.
  wp_step. wp_step. wp_step.
  eapply wp_of_eq; [by apply select_inorder_optname_known |].
  wp_step. apply wp_p5_rdma_exception.
  - intros g2 Hk _.
    assert (Hq2 : quietly g g2).
    { eapply quietly_trans; [exact Hq | by destruct Hk]. }
    wp_step.
    assert (Hneg := negotiate_ordering_ordered w ep o g2).
    rewrite (kept_configured _ _ _ Hk), (kept_need _ _ _ Hk) in Hneg.
    specialize (Hneg Hc Hn Hd).
    destruct (unsupported (ep_setopt ep o)) eqn:Hun.
    { eapply wp_of_outcome; [exact Hneg |]. cbv beta iota.
      split; [| split; [done | split; [intros; congruence | discriminate]]].
      eapply attempted_once_intro; [exact Hq2 | done | by repeat constructor]. }
    destruct (ep_setopt ep o =? 0) eqn:H0; simpl in Hneg;
      (eapply wp_of_outcome; [exact Hneg |]); cbv beta iota.
    + apply Z.eqb_eq in H0.
      assert (Hpost : forall r g3, kept w (observing [EvSetopt o 1] g2) g3 ->
        ordered_call_post ep o g r g3).
      { intros [ret|] g3 Hk3; [| done].
        split; [| split; [intros; congruence | split; [done | done]]].
        eapply attempted_once_quietly; [| by destruct Hk3].
        eapply attempted_once_intro; [exact Hq2 | done | constructor]. }
      wp_step. apply wp_set_max_msg_size.
      * intros g3 Hk3. wp_step. by apply Hpost.
      * intros r g3 Hk3. by apply Hpost.
    + apply Z.eqb_neq in H0.
      split; [| split; [intros; congruence | split; [done | done]]].
      eapply attempted_once_intro; [exact Hq2 | done | by repeat constructor].
  - intros g2 _ _ _ _ Hc2. congruence.
  - done.
Qed.

(** C3, as the code has it: in a domain configured with ordering needed,
    a call that passes the checks before the negotiation (non-null
    endpoint, EFA provider, GDR check, validation of native RDMA writes),
    in a CUDA build that declares the in-order option of the selected
    protocol, and that has defined behaviour, attempts that option once
    more, and no other in-order option; when the endpoint answers
    "unsupported" the call returns [-ENOTSUP], when it answers another
    error the call returns that error, so that the call returns [0] only
    if the endpoint accepted the option. After any sequence of calls
    whatsoever, with any arguments, the two statics are still what they
    were. *)
Theorem ordered_call_reattempts (w : world) (info : fi_info) (ep : fid_ep)
  (g gm : globals) (o : fi_opt) :
  nccl_proto_configured g = true -> need_ordering g = true ->
  HAVE_CUDA w = true ->
  config_endpoint_checks w info ep g = (Next tt, gm) ->
  protocol_option w (nccl_ofi_selected_protocol g) = Some o ->
  HAVE_DECL_FI_OPT_EFA_WRITE_IN_ORDER_ALIGNED_128_BYTES w = true ->
  (platform_config_endpoint w info (Some ep) g).1 <> None ->
  exists ret g1,
    platform_config_endpoint w info (Some ep) g = (Some ret, g1)
    /\ attempted_once o g g1
    /\ (unsupported (ep_setopt ep o) = true -> ret = - ENOTSUP)
    /\ (unsupported (ep_setopt ep o) = false -> ep_setopt ep o <> 0 ->
        ret = ep_setopt ep o)
    /\ (ret = 0 -> ep_setopt ep o = 0)
    /\ forall calls : list call,
         nccl_proto_configured (run_calls calls g) = true
         /\ need_ordering (run_calls calls g) = true.
Proof.
  intros Hc Hn Hcuda Hchecks Ho Hd Hdef.
  pose proof (config_endpoint_checks_kept _ _ _ _ _ _ Hchecks) as Hk.
  assert (Hpost : ordered_call_post ep o g
            (platform_config_endpoint w info (Some ep) g).1
            (platform_config_endpoint w info (Some ep) g).2).
  { unfold platform_config_endpoint.
    apply (wp_returns _ (ordered_call_post ep o g)).
    unfold platform_config_endpoint_body. wp_step.
    eapply wp_of_outcome; [exact Hchecks |]. rewrite Hcuda.
    destruct Hk. apply config_endpoint_cuda_ordered; congruence. }
  destruct (platform_config_endpoint w info (Some ep) g) as [[ret|] g1];
    [| done].
  simpl in *. destruct Hpost as (H1 & H2 & H3 & H4).
  exists ret, g1. repeat (split; [done |]).
  intros calls. destruct (run_calls_settled calls g Hc) as (? & ? & _).
  split; congruence.
Qed.

Lemma outcome_next_eq {A} (x : outcome A * globals) (a : A) :
  x.1 = Next a -> x = (Next a, x.2).
Proof. destruct x as [o g]. simpl. by intros ->. Qed.

Lemma ordered_call_reattempts_witness :
  exists ret g1,
    platform_config_endpoint p4d_world efa_info
      (Some (endpoint_answering (- FI_EOPNOTSUPP)))
      (ordered_process "SENDRECV") = (Some ret, g1)
    /\ ret = - ENOTSUP
    /\ attempted_once FI_OPT_EFA_SENDRECV_IN_ORDER_ALIGNED_128_BYTES
         (ordered_process "SENDRECV") g1.
Proof.
  destruct (ordered_call_reattempts p4d_world efa_info
              (endpoint_answering (- FI_EOPNOTSUPP))
              (ordered_process "SENDRECV")
              (config_endpoint_checks p4d_world efa_info
                 (endpoint_answering (- FI_EOPNOTSUPP))
                 (ordered_process "SENDRECV")).2
              FI_OPT_EFA_SENDRECV_IN_ORDER_ALIGNED_128_BYTES)
    as (ret & g1 & Heq & Hatt & Hun & _).
  - reflexivity.
  - reflexivity.
  - reflexivity.
  - apply outcome_next_eq. reflexivity.
  - reflexivity.
  - reflexivity.
  - vm_compute. discriminate.
  - exists ret, g1. split; [exact Heq |]. split; [| exact Hatt].
    apply Hun. reflexivity.
Defined.

(** C3 as stated fails: in a domain configured with ordering needed, a
    later call for another provider succeeds without any attempt (the
    state, observations included, is what it was), although its endpoint
    would answer "unsupported"; and a later call under the RDMA protocol
    whose endpoint emulates RDMA writes fails in the validation, before
    any attempt. *)
Lemma ordered_call_without_attempt :
  (let g := ordered_process "SENDRECV" in
   let tcp_info :=
     {| next := None; prov_name := "tcp"; device_name := "eth0" |} in
   let r := platform_config_endpoint p4d_world tcp_info
              (Some (endpoint_answering (- FI_EOPNOTSUPP))) g in
   nccl_proto_configured g = true /\ need_ordering g = true
   /\ r.1 = Some 0 /\ trace r.2 = trace g)
  /\ (let g := ordered_process "RDMA" in
      let emulating :=
        {| ep_getopt_emulated_write := (0, 1, true);
           ep_setopt := fun _ => 0 |} in
      let r := platform_config_endpoint p4d_world efa_info (Some emulating) g in
      nccl_proto_configured g = true /\ need_ordering g = true
      /\ r.1 = Some (- EINVAL)
      /\ trace r.2
         = trace g ++
           [EvGetopt FI_OPT_EFA_EMULATED_WRITE;
            EvWarn "FI_OPT_EFA_EMULATED_WRITE is true when the communication protocol is RDMA write."]).
Proof. split; vm_compute; repeat split. Qed.

(** ** The P5 exception *)

Lemma rdma_is_not_sendrecv (proto : string) :
  strcasecmp_eq "RDMA" proto = true -> strcasecmp_eq "SENDRECV" proto = false.
Proof.
  unfold strcasecmp_eq. intros H. apply String.eqb_eq in H.
  by rewrite <- H.
Qed.

(** C9, as the code has it: in a CUDA build, when the first call of an
    unconfigured domain passes the checks before the negotiation, with
    [NCCL_PROTO] unset, the RDMA protocol selected and the platform type
    [p5.48xlarge], it leaves the domain configured with ordering not
    needed, and it neither attempts an in-order option nor warns of a
    mismatch, whatever the endpoint would answer. *)
Theorem p5_rdma_skips_negotiation (w : world) (info : fi_info) (ep : fid_ep)
  (g gm : globals) :
  HAVE_CUDA w = true ->
  nccl_proto_configured g = false ->
  environ g !! "NCCL_PROTO" = None ->
  strcasecmp_eq "RDMA" (nccl_ofi_selected_protocol g) = true ->
  identity_of w g = Some "p5.48xlarge" ->
  config_endpoint_checks w info ep g = (Next tt, gm) ->
  exists ret g1,
    platform_config_endpoint w info (Some ep) g = (Some ret, g1)
    /\ nccl_proto_configured g1 = true /\ need_ordering g1 = false
    /\ quietly g g1.
Proof.
  intros Hcuda Hc Henv Hrdma Hid Hchecks.
  pose proof (config_endpoint_checks_kept _ _ _ _ _ _ Hchecks) as Hk.
  set (P := fun (r : option Z) (g1 : globals) =>
    r <> None /\ nccl_proto_configured g1 = true /\ need_ordering g1 = false
    /\ quietly g g1).
  assert (Hpost : P (platform_config_endpoint w info (Some ep) g).1
                    (platform_config_endpoint w info (Some ep) g).2).
  { unfold platform_config_endpoint. apply (wp_returns _ P).
    unfold platform_config_endpoint_body. wp_step.
    eapply wp_of_eq; [exact Hchecks |]. rewrite Hcuda.
    unfold config_endpoint_cuda. wp_step. wp_step.
    rewrite (kept_protocol _ _ _ Hk).
    assert (Hgo : forall optname,
      wp (p5_rdma_exception w (nccl_ofi_selected_protocol g);;
          negotiate_ordering w ep optname;;
          set_max_msg_size w ep (nccl_ofi_selected_protocol g);; mret 0)
        (fun ret g' => P (Some ret) g') P gm).
    { intros optname. wp_step. apply wp_p5_rdma_exception.
      - intros g2 _ Hnot. exfalso. apply Hnot. destruct Hk. by repeat split; congruence.
      - intros g2 Hk2 _ _ _ _. wp_step.
        eapply wp_of_eq; [by apply negotiate_ordering_unordered |].
        assert (Hfin : forall r g3, r <> None ->
          kept w (set_negotiation true false g2) g3 -> P r g3).
        { intros r g3 Hr Hk3. split; [done |].
          destruct Hk3 as [Hc3 Hn3 _ _ _ Hq3]. split; [done |]. split; [done |].
          eapply quietly_trans; [| exact Hq3].
          eapply quietly_trans; [by destruct Hk |]. by destruct Hk2. }
        wp_step. apply wp_set_max_msg_size.
        + intros g3 Hk3. wp_step. by apply Hfin.
        + intros r g3 Hk3. by apply Hfin.
      - intros g2 Hk2 Hnone. destruct Hk. congruence. }
    wp_step. unfold select_inorder_optname.
    rewrite (rdma_is_not_sendrecv _ Hrdma), Hrdma. wp_step. apply Hgo. }
  destruct (platform_config_endpoint w info (Some ep) g) as [[ret|] g1];
    destruct Hpost as (Hr & ? & ? & ?); [| done].
  by exists ret, g1.
Qed.

Lemma p5_rdma_skips_negotiation_witness :
  exists ret g1,
    platform_config_endpoint p5_world efa_info
      (Some (endpoint_answering 0)) (process_with_protocol "RDMA")
    = (Some ret, g1)
    /\ nccl_proto_configured g1 = true /\ need_ordering g1 = false.
Proof.
  destruct (p5_rdma_skips_negotiation p5_world efa_info
              (endpoint_answering 0) (process_with_protocol "RDMA")
              (config_endpoint_checks p5_world efa_info
                 (endpoint_answering 0) (process_with_protocol "RDMA")).2)
    as (ret & g1 & Heq & Hc & Hn & _).
  - reflexivity.
  - reflexivity.
  - reflexivity.
  - reflexivity.
  - reflexivity.
  - apply outcome_next_eq. reflexivity.
  - exists ret, g1. split; [exact Heq |]. split; [exact Hc | exact Hn].
Defined.

(** C9 as stated fails: on [p5.48xlarge], with [NCCL_PROTO] unset and the
    RDMA protocol, the first call for an endpoint that emulates RDMA
    writes fails in the validation before the negotiation and records
    nothing: the domain stays unconfigured. *)
Lemma p5_rdma_first_call_not_recorded :
  let g := process_with_protocol "RDMA" in
  let emulating :=
    {| ep_getopt_emulated_write := (0, 1, true); ep_setopt := fun _ => 0 |} in
  let r := platform_config_endpoint p5_world efa_info (Some emulating) g in
  nccl_proto_configured g = false
  /\ environ g !! "NCCL_PROTO" = None
  /\ strcasecmp_eq "RDMA" (nccl_ofi_selected_protocol g) = true
  /\ identity_of p5_world g = Some "p5.48xlarge"
  /\ r.1 = Some (- EINVAL)
  /\ nccl_proto_configured r.2 = false.
Proof. vm_compute. repeat split. Qed.

(** ** Initialisation and the user's settings *)

(** A value in the range of [int] is stored as it is. *)
Lemma to_int_id (x : Z) : - 2 ^ 31 <= x < 2 ^ 31 -> to_int x = x.
Proof. intros H. unfold to_int. rewrite Z.mod_small; lia. Qed.

Lemma overrides_kept_refl w g : overrides_kept w g g.
Proof. split; auto. Qed.

Lemma overrides_kept_trans w g1 g2 g3 :
  overrides_kept w g1 g2 -> overrides_kept w g2 g3 -> overrides_kept w g1 g3.
Proof.
  intros [He1 Hf1 Hd1 Hl1 Hp1 Ht1] [He2 Hf2 Hd2 Hl2 Hp2 Ht2]. split.
  - auto.
  - intros [v Hv]. rewrite Hf2, Hf1; eauto.
  - intros H. rewrite Hd2; rewrite Hd1; auto.
  - intros H. rewrite Hl2, Hl1; auto.
  - intros H. rewrite Hp2, Hp1; auto.
  - intros H. destruct (Ht2 H) as [-> | ->]; auto.
Qed.

Lemma caches_only_refl g : caches_only g g.
Proof.
  exists (trace g), (gpt_init g), (gpt_platform_type g), (gpd_init g),
    (gpd_platform_data g). by destruct g.
Qed.

Lemma caches_only_trans g1 g2 g3 :
  caches_only g1 g2 -> caches_only g2 g3 -> caches_only g1 g3.
Proof.
  intros (t & i & pt & j & pd & ->) (t' & i' & pt' & j' & pd' & ->).
  by exists t', i', pt', j', pd'.
Qed.

Lemma caches_only_emit g g' e :
  caches_only g g' -> caches_only g (set_trace (trace g' ++ [e]) g').
Proof.
  intros (t & i & pt & j & pd & ->). by exists (t ++ [e]), i, pt, j, pd.
Qed.

Lemma caches_only_overrides w g g' : caches_only g g' -> overrides_kept w g g'.
Proof. intros (t & i & pt & j & pd & ->). split; auto. Qed.

Lemma wp_get_platform_type_caches (w : world) (g : globals)
  (Q : option string -> globals -> Prop) E :
  (forall pt g', caches_only g g' -> Q pt g') ->
  wp (get_platform_type w) Q E g.
Proof.
  intros H. destruct (get_platform_type_spec w g) as (pt & evs & Heq & _).
  eapply wp_of_eq; [exact Heq |]. apply H.
  by exists (trace g ++ evs), true, pt, (gpd_init g), (gpd_platform_data g).
Qed.

Lemma wp_get_platform_data_caches (w : world) (g : globals)
  (Q : option ec2_platform_data -> globals -> Prop) E :
  (forall pd g', caches_only g g' -> Q pd g') ->
  wp (get_platform_data w) Q E g.
Proof.
  intros H. unfold get_platform_data, get_platform_data_in.
  wp_step. wp_step. wp_step.
  - wp_step. apply H, caches_only_refl.
  - wp_step. wp_step. wp_step. apply wp_get_platform_type_caches.
    intros pt g' Hc.
    assert (Hc' : caches_only g g').
    { eapply caches_only_trans; [| exact Hc].
      by exists (trace g), (gpt_init g), (gpt_platform_type g), true,
        (gpd_platform_data g). }
    wp_step.
    + wp_step. wp_step. wp_step. apply H.
      eapply caches_only_trans; [exact Hc' |].
      eexists (trace g'), (gpt_init g'), (gpt_platform_type g'), true, _.
      reflexivity.
    + wp_step. by apply H.
Qed.

Lemma overrides_kept_emit w g g' e :
  overrides_kept w g g' -> overrides_kept w g (set_trace (trace g' ++ [e]) g').
Proof. intros []. by split. Qed.

(** [setenv] keeps every variable that is set, when it is asked not to
    overwrite or when its variable is unset. *)
Lemma setenv_overrides_kept (w : world) (var value : string)
  (overwrite : bool) (g : globals) :
  (overwrite = true -> environ g !! var = None) ->
  exists ret g', setenv w var value overwrite g = (Next ret, g')
    /\ overrides_kept w g g'.
Proof.
  intros Hov.
  destruct (setenv_spec w var value overwrite g)
    as (ret & env & e & Heq & Hother & Hsame & _).
  eexists ret, _. split; [exact Heq |]. split; simpl; auto.
  intros v u Hv. destruct (decide (v = var)) as [-> | Hne]; [| by apply Hother].
  apply Hsame; [done |]. destruct overwrite; [| done].
  rewrite Hov in Hv; done.
Qed.

Lemma wp_setenv_or_exit (w : world) (var value : string) (overwrite : bool)
  (warning : string) (g0 g : globals) (Q : unit -> globals -> Prop) E :
  overrides_kept w g0 g ->
  (overwrite = true -> environ g !! var = None) ->
  (forall a g', overrides_kept w g0 g' -> Q a g') ->
  (forall ret g', overrides_kept w g0 g' -> E (Some ret) g') ->
  wp (setenv_or_exit w var value overwrite warning) Q E g.
Proof.
  intros H0 Hov HQ HE. unfold setenv_or_exit.
  destruct (setenv_overrides_kept w var value overwrite g Hov)
    as (ret & g' & Heq & Hk).
  assert (overrides_kept w g0 g') by by eapply overrides_kept_trans.
  wp_step. eapply wp_of_eq; [exact Heq |].
  wp_step.
  - wp_step. wp_step. wp_step. wp_step. wp_step.
    apply HE. by apply overrides_kept_emit.
  - wp_step. by apply HQ.
Qed.

Section keeps_rules.
Context {A B : Type} (w : world).

Lemma keeps_bind (m : M A) (f : A -> M B) :
  keeps_overrides w m -> (forall a, keeps_overrides w (f a)) ->
  keeps_overrides w (m ≫= f).
Proof.
  intros Hm Hf g0 g Q E H0 HQ HE. apply wp_bind.
  apply (Hm g0); [done | | done]. intros a g' H'. by apply (Hf a g0).
Qed.

Lemma keeps_ret (a : A) : keeps_overrides w (mret a).
Proof. intros g0 g Q E H0 HQ HE. by apply wp_ret, HQ. Qed.

Lemma keeps_exit (ret : Z) : keeps_overrides w (goto_exit (A := A) ret).
Proof. intros g0 g Q E H0 HQ HE. by apply wp_exit, HE. Qed.

Lemma keeps_gets (f : globals -> A) : keeps_overrides w (gets f).
Proof. intros g0 g Q E H0 HQ HE. by apply wp_gets, HQ. Qed.

Lemma keeps_if (c : bool) (m1 m2 : M A) :
  keeps_overrides w m1 -> keeps_overrides w m2 ->
  keeps_overrides w (if c then m1 else m2).
Proof. by destruct c. Qed.
End keeps_rules.

Lemma keeps_modify (w : world) (f : globals -> globals) :
  (forall g, overrides_kept w g (f g)) -> keeps_overrides w (modify f).
Proof.
  intros Hf g0 g Q E H0 HQ HE. apply wp_modify, HQ.
  by eapply overrides_kept_trans.
Qed.

Lemma keeps_warn (w : world) (fmt : string) :
  keeps_overrides w (NCCL_OFI_WARN fmt).
Proof.
  intros g0 g Q E H0 HQ HE. apply wp_emit, HQ. by apply overrides_kept_emit.
Qed.

Lemma keeps_get_platform_type (w : world) :
  keeps_overrides w (get_platform_type w).
Proof.
  intros g0 g Q E H0 HQ HE. apply wp_get_platform_type_caches.
  intros pt g' Hc. apply HQ. eapply overrides_kept_trans; [exact H0 |].
  by apply caches_only_overrides.
Qed.

Lemma keeps_get_platform_data (w : world) :
  keeps_overrides w (get_platform_data w).
Proof.
  intros g0 g Q E H0 HQ HE. apply wp_get_platform_data_caches.
  intros pt g' Hc. apply HQ. eapply overrides_kept_trans; [exact H0 |].
  by apply caches_only_overrides.
Qed.

Lemma keeps_setenv_no_overwrite (w : world) (var value warning : string) :
  keeps_overrides w (setenv_or_exit w var value false warning).
Proof.
  intros g0 g Q E H0 HQ HE. by apply (wp_setenv_or_exit w _ _ _ _ g0).
Qed.

Lemma keeps_set_fork_safe (w : world) : keeps_overrides w (set_fork_safe w).
Proof.
  intros g0 g Q E H0 HQ HE. unfold set_fork_safe. cbv zeta.
  wp_step. wp_step. wp_step.
  - apply bool_decide_eq_true in Heqb.
    by apply (wp_setenv_or_exit w _ _ _ _ g0).
  - wp_step. by apply HQ.
Qed.

Lemma keeps_configure_nvls_option (w : world) :
  keeps_overrides w (configure_nvls_option w).
Proof.
  intros g0 g Q E H0 HQ HE. unfold configure_nvls_option.
  wp_step. wp_step. wp_step.
  - wp_step. by apply HQ.
  - destruct (ncclGetVersion w) as [[nccl_ret version]|].
    + wp_step.
      * wp_step. wp_step. wp_step. apply HQ. by apply overrides_kept_emit.
      * wp_step.
        -- destruct (setenv_overrides_kept w "NCCL_NVLS_ENABLE" "0" true g)
             as (ret & g' & Heq & Hk); [done |].
           assert (overrides_kept w g0 g') by by eapply overrides_kept_trans.
           wp_step. eapply wp_of_eq; [exact Heq |].
           wp_step.
           ++ wp_step. wp_step. wp_step. wp_step. wp_step.
              apply HQ. by apply overrides_kept_emit.
           ++ wp_step. by apply HQ.
        -- wp_step. by apply HQ.
    + wp_step. by apply HQ.
Qed.

Lemma keeps_set_topology (w : world)
  (platform_data : option ec2_platform_data) :
  keeps_overrides w (set_topology w platform_data).
Proof.
  intros g0 g Q E H0 HQ HE. unfold set_topology.
  wp_step. wp_step. wp_step.
  - wp_step. apply (keeps_get_platform_type w g0); [done | | done].
    intros pt g1 H1. wp_step. by apply HQ.
  - destruct platform_data as [[? [topo|] ? ? ? ? ? ?]|];
      [| wp_step; by apply HQ | wp_step; by apply HQ].
    cbv zeta. wp_step.
    + wp_step. wp_step. wp_step. apply HE. by apply overrides_kept_emit.
    + wp_step. apply wp_get_platform_type_caches. intros pt g1 Hc1.
      apply (wp_setenv_or_exit w _ _ _ _ g0); [| | done | done].
      * eapply overrides_kept_trans; [exact H0 |].
        by apply caches_only_overrides.
      * intros _. by destruct Hc1 as (t & i & pt' & j & pd & ->).
Qed.

Lemma keeps_select_provider (w : world) : keeps_overrides w select_provider.
Proof.
  intros g0 g Q E H0 HQ HE. unfold select_provider.
  wp_step. wp_step. wp_step.
  - wp_step. by apply HQ.
  - wp_step. wp_step. wp_step. apply HQ.
    eapply overrides_kept_trans; [exact H0 |]. split; simpl; auto.
    intros [v Hv]. congruence.
Qed.

Lemma keeps_platform_init_body (w : world) :
  keeps_overrides w (platform_init_body w).
Proof.
  unfold platform_init_body, platform_init_cuda, set_chunk_sizes,
    set_nvls_option, set_force_flush.
  repeat first
    [ apply keeps_get_platform_data
    | apply keeps_select_provider
    | apply keeps_set_fork_safe
    | apply keeps_configure_nvls_option
    | apply keeps_setenv_no_overwrite
    | apply keeps_set_topology
    | apply keeps_ret
    | apply keeps_exit
    | apply keeps_gets
    | apply keeps_warn
    | apply keeps_if
    | lazymatch goal with
      | |- keeps_overrides _ (mbind _ _) => apply keeps_bind; [| intros ?]
      end ].
  - (* nic_dup_conns *)
    apply keeps_modify. intros g. unfold set_nic_dup_conns.
    destruct a as [pd|]; [| apply overrides_kept_refl].
    destruct (nic_dup_conns g =? 0) eqn:Hd; [| apply overrides_kept_refl].
    apply Z.eqb_eq in Hd. split; simpl; auto. intros; congruence.
  - (* net_latency *)
    apply keeps_modify. intros g. unfold set_net_latency.
    destruct (ofi_nccl_net_latency w <? 0) eqn:Hl; [| apply overrides_kept_refl].
    apply Z.ltb_lt in Hl. split; simpl; auto. lia.
  - (* nccl_ofi_selected_protocol *)
    apply keeps_modify. intros g. unfold set_selected_protocol.
    destruct (a0 && bool_decide (ofi_nccl_protocol w = None)) eqn:Hp;
      [| apply overrides_kept_refl].
    apply andb_prop in Hp as [_ Hp]. apply bool_decide_eq_true in Hp.
    destruct a as [pd|]; [| apply overrides_kept_refl].
    split; simpl; auto. rewrite Hp. by intros [? ?].
  - (* domain_per_thread *)
    apply keeps_modify. intros g. unfold set_domain_per_thread.
    split; simpl; auto. intros Hne. left. apply Z.eqb_neq in Hne.
    by rewrite Hne.
Qed.

(** C6, as the code has it: [platform_init] leaves every environment
    variable that is set before the call at its value; it leaves the
    provider filter alone when [FI_PROVIDER] is set; it leaves a
    duplicate connection count other than [0], a latency whose override
    [OFI_NCCL_NET_LATENCY] is not negative, and the selected protocol
    when [OFI_NCCL_PROTOCOL] is set; and with a domain-per-thread
    override that is other than [-1] once stored in the [int] variable,
    it assigns nothing but that [int], which is the override itself when
    the override is in the range of [int]. The values [0], negative and
    [-1] as an [int] of the three numeric settings count as unset. *)
Theorem platform_init_keeps_overrides (w : world) (g : globals) :
  let g' := (platform_init w g).2 in
  (forall var value,
     environ g !! var = Some value -> environ g' !! var = Some value)
  /\ (is_Some (environ g !! "FI_PROVIDER") ->
      provider_filter g' = provider_filter g)
  /\ (nic_dup_conns g <> 0 -> nic_dup_conns g' = nic_dup_conns g)
  /\ (0 <= ofi_nccl_net_latency w -> net_latency g' = net_latency g)
  /\ (is_Some (ofi_nccl_protocol w) ->
      nccl_ofi_selected_protocol g' = nccl_ofi_selected_protocol g)
  /\ (to_int (ofi_nccl_domain_per_thread w) <> -1 ->
      global_domain_per_thread g' = to_int (ofi_nccl_domain_per_thread w)
      \/ global_domain_per_thread g' = global_domain_per_thread g)
  /\ (- 2 ^ 31 <= ofi_nccl_domain_per_thread w < 2 ^ 31 ->
      ofi_nccl_domain_per_thread w <> -1 ->
      global_domain_per_thread g' = ofi_nccl_domain_per_thread w
      \/ global_domain_per_thread g' = global_domain_per_thread g).
Proof.
  assert (H : overrides_kept w g (platform_init w g).2).
  { unfold platform_init, returns.
    pose proof (keeps_platform_init_body w g g
      (fun _ g' => overrides_kept w g g')
      (fun r g' => match r with
                   | Some _ => overrides_kept w g g'
                   | None => False
                   end)
      (overrides_kept_refl w g) (fun _ _ H => H) (fun _ _ H => H)) as Hwp.
    unfold wp in Hwp.
    by destruct (platform_init_body w g) as [[ret|ret|] g']. }
  destruct H. repeat split; try done.
  intros Hrange Hne. rewrite <- (to_int_id _ Hrange).
  apply ok_domain_per_thread0. by rewrite (to_int_id _ Hrange).
Qed.

Lemma platform_init_keeps_overrides_witness :
  let w := with_domain_per_thread 1
             (sample_world
                (files_of [(product_name_file, line "p3dn.24xlarge")])) in
  let g := set_environ {[ "NCCL_TOPO_FILE" := "/tmp/topo.xml" ]} 0
             (set_tunables 2 (0 # 1) "SENDRECV" 0 process_start) in
  environ (platform_init w g).2 !! "NCCL_TOPO_FILE" = Some "/tmp/topo.xml"
  /\ nic_dup_conns (platform_init w g).2 = 2
  /\ global_domain_per_thread (platform_init w g).2 = 1.
Proof.
  intros w g.
  destruct (platform_init_keeps_overrides w g)
    as (Henv & _ & Hdup & _ & _ & _ & Hdpt).
  split; [| split].
  - apply Henv. reflexivity.
  - apply Hdup. discriminate.
  - destruct Hdpt as [H | H];
      [by vm_compute | discriminate | exact H | by vm_compute in H].
Defined.

(** C6 as stated fails at the values that the code takes for "unset": a
    duplicate connection count set to [0] becomes the platform's default
    (4 on [p3dn.24xlarge]), and a domain-per-thread override set to [-1]
    gives the platform's default (1 on [trn1.32xlarge]); so does the
    override 4294967295, which is [-1] once stored in the [int]
    variable. *)
Lemma platform_init_changes_unset_values :
  (let w := sample_world
              (files_of [(product_name_file, line "p3dn.24xlarge")]) in
   nic_dup_conns process_start = 0
   /\ (platform_init w process_start).1 = Some 0
   /\ nic_dup_conns (platform_init w process_start).2 = 4)
  /\ (let w := sample_world
                 (files_of [(product_name_file, line "trn1.32xlarge")]) in
      ofi_nccl_domain_per_thread w = -1
      /\ (platform_init w process_start).1 = Some 0
      /\ global_domain_per_thread (platform_init w process_start).2 = 1)
  /\ (let w := with_domain_per_thread 4294967295
                 (sample_world
                    (files_of [(product_name_file, line "trn1.32xlarge")])) in
      ofi_nccl_domain_per_thread w = 4294967295
      /\ (platform_init w process_start).1 = Some 0
      /\ global_domain_per_thread (platform_init w process_start).2 = 1).
Proof. split; [| split]; vm_compute; repeat split. Qed.

(** ** The VF index of a rail *)

Lemma matches_pattern_cons (q c : ascii) (pattern s : string) :
  matches_pattern (String q pattern) (String c s)
  = (if Ascii.eqb q "X" then is_hex_digit c else Ascii.eqb q c)
    && matches_pattern pattern s.
Proof. by destruct q as [[] [] [] [] [] [] [] []]. Qed.

(** A string that matches a pattern has the pattern's literal characters
    where the pattern has them. *)
Lemma matches_pattern_get (pattern s : string) (n : nat) (p : ascii) :
  matches_pattern pattern s = true ->
  String.get n pattern = Some p -> p <> "X"%char ->
  String.get n s = Some p.
Proof.
  revert s n. induction pattern as [|q pattern IH]; intros s n Hm Hg Hp.
  - by destruct n.
  - destruct s as [|c s]; [by destruct q as [[] [] [] [] [] [] [] []] |].
    rewrite matches_pattern_cons in Hm. apply andb_prop in Hm as [Hq Hm].
    destruct n as [|n]; simpl in Hg |- *.
    + injection Hg as ->.
      destruct (Ascii.eqb_spec p "X") as [? | _]; [done |].
      apply Ascii.eqb_eq in Hq. by subst.
    + by apply IH.
Qed.

Lemma digit_val_range (c : ascii) (d : Z) : digit_val c = Some d -> 0 <= d <= 9.
Proof.
  unfold digit_val. destruct (_ && _)%nat eqn:H; [| done].
  intros [= <-]. apply andb_prop in H as [H1 H2].
  apply Nat.leb_le in H1, H2. lia.
Qed.

Lemma digits_bound (s : string) (acc : Z) (count : nat) :
  0 <= acc ->
  0 <= (digits s acc count).1 < (acc + 1) * 10 ^ Z.of_nat (String.length s).
Proof.
  revert acc count. induction s as [|c s IH]; intros acc count Hacc.
  - simpl. lia.
  - cbn [digits String.length].
    assert (Hpow : 0 < 10 ^ Z.of_nat (String.length s))
      by (apply Z.pow_pos_nonneg; lia).
    replace (Z.of_nat (S (String.length s)))
      with (Z.succ (Z.of_nat (String.length s))) by lia.
    rewrite Z.pow_succ_r by lia.
    destruct (digit_val c) as [d|] eqn:Hd.
    + apply digit_val_range in Hd.
      specialize (IH (10 * acc + d) (S count) ltac:(lia)). nia.
    + simpl. nia.
Qed.

Lemma skip_space_length (s : string) :
  (String.length (skip_space s).2 <= String.length s)%nat.
Proof.
  induction s as [|c s IH]; [done |]. cbn [skip_space].
  destruct (isspace c); [| done].
  destruct (skip_space s) as [k r]. simpl in *. lia.
Qed.

(** On two characters at most, [strtol] yields fewer than three digits. *)
Lemma strtol10_short (s : string) :
  (String.length s <= 2)%nat -> -100 < (strtol10 s).1 < 100.
Proof.
  intros Hlen. unfold strtol10.
  pose proof (skip_space_length s) as Hs.
  destruct (skip_space s) as [k s1]. simpl in Hs.
  assert (Hgo : forall (neg : bool) (ksign : nat) s2,
    (String.length s2 <= 2)%nat ->
    -100 < (let '(v, nd) := digits s2 0 0 in
            if (nd =? 0)%nat then (0, O)
            else (Z.max LONG_MIN (Z.min LONG_MAX (if neg then - v else v)),
                  (k + ksign + nd)%nat)).1 < 100).
  { intros neg ksign s2 H2.
    pose proof (digits_bound s2 0 0 ltac:(lia)) as Hb.
    destruct (digits s2 0 0) as [v nd]. simpl in Hb.
    assert (10 ^ Z.of_nat (String.length s2) <= 10 ^ 2)
      by (apply Z.pow_le_mono_r; lia).
    destruct (nd =? 0)%nat; simpl; [lia |].
    unfold LONG_MIN, LONG_MAX. destruct neg; lia. }
  destruct s1 as [|c s1']; [apply (Hgo false O); simpl; lia |].
  destruct (Ascii.eqb_spec c "-"%char) as [-> | Hm].
  { apply (Hgo true 1%nat). simpl in Hs. lia. }
  destruct (Ascii.eqb_spec c "+"%char) as [-> | Hp].
  { apply (Hgo false 1%nat). simpl in Hs. lia. }
  assert (Heq : forall (T : Type) (a b d : T),
    match c with
    | "-"%char => a
    | "+"%char => b
    | _ => d
    end = d).
  { intros T a b d.
    destruct c as [[] [] [] [] [] [] [] []]; try reflexivity; congruence. }
  rewrite Heq. apply (Hgo false O). simpl in *. lia.
Qed.

Lemma string_drop_length (k : nat) (s : string) :
  String.length (string_drop k s) = (String.length s - k)%nat.
Proof.
  revert s. induction k as [|k IH]; intros s; simpl; [lia |].
  destruct s as [|c s]; simpl; [done | apply IH].
Qed.

Lemma to_int_small (x : Z) : -100 < x < 100 -> to_int x = x.
Proof. intros H. unfold to_int. rewrite Z.mod_small; lia. Qed.

(** C2, as the code has it: the identifier read is accepted (the result
    is not negative) only if it has exactly 19 characters with a colon at
    index 14, and the result is then below 256; an identifier of another
    length, or without that colon, gives [-EINVAL]; and on an identifier
    of the documented format whose last two digits are [0] and a decimal
    digit, the result is the value of those two hexadecimal digits. The
    other colons and the other digits are not checked. *)
Theorem get_rail_vf_idx_accepts (files : filesystem) (info : fi_info)
  (guid : string) :
  read_guid files info = Some guid ->
  let r := get_rail_vf_idx files info in
  (String.length guid <> 19%nat \/ String.get 14 guid <> Some ":"%char ->
   r = - EINVAL)
  /\ (0 <= r ->
      String.length guid = 19%nat /\ String.get 14 guid = Some ":"%char
      /\ r < 256)
  /\ (forall d : ascii,
        spec_guid_format guid = true ->
        string_drop 17 guid = String "0" (String d EmptyString) ->
        is_Some (digit_val d) ->
        r = spec_slot guid /\ 0 <= r < 256).
Proof.
  intros Hread r. subst r. unfold get_rail_vf_idx. rewrite Hread.
  unfold vf_idx_of_guid, strlen.
  destruct (Z.eqb_spec (Z.of_nat (String.length guid)) 19) as [Hlen | Hlen];
    cbn [negb].
  2:{ split; [done |]. split; [unfold EINVAL; lia |].
      intros d Hfmt Hdrop _. exfalso.
      pose proof (string_drop_length 17 guid) as Hl. rewrite Hdrop in Hl.
      simpl in Hl. lia. }
  assert (Hlen' : String.length guid = 19%nat) by lia.
  destruct (decide (String.get 14 guid = Some ":"%char)) as [Hcolon | Hcolon].
  2:{ rewrite bool_decide_eq_false_2 by done. cbn [negb].
      split; [done |]. split; [unfold EINVAL; lia |].
      intros d Hfmt Hdrop _. exfalso. apply Hcolon.
      by apply (matches_pattern_get _ _ 14 ":"%char Hfmt). }
  rewrite bool_decide_eq_true_2 by done. cbn [negb].
  pose proof (strtol10_short (string_drop 17 guid)) as Hshort.
  rewrite string_drop_length, Hlen' in Hshort. specialize (Hshort ltac:(lia)).
  split; [intros [? | ?]; done |]. split.
  - destruct (strtol10 (string_drop 17 guid)) as [v endptr]. simpl in Hshort.
    destruct (endptr =? 2)%nat; cbn [negb]; [| unfold EINVAL; lia].
    rewrite to_int_small by done. intros _. repeat split; [done | done | lia].
  - intros d _ Hdrop [dv Hd]. unfold spec_slot. rewrite Hdrop.
    pose proof (digit_val_range _ _ Hd) as Hr.
    assert (Hsp : isspace d = false).
    { unfold digit_val, isspace in *.
      destruct (_ && _)%nat eqn:Hdig in Hd; [| done].
      apply andb_prop in Hdig as [H1 H2]. apply Nat.leb_le in H1, H2.
      apply orb_false_intro.
      - apply Nat.eqb_neq. lia.
      - apply andb_false_intro2. apply Nat.leb_gt. lia. }
    unfold strtol10, hex_val.
    change (skip_space (String "0" (String d "")))
      with (O, String "0"%char (String d "")).
    cbn [digits].
    change (digit_val "0") with (Some 0). cbn iota beta. rewrite Hd.
    cbn [Nat.eqb negb Nat.add].
    rewrite to_int_small; unfold LONG_MIN, LONG_MAX; lia.
Qed.

Lemma get_rail_vf_idx_accepts_witness :
  get_rail_vf_idx (guid_files [("rdmap0", "0000:0000:0000:0001")])
    (rail "rdmap0" None) = 1.
Proof.
  destruct (get_rail_vf_idx_accepts
              (guid_files [("rdmap0", "0000:0000:0000:0001")])
              (rail "rdmap0" None) "0000:0000:0000:0001" eq_refl)
    as (_ & _ & H).
  destruct (H "1"%char eq_refl eq_refl (ex_intro _ 1 eq_refl)) as [Hr _].
  exact Hr.
Defined.

(** C2 as stated fails three ways: the last two digits are read in base
    10, so [10] gives 10 where the two hexadecimal digits are worth 16; a
    well-formed identifier that ends in [ff] is rejected; and a string
    that is not of the format is accepted, since only its length and one
    colon are checked. *)
Lemma get_rail_vf_idx_not_hex :
  let vf_idx guid :=
    get_rail_vf_idx (guid_files [("rdmap0", guid)]) (rail "rdmap0" None) in
  (spec_guid_format "0000:0000:0000:0010" = true
   /\ spec_slot "0000:0000:0000:0010" = 16
   /\ vf_idx "0000:0000:0000:0010" = 10)
  /\ (spec_guid_format "0000:0000:0000:00ff" = true
      /\ spec_slot "0000:0000:0000:00ff" = 255
      /\ vf_idx "0000:0000:0000:00ff" = - EINVAL)
  /\ (spec_guid_format "zzzzzzzzzzzzzz:zz01" = false
      /\ vf_idx "zzzzzzzzzzzzzz:zz01" = 1).
Proof. vm_compute. repeat split. Qed.

(** ** Rail sorting *)

(** C4 as stated fails in its last part: no error reaches the caller. A
    call that fails (the identifier of the third rail gives the index 3)
    and a call that succeeds (indices 0, 0, 1, 1, for which the sorted
    order is the order the list has) hand the caller the same list and
    the same memory, and the function has no other result. *)
Lemma platform_sort_rails_failure_silent :
  let bad := four_guids "0000:0000:0000:0000" "0000:0000:0000:0000"
                        "0000:0000:0000:0203" "0000:0000:0000:0001" in
  let good := four_guids "0000:0000:0000:0000" "0000:0000:0000:0000"
                         "0000:0000:0000:0001" "0000:0000:0000:0001" in
  sort_rails_stage bad (Some 1%positive) 4 four_rails
  = GotoError (InvalidVfIdx 3)
  /\ sort_rails_stage good (Some 1%positive) 4 four_rails
     = Sorted [Some 1; Some 2; Some 3; Some 4]%positive
  /\ platform_sort_rails bad (Some 1%positive) 4 four_rails
     = platform_sort_rails good (Some 1%positive) 4 four_rails.
Proof. vm_compute. repeat split. Qed.

Lemma set_next_id (info : fi_info) : set_next (next info) info = info.
Proof. by destruct info. Qed.

(** Relinking a list in the order it already has changes nothing. *)
Lemma relink_rails_same (h : heap) (l : list ptr) (num_rails i : nat)
  (p : option ptr) (sorted : list (option ptr)) :
  is_list h p l ->
  (i + length l = num_rails)%nat ->
  (forall k q, l !! k = Some q -> sorted !! (i + k)%nat = Some (Some q)) ->
  relink_rails sorted num_rails (length l) i p h = Some h.
Proof.
  revert i p. induction l as [|q l IH]; intros i p Hl Hn Hs; [done |].
  destruct Hl as (-> & info & Hq & Hl). simpl.
  pose proof (Hs O q eq_refl) as H0. rewrite Nat.add_0_r in H0.
  rewrite H0, Hq.
  assert (Hnxt : (if (i =? num_rails - 1)%nat then None
                  else default None (sorted !! S i)) = next info).
  { destruct l as [|q' l].
    - simpl in *. rewrite Hl.
      assert (i = num_rails - 1)%nat as -> by lia. by rewrite Nat.eqb_refl.
    - destruct Hl as (-> & _). simpl in Hn.
      destruct (Nat.eqb_spec i (num_rails - 1)); [lia |].
      pose proof (Hs 1%nat q' eq_refl) as H1.
      replace (i + 1)%nat with (S i) in H1 by lia. by rewrite H1. }
  rewrite Hnxt, set_next_id, insert_id by done.
  apply IH; [done | simpl in Hn; lia |].
  intros k q' Hk. specialize (Hs (S k) q' Hk).
  by replace (S i + k)%nat with (i + S k)%nat by lia.
Qed.

(** C1, as the code has it: with [num_rails = 4] on a list of four rails
    whose VF indices are 0, 0, 1, 1 in discovery order, the two rails of
    index 0 take the positions 0 and 1 and the two rails of index 1 the
    positions 2 and 3, each pair in discovery order; the sorted order is
    the order the list has, and the call leaves the list and its nodes
    as they are. *)
Theorem platform_sort_rails_0011 (files : filesystem) (h : heap)
  (p0 p1 p2 p3 : ptr) (n0 n1 n2 n3 : fi_info) :
  h !! p0 = Some n0 -> next n0 = Some p1 ->
  h !! p1 = Some n1 -> next n1 = Some p2 ->
  h !! p2 = Some n2 -> next n2 = Some p3 ->
  h !! p3 = Some n3 -> next n3 = None ->
  get_rail_vf_idx files n0 = 0 -> get_rail_vf_idx files n1 = 0 ->
  get_rail_vf_idx files n2 = 1 -> get_rail_vf_idx files n3 = 1 ->
  sort_rails_stage files (Some p0) 4 h
  = Sorted [Some p0; Some p1; Some p2; Some p3]
  /\ platform_sort_rails files (Some p0) 4 h = Some (Some p0, h)
  /\ is_list h (Some p0) [p0; p1; p2; p3].
Proof.
  intros H0 N0 H1 N1 H2 N2 H3 N3 V0 V1 V2 V3.
  assert (Hlist : is_list h (Some p0) [p0; p1; p2; p3]).
  { simpl. split; [done |]. exists n0. split; [done |]. rewrite N0.
    split; [done |]. exists n1. split; [done |]. rewrite N1.
    split; [done |]. exists n2. split; [done |]. rewrite N2.
    split; [done |]. exists n3. by split. }
  assert (Hstage : sort_rails_stage files (Some p0) 4 h
                   = Sorted [Some p0; Some p1; Some p2; Some p3]).
  { unfold sort_rails_stage.
    change (Z.to_nat 4) with 4%nat. cbn [assign_rails replicate].
    rewrite H0, V0. cbn. rewrite N0, H1, V1. cbn.
    rewrite N1, H2, V2. cbn. rewrite N2, H3, V3. cbn. done. }
  split; [done |]. split; [| done].
  unfold platform_sort_rails. rewrite Hstage. cbn [Z.leb Z.compare].
  change (Z.to_nat 4) with (length [p0; p1; p2; p3]).
  rewrite (relink_rails_same h [p0; p1; p2; p3] _ 0 (Some p0)); try done.
  intros [|[|[|[|k]]]] q Hk; simpl in *; try congruence.
  by rewrite lookup_nil in Hk.
Qed.

Lemma platform_sort_rails_0011_witness :
  platform_sort_rails
    (four_guids "0000:0000:0000:0000" "0000:0000:0000:0000"
                "0000:0000:0000:0001" "0000:0000:0000:0001")
    (Some 1%positive) 4 four_rails
  = Some (Some 1%positive, four_rails).
Proof.
  refine (proj1 (proj2
    (platform_sort_rails_0011
       (four_guids "0000:0000:0000:0000" "0000:0000:0000:0000"
                   "0000:0000:0000:0001" "0000:0000:0000:0001")
       four_rails 1%positive 2%positive 3%positive 4%positive
       (rail "rdmap0" (Some 2%positive)) (rail "rdmap1" (Some 3%positive))
       (rail "rdmap2" (Some 4%positive)) (rail "rdmap3" None)
       _ _ _ _ _ _ _ _ _ _ _ _))); vm_compute; reflexivity.
Defined.

(** C1 as stated fails: with the VF indices 0, 0, 1, 1 in discovery
    order the rails of index 0 are at the positions 0 and 1 of the
    result, not 0 and 2, and position 2 holds a rail of index 1: the
    rails are grouped by index, not interleaved. *)
Lemma platform_sort_rails_not_interleaved :
  sorted_four (four_guids "0000:0000:0000:0000" "0000:0000:0000:0000"
                          "0000:0000:0000:0001" "0000:0000:0000:0001")
  = Some ([1; 2; 3; 4]%positive, [0; 0; 1; 1])
  /\ sorted_four (four_guids "0000:0000:0000:0000" "0000:0000:0000:0000"
                             "0000:0000:0000:0001" "0000:0000:0000:0001")
     <> Some ([1; 3; 2; 4]%positive, [0; 1; 0; 1]).
Proof. split; [by vm_compute | by vm_compute]. Qed.

(** Whatever the discovery order of two rails of index 0 and two of index
    1, the result has the rails of index 0 first and those of index 1
    after them, each pair in discovery order. *)
Lemma platform_sort_rails_groups :
  let g0 := "0000:0000:0000:0000" in
  let g1 := "0000:0000:0000:0001" in
  sorted_four (four_guids g0 g0 g1 g1) = Some ([1; 2; 3; 4]%positive, [0; 0; 1; 1])
  /\ sorted_four (four_guids g0 g1 g0 g1) = Some ([1; 3; 2; 4]%positive, [0; 0; 1; 1])
  /\ sorted_four (four_guids g0 g1 g1 g0) = Some ([1; 4; 2; 3]%positive, [0; 0; 1; 1])
  /\ sorted_four (four_guids g1 g0 g0 g1) = Some ([2; 3; 1; 4]%positive, [0; 0; 1; 1])
  /\ sorted_four (four_guids g1 g0 g1 g0) = Some ([2; 4; 1; 3]%positive, [0; 0; 1; 1])
  /\ sorted_four (four_guids g1 g1 g0 g0) = Some ([3; 4; 1; 2]%positive, [0; 0; 1; 1]).
Proof. vm_compute. repeat split. Qed.

(** Beyond C4: three rails of index 1 among four make the first
    loop read [sorted_info_array[4]], past the end of the array. *)
Lemma platform_sort_rails_past_the_end :
  let g0 := "0000:0000:0000:0000" in
  let g1 := "0000:0000:0000:0001" in
  sort_rails_stage (four_guids g1 g1 g1 g0) (Some 1%positive) 4 four_rails
  = SortFault.
Proof. by vm_compute. Qed.

(** * Further properties of the code *)

(** ** The platform type *)

Lemma read_first_line_exhausted (data : string) :
  (read_first_line data).2 = negb (has_char newline data).
Proof.
  induction data as [|c data IH]; cbn [has_char read_first_line]; [done |].
  destruct (Ascii.eqb c newline); [done |].
  destruct (read_first_line data) as [buf eof]. simpl in *. by rewrite IH.
Qed.

(** The loop with its buffer stores what the loop stores, unless a
    [realloc] fails on the way. *)
Lemma read_first_line_alloc_eq (a : allocator) (data : string) (len : nat) :
  read_first_line_alloc a len data
  = if forallb (grow_buffer a) (seq (S len) (stored_chars data))
    then Some (read_first_line data) else None.
Proof.
  revert len. unfold stored_chars.
  induction data as [|ch rest IH]; intros len;
    cbn [read_first_line_alloc read_first_line].
  - cbn [fst String.length seq forallb]. by rewrite andb_true_r.
  - destruct (Ascii.eqb ch newline); [done |].
    rewrite IH. destruct (read_first_line rest) as [buf eof].
    cbn [fst String.length seq forallb].
    destruct (grow_buffer a (S len)); [| done].
    by destruct (forallb _ _).
Qed.

Lemma forallb_false {A} (f : A -> bool) (l : list A) :
  forallb f l = false <-> exists x, In x l /\ f x = false.
Proof.
  induction l as [|y l IH]; cbn [forallb In].
  - split; [done | by intros (x & [] & _)].
  - destruct (f y) eqn:Hy; cbn [andb].
    + rewrite IH. split; intros (x & Hx & Hf); exists x.
      * split; [by right | done].
      * destruct Hx as [-> | Hx]; [congruence | done].
    + split; [intros _; exists y; split; [by left | done] | done].
Qed.

(** The loop runs into a null buffer exactly when a [realloc] fails. *)
Lemma read_first_line_alloc_cases (a : allocator) (data : string) :
  (realloc_failure a data /\ read_first_line_alloc a 0 data = None)
  \/ (~ realloc_failure a data
      /\ read_first_line_alloc a 0 data = Some (read_first_line data)).
Proof.
  rewrite read_first_line_alloc_eq.
  destruct (forallb (grow_buffer a) (seq 1 (stored_chars data))) eqn:Hall.
  - right. split; [| done]. intros (len & Hlen & Hfail).
    rewrite forallb_forall in Hall.
    specialize (Hall len). unfold grow_buffer in Hall.
    destruct (Nat.leb_spec platform_type_len len) as [_ | ?]; [| lia].
    rewrite Hfail in Hall. enough (false = true) by done.
    apply Hall, in_seq. unfold platform_type_len in Hlen. lia.
  - left. split; [| done]. apply forallb_false in Hall as (len & Hin & Hg).
    apply in_seq in Hin. unfold grow_buffer in Hg.
    destruct (Nat.leb_spec platform_type_len len) as [Hge | ?]; [| done].
    exists len. split; [lia | done].
Qed.

(** Once [init] is set, a call answers from the cache, whatever the
    allocator and the file system. *)
Lemma get_platform_type_alloc_cached (a : allocator) (w : world)
  (g : globals) :
  gpt_init g = true ->
  get_platform_type_alloc a w g = (Next (gpt_platform_type g), g).
Proof. intros H. unfold get_platform_type_alloc. munfold. by rewrite H. Qed.

(** X1: [get_platform_type] reads the product name file at most once in
    the life of the process. A first call has no defined behaviour
    exactly when the file opens, [malloc] returns a buffer and one of the
    calls of [realloc] in the loop returns NULL: the result of [realloc]
    is not tested. In every other case the first call returns, has
    opened the file once, and caches its result, a failure like a
    success. A later call, whatever the allocator and the file system are
    by then, returns the cached result and leaves the whole state, the
    record of files opened included, as it is. *)
Theorem get_platform_type_memoised (a : allocator) (w : world)
  (g : globals) :
  (gpt_init g = true ->
   get_platform_type_alloc a w g = (Next (gpt_platform_type g), g))
  /\ (gpt_init g = false ->
      ((get_platform_type_alloc a w g).1 = Fault <-> null_buffer a w)
      /\ (~ null_buffer a w ->
          exists pt warnings g1,
            get_platform_type_alloc a w g = (Next pt, g1)
            /\ g1 = set_trace
                      (trace g ++ EvFopen product_name_file :: warnings)
                      (set_gpt true pt g)
            /\ Forall (fun e => exists fmt, e = EvWarn fmt) warnings
            /\ forall a' w', get_platform_type_alloc a' w' g1 = (Next pt, g1))).
Proof.
  split; [apply get_platform_type_alloc_cached |].
  intros Hi. unfold null_buffer, get_platform_type_alloc. munfold.
  rewrite Hi. cbn beta iota.
  assert (Hlater : forall pt warnings,
    Forall (fun e => exists fmt, e = EvWarn fmt) warnings ->
    exists pt' warnings' g1,
      (Next pt,
       set_trace (trace g ++ EvFopen product_name_file :: warnings)
         (set_gpt true pt g))
      = (Next pt', g1)
      /\ g1 = set_trace
                (trace g ++ EvFopen product_name_file :: warnings')
                (set_gpt true pt' g)
      /\ Forall (fun e => exists fmt, e = EvWarn fmt) warnings'
      /\ forall a' w', get_platform_type_alloc a' w' g1 = (Next pt', g1)).
  { intros pt warnings Hw. eexists pt, warnings, _.
    split; [done |]. split; [done |]. split; [done |].
    intros a' w'. by rewrite get_platform_type_alloc_cached. }
  destruct (fs w product_name_file) as [fd|].
  2:{ split; [done |]. intros _. gsimpl. rewrite <- app_assoc.
      apply (Hlater None [EvWarn "Error opening file: %s"]).
      repeat constructor. by eexists. }
  destruct (malloc a platform_type_len); cbn [negb].
  2:{ split; [split; [done | by intros [? _]] |]. intros _.
      gsimpl. rewrite <- app_assoc.
      apply (Hlater None [EvWarn "Unable to allocate platform type"]).
      repeat constructor. by eexists. }
  destruct (read_first_line_alloc_cases a (f_data fd)) as [[Hf ->] | [Hf ->]].
  - split; [by split | intros []; by split].
  - destruct (read_first_line (f_data fd)) as [buf exhausted].
    destruct (exhausted && f_error fd).
    + split; [split; [done | by intros [_ ?]] |]. intros _.
      gsimpl. rewrite <- app_assoc.
      apply (Hlater None [EvWarn "Error reading file: %s"]).
      repeat constructor. by eexists.
    + split; [split; [done | by intros [_ ?]] |]. intros _.
      apply (Hlater (Some (cstr buf)) []). constructor.
Qed.

(** X2: on a product name file whose first line ends in a newline, when
    [malloc] returns a buffer and so does every [realloc] that the line
    needs (none for a line of fewer than 64 characters), the first call
    returns that line without the newline (as a C string: up to its first
    NUL), caches it, and warns of nothing; what follows the first
    newline, and a read error after it, do not matter. *)
Theorem get_platform_type_first_line (a : allocator) (w : world)
  (g : globals) (fd : file) (l rest : string) :
  gpt_init g = false ->
  fs w product_name_file = Some fd ->
  f_data fd = l +:+ String newline rest ->
  has_char newline l = false ->
  malloc a platform_type_len = true ->
  (forall len, (platform_type_len <= len <= String.length l)%nat ->
     realloc a (len + platform_type_len) = true) ->
  get_platform_type_alloc a w g
  = (Next (Some (cstr l)),
     set_trace (trace g ++ [EvFopen product_name_file])
       (set_gpt true (Some (cstr l)) g)).
Proof.
  intros Hi Hf Hd Hn Hm Hr. unfold get_platform_type_alloc. munfold.
  rewrite Hi, Hf, Hm, Hd. cbn [negb].
  destruct (read_first_line_alloc_cases a (l +:+ String newline rest))
    as [[(len & Hlen & Hfail) _] | [_ ->]].
  - unfold stored_chars in Hlen.
    rewrite (read_first_line_terminated _ _ Hn) in Hlen. simpl in Hlen.
    rewrite Hr in Hfail; done.
  - by rewrite (read_first_line_terminated _ _ Hn).
Qed.

Lemma get_platform_type_first_line_witness :
  get_platform_type_alloc
    {| malloc := fun _ => true; realloc := fun _ => false |}
    (sample_world
       (files_of [(product_name_file,
                   "g5.48xlarge" +:+ String newline "second line")]))
    process_start
  = (Next (Some "g5.48xlarge"),
     set_trace [EvFopen product_name_file]
       (set_gpt true (Some "g5.48xlarge") process_start)).
Proof.
  apply (get_platform_type_first_line
           {| malloc := fun _ => true; realloc := fun _ => false |}
           (sample_world
              (files_of [(product_name_file,
                          "g5.48xlarge" +:+ String newline "second line")]))
           process_start
           {| f_data := "g5.48xlarge" +:+ String newline "second line";
              f_error := false |}
           "g5.48xlarge" "second line"); try reflexivity.
  intros len Hlen. vm_compute in Hlen. lia.
Defined.

(** X3: the first call returns NULL exactly when the product name file
    does not open, or [malloc] returns NULL, or the read fails before a
    newline is met (and no [realloc] has returned NULL). In every other
    case it returns a string, or has no defined behaviour. *)
Theorem get_platform_type_null (a : allocator) (w : world) (g : globals) :
  gpt_init g = false ->
  (get_platform_type_alloc a w g).1 = Next None
  <-> platform_type_unavailable a w.
Proof.
  intros Hi. unfold platform_type_unavailable, get_platform_type_alloc.
  munfold. rewrite Hi. cbn beta iota.
  destruct (fs w product_name_file) as [fd|]; [| done].
  destruct (malloc a platform_type_len); cbn [negb];
    [| split; [by left | done]].
  destruct (read_first_line_alloc_cases a (f_data fd)) as [[Hf ->] | [Hf ->]].
  { split; [done |]. intros [? | (_ & Hnot & _)]; done. }
  pose proof (read_first_line_exhausted (f_data fd)) as Hx.
  destruct (read_first_line (f_data fd)) as [buf exhausted]. simpl in Hx.
  subst exhausted.
  destruct (has_char newline (f_data fd)), (f_error fd); simpl;
    split; try done; intros H; try discriminate.
  - by destruct H as [? | (_ & _ & ? & _)].
  - by destruct H as [? | (_ & _ & ? & _)].
  - by right.
  - by destruct H as [? | (_ & _ & _ & ?)].
Qed.

Lemma get_platform_type_null_witness :
  (get_platform_type_alloc
     {| malloc := fun _ => false; realloc := fun _ => true |}
     p4d_world process_start).1
  = Next None.
Proof.
  apply (get_platform_type_null
           {| malloc := fun _ => false; realloc := fun _ => true |}
           p4d_world process_start eq_refl).
  by left.
Defined.

(** ** The platform table *)

(** A first call of [get_platform_data]: the scan of the table for the
    platform type. *)
Lemma get_platform_data_first (w : world) (g : globals) :
  gpd_init g = false ->
  (get_platform_data w g).1
  = Next match identity_of w g with
         | Some pt =>
             scan_platform_data pt platform_data_map (gpd_platform_data g)
         | None => None
         end.
Proof.
  intros Hi. unfold get_platform_data, get_platform_data_in. munfold.
  rewrite Hi. simpl. rewrite get_platform_type_set_gpd. unfold identity_of.
  destruct (get_platform_type_spec w g) as (pt & evs & -> & _ & _). simpl.
  by destruct pt.
Qed.

(** X4: no two entries of [platform_data_map] have the same name, so
    the scan that keeps the last match finds the one entry of a name: on
    a platform type that names an entry, the first call of
    [get_platform_data] returns that entry; on any other platform type it
    returns NULL. *)
Theorem get_platform_data_by_name (w : world) (g : globals) (pt : string) :
  gpd_init g = false -> gpd_platform_data g = None ->
  identity_of w g = Some pt ->
  (forall e, e ∈ platform_data_map -> name e = pt ->
     (get_platform_data w g).1 = Next (Some e))
  /\ (pt ∉ name <$> platform_data_map ->
      (get_platform_data w g).1 = Next None).
Proof.
  intros Hi Hd Hpt. rewrite (get_platform_data_first w g Hi), Hpt, Hd.
  split.
  - intros e He <-. f_equal.
    unfold platform_data_map in He.
    repeat (apply elem_of_cons in He as [-> | He]; [reflexivity |]).
    by apply elem_of_nil in He.
  - intros Hnot. f_equal. rewrite scan_platform_data_last.
    destruct (last _) as [e|] eqn:Hl; [| done].
    exfalso. apply Hnot. apply last_Some in Hl as [l' Hl'].
    assert (e ∈ filter (fun e => name e = pt) platform_data_map) as Hin
      by (rewrite Hl'; set_solver).
    apply list_elem_of_filter in Hin as [<- Hin].
    by apply list_elem_of_fmap_2.
Qed.

Lemma get_platform_data_by_name_witness :
  exists e,
    platform_data_map !! 5%nat = Some e
    /\ (get_platform_data
          (sample_world (files_of [(product_name_file, line "trn1.32xlarge")]))
          process_start).1
       = Next (Some e).
Proof.
  eexists. split; [reflexivity |].
  apply (proj1 (get_platform_data_by_name
           (sample_world (files_of [(product_name_file, line "trn1.32xlarge")]))
           process_start "trn1.32xlarge" eq_refl eq_refl eq_refl)).
  - by apply list_elem_of_lookup_2 with 5%nat.
  - reflexivity.
Defined.

(** ** Rules for frames *)

Lemma wp_conj {A} (m : M A) (Q1 Q2 : A -> globals -> Prop)
  (E1 E2 : option Z -> globals -> Prop) (g : globals) :
  wp m Q1 E1 g -> wp m Q2 E2 g ->
  wp m (fun a g' => Q1 a g' /\ Q2 a g') (fun r g' => E1 r g' /\ E2 r g') g.
Proof. unfold wp. by destruct (m g) as [[a| |] g']. Qed.

Lemma wp_any {A} (m : M A) (Q : A -> globals -> Prop)
  (E : option Z -> globals -> Prop) (g : globals) :
  (forall a g', Q a g') -> (forall r g', E r g') -> wp m Q E g.
Proof. intros HQ HE. unfold wp. by destruct (m g) as [[a| |] g']. Qed.

Lemma extends_by_refl ok g : extends_by ok g g.
Proof. exists []. by rewrite app_nil_r. Qed.

Lemma extends_by_trans ok g1 g2 g3 :
  extends_by ok g1 g2 -> extends_by ok g2 g3 -> extends_by ok g1 g3.
Proof.
  intros (e1 & H1 & F1) (e2 & H2 & F2). exists (e1 ++ e2). split.
  - by rewrite H2, H1, app_assoc.
  - by apply Forall_app.
Qed.

Lemma extends_by_emit ok g g' e :
  extends_by ok g g' -> ok e = true ->
  extends_by ok g (set_trace (trace g' ++ [e]) g').
Proof.
  intros (evs & H & F) He. exists (evs ++ [e]). split.
  - simpl. by rewrite H, app_assoc.
  - apply Forall_app. split; [done |]. by repeat constructor.
Qed.

Lemma extends_by_weaken (ok ok' : event -> bool) g g' :
  (forall e, ok e = true -> ok' e = true) ->
  extends_by ok g g' -> extends_by ok' g g'.
Proof.
  intros Hw (evs & H & F). exists evs. split; [done |].
  eapply Forall_impl; [exact F |]. done.
Qed.

Section frames_rules.
Context {A B : Type} (R : globals -> globals -> Prop).

Lemma frames_bind (m : M A) (f : A -> M B) :
  frames R m -> (forall a, frames R (f a)) -> frames R (m ≫= f).
Proof.
  intros Hm Hf g0 g Q E H0 HQ HE. apply wp_bind.
  apply (Hm g0); [done | | done]. intros a g' H'. by apply (Hf a g0).
Qed.

Lemma frames_ret (a : A) : frames R (mret a).
Proof. intros g0 g Q E H0 HQ HE. by apply wp_ret, HQ. Qed.

Lemma frames_exit (ret : Z) : frames R (goto_exit (A := A) ret).
Proof. intros g0 g Q E H0 HQ HE. by apply wp_exit, HE. Qed.

Lemma frames_fault : frames R (fault (A := A)).
Proof. intros g0 g Q E H0 HQ HE. by apply wp_fault, HE. Qed.

Lemma frames_gets (f : globals -> A) : frames R (gets f).
Proof. intros g0 g Q E H0 HQ HE. by apply wp_gets, HQ. Qed.

(** A step that always goes on, and whose effect is in [R]. *)
Lemma frames_step (m : M A) :
  (forall g1 g2 g3, R g1 g2 -> R g2 g3 -> R g1 g3) ->
  (forall g, exists a g', m g = (Next a, g') /\ R g g') ->
  frames R m.
Proof.
  intros Htrans Hm g0 g Q E H0 HQ HE.
  destruct (Hm g) as (a & g' & Heq & HR).
  eapply wp_of_eq; [exact Heq |]. apply HQ. by eapply Htrans.
Qed.
End frames_rules.

Lemma frames_modify (R : globals -> globals -> Prop)
  (f : globals -> globals) :
  (forall g0 g, R g0 g -> R g0 (f g)) -> frames R (modify f).
Proof. intros Hf g0 g Q E H0 HQ HE. by apply wp_modify, HQ, Hf. Qed.

(** The result of a function with the frame [R]. *)
Lemma frames_returns (R : globals -> globals -> Prop) (m : M Z)
  (g : globals) :
  R g g -> frames R m -> R g (returns m g).2.
Proof.
  intros Hrefl Hm.
  apply (wp_returns m (fun _ g' => R g g')).
  by apply (Hm g).
Qed.

(** One step through the structure of a computation. *)
Ltac frames_go :=
  lazymatch goal with
  | |- frames _ (mbind _ _) => apply frames_bind; [| intros ?]
  | |- frames _ (mret _) => apply frames_ret
  | |- frames _ (gets _) => apply frames_gets
  | |- frames _ (getenv _) => apply frames_gets
  | |- frames _ (goto_exit _) => apply frames_exit
  | |- frames _ fault => apply frames_fault
  | |- frames _ (if ?c then _ else _) => destruct c
  | |- frames _ (match ?x with _ => _ end) => destruct x
  end.

(** ** The frame of the endpoint configuration *)

Lemma endpoint_frame_refl g : endpoint_frame g g.
Proof. split; auto. apply extends_by_refl. Qed.

Lemma endpoint_frame_trans g1 g2 g3 :
  endpoint_frame g1 g2 -> endpoint_frame g2 g3 -> endpoint_frame g1 g3.
Proof.
  intros [] []. split; try congruence.
  - intros var Hv. rewrite ef_environ1 by done. by apply ef_environ0.
  - destruct ef_nccl_proto0 as [H1 | [H1 H1']],
      ef_nccl_proto1 as [H2 | [H2 H2']].
    + left. congruence.
    + right. split; congruence.
    + right. split; congruence.
    + congruence.
  - intros Hi. destruct (ef_platform_type0 Hi) as [Hi' Hp].
    destruct (ef_platform_type1 Hi') as [Hi'' Hp']. split; congruence.
  - intros Hi. destruct (ef_platform_data0 Hi) as [Hi' Hp].
    destruct (ef_platform_data1 Hi') as [Hi'' Hp']. split; congruence.
  - by eapply extends_by_trans.
Qed.

Lemma endpoint_frame_emit g0 g e :
  opens_product_name_only e = true ->
  endpoint_frame g0 g -> endpoint_frame g0 (set_trace (trace g ++ [e]) g).
Proof. intros He []. split; try done. by apply extends_by_emit. Qed.

Lemma endpoint_frame_set_negotiation g0 g c n :
  endpoint_frame g0 g -> endpoint_frame g0 (set_negotiation c n g).
Proof. intros []. by split. Qed.

Lemma frames_endpoint_emit (e : event) :
  opens_product_name_only e = true -> frames endpoint_frame (emit e).
Proof.
  intros He. apply frames_modify. intros g0 g H.
  by apply endpoint_frame_emit.
Qed.

Lemma get_platform_type_endpoint_frame (w : world) (g : globals) :
  exists pt g', get_platform_type w g = (Next pt, g') /\ endpoint_frame g g'.
Proof.
  destruct (gpt_init g) eqn:Hi.
  - eexists _, g. split; [by apply get_platform_type_cached |].
    apply endpoint_frame_refl.
  - destruct (get_platform_type_first w g Hi) as (pt & evs & Heq & Hevs).
    eexists _, _. split; [exact Heq |].
    split; try done; simpl; try (by left); try congruence.
    eexists. split; [done |]. constructor; [done |].
    eapply Forall_impl; [exact Hevs |]. by intros e [fmt ->].
Qed.

Lemma frames_endpoint_get_platform_type (w : world) :
  frames endpoint_frame (get_platform_type w).
Proof.
  apply frames_step; [apply endpoint_frame_trans |].
  apply get_platform_type_endpoint_frame.
Qed.

Lemma frames_endpoint_get_platform_data (w : world) :
  frames endpoint_frame (get_platform_data w).
Proof.
  apply frames_step; [apply endpoint_frame_trans |]. intros g.
  unfold get_platform_data, get_platform_data_in. munfold.
  destruct (gpd_init g) eqn:Hi.
  - eexists _, g. split; [done |]. apply endpoint_frame_refl.
  - simpl. rewrite get_platform_type_set_gpd.
    destruct (get_platform_type_endpoint_frame w g) as (pt & g' & -> & []).
    simpl.
    destruct pt as [pt|]; eexists _, _; (split; [done |]);
      split; try done; simpl; congruence.
Qed.

Lemma frames_endpoint_validate_rdma_write (w : world) (ep : fid_ep) :
  frames endpoint_frame (validate_rdma_write w ep).
Proof.
  unfold validate_rdma_write, NCCL_OFI_WARN.
  destruct (ep_getopt_emulated_write ep) as [[ret optlen] optval].
  repeat first [ by apply frames_endpoint_emit | frames_go ].
Qed.

Lemma frames_endpoint_checks (w : world) (info : fi_info) (ep : fid_ep) :
  frames endpoint_frame (config_endpoint_checks w info ep).
Proof.
  unfold config_endpoint_checks, NCCL_OFI_WARN.
  repeat first
    [ by apply frames_endpoint_emit
    | apply frames_endpoint_get_platform_data
    | apply frames_endpoint_validate_rdma_write
    | frames_go ].
Qed.

Lemma extends_by_same_trace ok g g' : trace g' = trace g -> extends_by ok g g'.
Proof. intros H. exists []. by rewrite app_nil_r. Qed.

Lemma setenv_nccl_proto_endpoint_frame (w : world) (g : globals) :
  exists ret g',
    setenv w "NCCL_PROTO" "simple" false g = (Next ret, g')
    /\ endpoint_frame g g'.
Proof.
  unfold setenv. destruct (setenv_errno w "NCCL_PROTO") as [e|].
  - eexists _, _. split; [done |]. split; try done; try (by left).
    by apply extends_by_same_trace.
  - destruct (environ g !! "NCCL_PROTO") as [u|] eqn:Hu.
    + eexists _, _. split; [done |]. apply endpoint_frame_refl.
    + eexists _, _. split; [done |]. split; try done; simpl.
      * intros var Hv. by rewrite lookup_insert_ne.
      * right. by rewrite lookup_insert.
      * by apply extends_by_same_trace.
Qed.

Lemma frames_endpoint_configure_nccl_proto (w : world) :
  frames endpoint_frame (configure_nccl_proto w).
Proof.
  unfold configure_nccl_proto, NCCL_OFI_WARN.
  repeat first
    [ by apply frames_endpoint_emit
    | apply frames_step;
      [apply endpoint_frame_trans | apply setenv_nccl_proto_endpoint_frame]
    | frames_go ].
Qed.

Lemma frames_endpoint_configure_ep_inorder (w : world) (ep : fid_ep)
  (o : fi_opt) :
  frames endpoint_frame (configure_ep_inorder w ep o).
Proof.
  unfold configure_ep_inorder, NCCL_OFI_WARN. cbv zeta.
  repeat first [ by apply frames_endpoint_emit | frames_go ].
Qed.

Lemma frames_endpoint_configure_ep_max_msg_size (w : world) (ep : fid_ep) :
  frames endpoint_frame (configure_ep_max_msg_size w ep).
Proof.
  unfold configure_ep_max_msg_size, NCCL_OFI_WARN. cbv zeta.
  repeat first [ by apply frames_endpoint_emit | frames_go ].
Qed.

Lemma frames_endpoint_cuda (w : world) (ep : fid_ep) :
  frames endpoint_frame (config_endpoint_cuda w ep).
Proof.
  unfold config_endpoint_cuda, select_inorder_optname, p5_rdma_exception,
    negotiate_ordering, set_max_msg_size, NCCL_OFI_WARN.
  repeat first
    [ by apply frames_endpoint_emit
    | apply frames_endpoint_get_platform_type
    | apply frames_endpoint_configure_ep_inorder
    | apply frames_endpoint_configure_nccl_proto
    | apply frames_endpoint_configure_ep_max_msg_size
    | apply frames_modify; intros ? ?; apply endpoint_frame_set_negotiation
    | frames_go ].
Qed.

Lemma frames_endpoint_body (w : world) (info : fi_info)
  (endpoint : option fid_ep) :
  frames endpoint_frame (platform_config_endpoint_body w info endpoint).
Proof.
  unfold platform_config_endpoint_body, NCCL_OFI_WARN.
  repeat first
    [ by apply frames_endpoint_emit
    | apply frames_endpoint_checks
    | apply frames_endpoint_cuda
    | frames_go ].
Qed.

(** X5: whatever its arguments and however it ends, a call of
    [platform_config_endpoint] leaves alone the plugin's tunables (the
    duplicate connection count, the latency, the selected protocol, the
    domain-per-thread setting), the GDR support level and the provider
    filter; it leaves every environment variable but [NCCL_PROTO] as it
    is, and [NCCL_PROTO] too when it is set; when [NCCL_PROTO] is unset
    it stays unset or becomes [simple]; a platform lookup that is cached
    stays cached with its value; and the call opens no file but the
    product name file. *)
Theorem platform_config_endpoint_frame (w : world) (info : fi_info)
  (endpoint : option fid_ep) (g : globals) :
  endpoint_frame g (platform_config_endpoint w info endpoint g).2.
Proof.
  apply (frames_returns endpoint_frame
           (platform_config_endpoint_body w info endpoint) g).
  - apply endpoint_frame_refl.
  - apply frames_endpoint_body.
Qed.

(** ** The checks before the negotiation *)

Lemma get_platform_type_untouched (w : world) (g : globals) :
  exists pt g',
    get_platform_type w g = (Next pt, g')
    /\ extends_by (fun e => negb (touches_endpoint e)) g g'.
Proof.
  destruct (gpt_init g) eqn:Hi.
  - eexists _, g. split; [by apply get_platform_type_cached |].
    apply extends_by_refl.
  - destruct (get_platform_type_first w g Hi) as (pt & evs & Heq & Hevs).
    eexists _, _. split; [exact Heq |].
    eexists. split; [done |]. constructor; [done |].
    eapply Forall_impl; [exact Hevs |]. by intros e [fmt ->].
Qed.

Lemma get_platform_data_untouched (w : world) (g : globals) :
  exists pd g',
    get_platform_data w g = (Next pd, g')
    /\ extends_by (fun e => negb (touches_endpoint e)) g g'.
Proof.
  unfold get_platform_data, get_platform_data_in. munfold.
  destruct (gpd_init g) eqn:Hi.
  - eexists _, g. split; [done |]. apply extends_by_refl.
  - simpl. rewrite get_platform_type_set_gpd.
    destruct (get_platform_type_untouched w g) as (pt & g' & -> & Hx).
    simpl. destruct pt as [pt|]; eexists _, _; (split; [done |]); exact Hx.
Qed.

Lemma get_platform_data_next (w : world) (g : globals) :
  exists g',
    get_platform_data w g = (Next (platform_of w g), g')
    /\ kept w g g' /\ caches_only g g'
    /\ extends_by (fun e => negb (touches_endpoint e)) g g'.
Proof.
  pose proof (wp_conj (get_platform_data w) _ _ _ _ g
    (wp_get_platform_data w g (fun _ g' => kept w g g') (fun _ _ => False)
       (fun _ _ H => H))
    (wp_get_platform_data_caches w g (fun _ g' => caches_only g g')
       (fun _ _ => False) (fun _ _ H => H))) as H.
  destruct (get_platform_data_untouched w g) as (pd & g' & Heq & Hx).
  unfold wp, platform_of in *. rewrite Heq in *. simpl.
  exists g'. by destruct H.
Qed.

Lemma caches_only_fields g g' :
  caches_only g g' ->
  support_gdr g' = support_gdr g
  /\ nccl_proto_configured g' = nccl_proto_configured g
  /\ need_ordering g' = need_ordering g
  /\ environ g' = environ g
  /\ nccl_ofi_selected_protocol g' = nccl_ofi_selected_protocol g.
Proof. by intros (t & i & pt & j & pd & ->). Qed.

(** What [validate_rdma_write] returns: [0] exactly when the build
    declares the option and the endpoint answers, with a value of the
    expected size, that writes are not emulated. It asks the endpoint at
    most once and changes nothing else. *)
Lemma validate_rdma_write_spec (w : world) (ep : fid_ep) (g : globals) :
  exists ret g',
    validate_rdma_write w ep g = (Next ret, g')
    /\ kept w g g'
    /\ (ret = 0 <-> native_rdma_write w ep).
Proof.
  unfold validate_rdma_write, native_rdma_write. munfold.
  destruct (HAVE_DECL_FI_OPT_EFA_EMULATED_WRITE w).
  - simpl. destruct (ep_getopt_emulated_write ep) as [[ret optlen] optval].
    destruct (Z.eqb_spec ret 0) as [-> | Hret]; simpl.
    + destruct (Z.eqb_spec optlen 1) as [-> | Hlen]; simpl.
      * destruct optval; simpl.
        -- eexists _, _. split; [done |]. split; [kept_tac |].
           split; [done |]. intros [_ H]. congruence.
        -- eexists _, _. split; [done |]. split; [kept_tac |]. done.
      * eexists _, _. split; [done |]. split; [kept_tac |].
        split; [done |]. intros [_ H]. congruence.
    + eexists _, _. split; [done |]. split; [kept_tac |].
      split; [done |]. intros [_ H]. congruence.
  - eexists _, _. split; [done |]. split; [kept_tac |].
    split; [done |]. intros [H _]. congruence.
Qed.

(** The ways through the checks of [platform_config_endpoint]: the
    short circuit for another provider, the refusal of a GDR-required
    platform without GDR, the refusal of an endpoint without native RDMA
    writes, and the way on to the negotiation. *)
Lemma wp_config_endpoint_checks_cases (w : world) (info : fi_info)
  (ep : fid_ep) (g : globals) (Q : unit -> globals -> Prop)
  (E : option Z -> globals -> Prop) :
  (prov_name info <> "efa" -> E (Some 0) g) ->
  (forall pd g',
     prov_name info = "efa" ->
     ofi_nccl_disable_gdr_required_check w = 0 ->
     platform_of w g = Some pd -> gdr_required pd = true ->
     support_gdr g <> GDR_SUPPORTED ->
     kept w g g' -> extends_by (fun e => negb (touches_endpoint e)) g g' ->
     E (Some (- EINVAL)) g') ->
  (forall ret g',
     prov_name info = "efa" -> gdr_check_passes w g ->
     strcasecmp_eq "RDMA" (nccl_ofi_selected_protocol g) = true ->
     ofi_nccl_disable_native_rdma_check w = 0 ->
     ~ native_rdma_write w ep -> ret <> 0 ->
     kept w g g' -> E (Some ret) g') ->
  (forall g',
     prov_name info = "efa" -> gdr_check_passes w g ->
     (strcasecmp_eq "RDMA" (nccl_ofi_selected_protocol g) = true ->
      ofi_nccl_disable_native_rdma_check w = 0 -> native_rdma_write w ep) ->
     (strcasecmp_eq "RDMA" (nccl_ofi_selected_protocol g) = false ->
      extends_by (fun e => negb (touches_endpoint e)) g g') ->
     kept w g g' -> Q tt g') ->
  wp (config_endpoint_checks w info ep) Q E g.
Proof.
  intros Hother Hgdr Hrdma Hpass. unfold config_endpoint_checks.
  wp_step. unfold strcmp_eq.
  destruct (String.eqb_spec (prov_name info) "efa") as [Hefa | Hne]; simpl.
  2: { wp_step. by apply Hother. }
  wp_step. wp_step.
  assert (Hgo : forall g1, kept w g g1 ->
    extends_by (fun e => negb (touches_endpoint e)) g g1 ->
    gdr_check_passes w g ->
    wp (proto ← gets nccl_ofi_selected_protocol;
        if strcasecmp_eq "RDMA" proto
           && (ofi_nccl_disable_native_rdma_check w =? 0)
        then ret ← validate_rdma_write w ep;
             if negb (ret =? 0) then goto_exit ret else mret tt
        else mret tt) Q E g1).
  { intros g1 Hk Hx Hpassed. wp_step. wp_step.
    rewrite (kept_protocol _ _ _ Hk).
    destruct (strcasecmp_eq "RDMA" (nccl_ofi_selected_protocol g)) eqn:Hp;
      simpl.
    - destruct (Z.eqb_spec (ofi_nccl_disable_native_rdma_check w) 0)
        as [Hc | Hc].
      + wp_step.
        destruct (validate_rdma_write_spec w ep g1)
          as (ret & g2 & Heq & Hk2 & Hret).
        eapply wp_of_eq; [exact Heq |].
        assert (kept w g g2) by by eapply kept_trans.
        destruct (Z.eqb_spec ret 0) as [-> | Hne]; simpl.
        * wp_step. apply Hpass; try done. intros _ _. by apply Hret.
        * wp_step. apply Hrdma; try done. intros Hn. by apply Hne, Hret.
      + wp_step. apply Hpass; try done.
    - wp_step. apply Hpass; try done. }
  destruct (Z.eqb_spec (ofi_nccl_disable_gdr_required_check w) 0)
    as [Hc | Hc].
  - wp_step.
    destruct (get_platform_data_next w g) as (g1 & Heq & Hk & Hcaches & Hx).
    eapply wp_of_eq; [exact Heq |].
    destruct (caches_only_fields _ _ Hcaches) as (Hg & _).
    wp_step. wp_step. rewrite Hg.
    destruct (platform_of w g) as [pd|] eqn:Hpd.
    + destruct (gdr_required pd) eqn:Hreq; simpl.
      * destruct (support_gdr g) eqn:Hs; simpl.
        -- wp_step. wp_step. wp_step.
           eapply Hgdr; try done; [kept_tac |].
           by apply extends_by_emit.
        -- wp_step. apply Hgo; [done | done |]. intros _ pd' Hpd' _. done.
        -- wp_step. wp_step. wp_step.
           eapply Hgdr; try done; [kept_tac |].
           by apply extends_by_emit.
      * wp_step. apply Hgo; [done | done |]. intros _ pd' Hpd' Hr. congruence.
    + wp_step. apply Hgo; [done | done |]. intros _ pd' Hpd' _. congruence.
  - wp_step. apply Hgo; [apply kept_refl | apply extends_by_refl |].
    intros Hc'. done.
Qed.

(** X6: for a provider other than [efa], a call with an endpoint
    returns [0] at once: it asks the endpoint nothing, looks nothing up,
    and leaves the whole state as it is. *)
Theorem platform_config_endpoint_other_provider (w : world) (info : fi_info)
  (ep : fid_ep) (g : globals) :
  prov_name info <> "efa" ->
  platform_config_endpoint w info (Some ep) g = (Some 0, g).
Proof.
  intros Hne. unfold platform_config_endpoint, returns,
    platform_config_endpoint_body, config_endpoint_checks, strcmp_eq.
  munfold.
  destruct (String.eqb_spec (prov_name info) "efa") as [Heq | _]; [| done].
  by destruct Hne.
Qed.

Lemma platform_config_endpoint_other_provider_witness :
  platform_config_endpoint p4d_world
    {| next := None; prov_name := "tcp;ofi_rxm"; device_name := "eth0" |}
    (Some (endpoint_answering (- FI_EOPNOTSUPP))) (ordered_process "RDMA")
  = (Some 0, ordered_process "RDMA").
Proof.
  apply (platform_config_endpoint_other_provider p4d_world
           {| next := None; prov_name := "tcp;ofi_rxm"; device_name := "eth0" |}
           (endpoint_answering (- FI_EOPNOTSUPP)) (ordered_process "RDMA")).
  discriminate.
Defined.

(** X7: with the RDMA protocol selected and the check of native RDMA
    writes not disabled, a call for the EFA provider returns [0] only if
    the build declares [FI_OPT_EFA_EMULATED_WRITE] and the endpoint has
    answered [fi_getopt] with success, a value of the size of a [bool],
    and the value false: an endpoint that emulates RDMA writes, or that
    cannot say, is never accepted. *)
Theorem platform_config_endpoint_native_rdma (w : world) (info : fi_info)
  (ep : fid_ep) (g : globals) :
  prov_name info = "efa" ->
  strcasecmp_eq "RDMA" (nccl_ofi_selected_protocol g) = true ->
  ofi_nccl_disable_native_rdma_check w = 0 ->
  (platform_config_endpoint w info (Some ep) g).1 = Some 0 ->
  HAVE_DECL_FI_OPT_EFA_EMULATED_WRITE w = true
  /\ ep_getopt_emulated_write ep = (0, 1, false).
Proof.
  intros Hefa Hrdma Hcheck.
  apply (wp_returns (platform_config_endpoint_body w info (Some ep))
           (fun r _ => r = Some 0 -> native_rdma_write w ep) g).
  unfold platform_config_endpoint_body. wp_step.
  apply wp_config_endpoint_checks_cases.
  - intros Hne. by destruct Hne.
  - intros pd g' _ _ _ _ _ _ _ [=].
  - intros ret g' _ _ _ _ _ Hret _ [= ->]. done.
  - intros g' _ _ Hnative _ _. apply wp_any; intros; by apply Hnative.
Qed.

Lemma platform_config_endpoint_native_rdma_witness :
  HAVE_DECL_FI_OPT_EFA_EMULATED_WRITE p4d_world = true
  /\ ep_getopt_emulated_write (endpoint_answering 0) = (0, 1, false).
Proof.
  apply (platform_config_endpoint_native_rdma p4d_world efa_info
           (endpoint_answering 0) (process_with_protocol "RDMA"));
    by vm_compute.
Defined.

(** X8: on a platform that requires GDR, with the check not disabled, a
    call for the EFA provider in a process whose GDR support level is not
    [GDR_SUPPORTED] returns [-EINVAL]; it has not asked the endpoint
    anything, and the negotiation statics and the environment are what
    they were. *)
Theorem platform_config_endpoint_gdr_required (w : world) (info : fi_info)
  (ep : fid_ep) (g : globals) (pd : ec2_platform_data) :
  prov_name info = "efa" ->
  ofi_nccl_disable_gdr_required_check w = 0 ->
  platform_of w g = Some pd -> gdr_required pd = true ->
  support_gdr g <> GDR_SUPPORTED ->
  let r := platform_config_endpoint w info (Some ep) g in
  r.1 = Some (- EINVAL)
  /\ nccl_proto_configured r.2 = nccl_proto_configured g
  /\ need_ordering r.2 = need_ordering g
  /\ environ r.2 = environ g
  /\ extends_by (fun e => negb (touches_endpoint e)) g r.2.
Proof.
  intros Hefa Hcheck Hpd Hreq Hgdr.
  apply (wp_returns (platform_config_endpoint_body w info (Some ep))
           (fun r g' =>
              r = Some (- EINVAL)
              /\ nccl_proto_configured g' = nccl_proto_configured g
              /\ need_ordering g' = need_ordering g
              /\ environ g' = environ g
              /\ extends_by (fun e => negb (touches_endpoint e)) g g') g).
  unfold platform_config_endpoint_body. wp_step.
  apply wp_config_endpoint_checks_cases.
  - intros Hne. by destruct Hne.
  - intros pd' g' _ _ _ _ _ [] Hx. done.
  - intros ret g' _ Hpass. destruct Hgdr. by eapply Hpass.
  - intros g' _ Hpass. destruct Hgdr. by eapply Hpass.
Qed.

Lemma platform_config_endpoint_gdr_required_witness :
  (platform_config_endpoint p4d_world efa_info (Some (endpoint_answering 0))
     process_without_gdr).1
  = Some (- EINVAL).
Proof.
  refine (proj1 (platform_config_endpoint_gdr_required p4d_world efa_info
           (endpoint_answering 0) process_without_gdr
           {| name := "p4d.24xlarge"; topology := Some "p4d-24xl-topo.xml";
              default_dup_conns := 0; latency := 75 # 1; gdr_required := true;
              net_flush_required := true; default_protocol := "SENDRECV";
              domain_per_thread := 0 |} _ _ _ _ _));
    by vm_compute.
Defined.

(** X9: in a CUDA build, when the selected protocol is neither
    [SENDRECV] nor [RDMA] (compared without case), a call for the EFA
    provider returns [-EINVAL], without asking the endpoint anything and
    with the negotiation statics and the environment as they were. *)
Theorem platform_config_endpoint_unknown_protocol (w : world)
  (info : fi_info) (ep : fid_ep) (g : globals) :
  HAVE_CUDA w = true -> prov_name info = "efa" ->
  strcasecmp_eq "SENDRECV" (nccl_ofi_selected_protocol g) = false ->
  strcasecmp_eq "RDMA" (nccl_ofi_selected_protocol g) = false ->
  let r := platform_config_endpoint w info (Some ep) g in
  r.1 = Some (- EINVAL)
  /\ nccl_proto_configured r.2 = nccl_proto_configured g
  /\ need_ordering r.2 = need_ordering g
  /\ environ r.2 = environ g
  /\ extends_by (fun e => negb (touches_endpoint e)) g r.2.
Proof.
  intros Hcuda Hefa Hsr Hrdma.
  apply (wp_returns (platform_config_endpoint_body w info (Some ep))
           (fun r g' =>
              r = Some (- EINVAL)
              /\ nccl_proto_configured g' = nccl_proto_configured g
              /\ need_ordering g' = need_ordering g
              /\ environ g' = environ g
              /\ extends_by (fun e => negb (touches_endpoint e)) g g') g).
  unfold platform_config_endpoint_body. wp_step.
  apply wp_config_endpoint_checks_cases.
  - intros Hne. by destruct Hne.
  - intros pd' g' _ _ _ _ _ [] Hx. done.
  - intros ret g' _ _ Hr. congruence.
  - intros g' _ _ _ Hx [Hc Hn He Hp _ _]. specialize (Hx Hrdma).
    rewrite Hcuda. unfold config_endpoint_cuda, select_inorder_optname.
    wp_step. wp_step. rewrite Hp, Hsr, Hrdma.
    wp_step. wp_step. wp_step. wp_step.
    split; [done |]. split; [done |]. split; [done |]. split; [done |].
    by apply extends_by_emit.
Qed.

Lemma platform_config_endpoint_unknown_protocol_witness :
  (platform_config_endpoint p4d_world efa_info (Some (endpoint_answering 0))
     (process_with_protocol "TCP")).1
  = Some (- EINVAL).
Proof.
  refine (proj1 (platform_config_endpoint_unknown_protocol p4d_world efa_info
           (endpoint_answering 0) (process_with_protocol "TCP") _ _ _ _));
    by vm_compute.
Defined.

(** ** The outcome of the negotiation *)

Lemma negotiated_unconfigured g :
  nccl_proto_configured g = false -> negotiated g.
Proof. intros H H'. congruence. Qed.

Lemma negotiated_step g g' :
  negotiated g ->
  nccl_proto_configured g' = nccl_proto_configured g ->
  need_ordering g' = need_ordering g ->
  endpoint_frame g g' ->
  negotiated g'.
Proof.
  intros Hn Hc Hneed [] Hc'. rewrite Hc in Hc'.
  destruct (Hn Hc') as [H | [H | (Hi & Hp & Hr)]].
  - left. congruence.
  - right. left. destruct ef_nccl_proto0 as [-> | [Hnone _]]; [done |].
    rewrite Hnone in H. by destruct H.
  - right. right. destruct (ef_platform_type0 Hi) as [Hi' Hp'].
    split; [done |]. split; congruence.
Qed.

Lemma frames_endpoint_set_max_msg_size (w : world) (ep : fid_ep)
  (proto : string) :
  frames endpoint_frame (set_max_msg_size w ep proto).
Proof.
  unfold set_max_msg_size, NCCL_OFI_WARN.
  repeat first
    [ by apply frames_endpoint_emit
    | apply frames_endpoint_configure_ep_max_msg_size
    | frames_go ].
Qed.

Lemma wp_set_max_msg_size_frame (w : world) (ep : fid_ep) (proto : string)
  (g : globals) (Q : unit -> globals -> Prop) E :
  (forall g', kept w g g' -> endpoint_frame g g' -> Q tt g') ->
  (forall ret g', kept w g g' -> endpoint_frame g g' -> E (Some ret) g') ->
  wp (set_max_msg_size w ep proto) Q E g.
Proof.
  intros HQ HE.
  pose proof (wp_conj _ _ _ _ _ g
    (wp_set_max_msg_size w ep proto g (fun _ g' => kept w g g')
       (fun r g' => match r with Some _ => kept w g g' | None => False end)
       (fun _ H => H) (fun _ _ H => H))
    (frames_endpoint_set_max_msg_size w ep proto g g
       (fun _ g' => endpoint_frame g g') (fun _ g' => endpoint_frame g g')
       (endpoint_frame_refl g) (fun _ _ H => H) (fun _ _ H => H))) as H.
  unfold wp in *.
  destruct (set_max_msg_size w ep proto g) as [[[]| |] g'].
  - apply HQ; by destruct H.
  - apply HE; by destruct H.
  - by destruct H.
Qed.

(** With [setenv] working, [configure_nccl_proto] returns [0] and leaves
    [NCCL_PROTO] set. *)
Lemma configure_nccl_proto_sets (w : world) (g : globals) :
  setenv_errno w "NCCL_PROTO" = None ->
  exists g',
    configure_nccl_proto w g = (Next 0, g')
    /\ nccl_proto_configured g' = nccl_proto_configured g
    /\ need_ordering g' = need_ordering g
    /\ endpoint_frame g g'
    /\ is_Some (environ g' !! "NCCL_PROTO").
Proof.
  intros Hset. unfold configure_nccl_proto, setenv. munfold. munfold.
  rewrite Hset. cbv beta iota.
  destruct (environ g !! "NCCL_PROTO") as [v|] eqn:Hv.
  - destruct (strcasecmp_eq v "simple"); simpl.
    + exists g. split; [done |]. split; [done |]. split; [done |].
      split; [apply endpoint_frame_refl | by rewrite Hv].
    + eexists. split; [done |]. split; [done |]. split; [done |].
      split; [| simpl; by rewrite Hv].
      by apply endpoint_frame_emit; [| apply endpoint_frame_refl].
  - rewrite Hv. simpl. eexists. split; [done |].
    split; [done |]. split; [done |]. split.
    + split; try done; simpl.
      * intros var Hne. by rewrite lookup_insert_ne.
      * right. by rewrite lookup_insert.
      * by apply extends_by_same_trace.
    + simpl. by rewrite lookup_insert.
Qed.

Lemma negotiated_set_trace g t : negotiated g -> negotiated (set_trace t g).
Proof. done. Qed.

Lemma negotiate_ordering_negotiated (w : world) (ep : fid_ep)
  (optname : option fi_opt) (g : globals) :
  setenv_errno w "NCCL_PROTO" = None ->
  nccl_proto_configured g = false ->
  wp (negotiate_ordering w ep optname)
    (fun _ g' => negotiated g') (fun _ g' => negotiated g') g.
Proof.
  intros Hset Hc. unfold negotiate_ordering.
  wp_step. wp_step. wp_step. wp_step. rewrite Hc, orb_true_r. simpl.
  assert (Hrec : forall g2 have,
    nccl_proto_configured g2 = false ->
    wp ((if need_ordering g && negb have then
           NCCL_OFI_WARN ordering_mismatch_warning;;
           goto_exit (- ENOTSUP)
         else mret tt);;
        modify (set_negotiation true have);;
        (if negb have then
           ret ← configure_nccl_proto w;
           if negb (ret =? 0) then
             NCCL_OFI_WARN "Failed to set NCCL_PROTO: %d";;
             goto_exit (- ENOTSUP)
           else mret tt
         else mret tt))
      (fun _ g' => negotiated g') (fun _ g' => negotiated g') g2).
  { intros g2 have Hc2. wp_step. wp_step.
    - wp_step. wp_step. wp_step. by apply negotiated_unconfigured.
    - wp_step. wp_step. wp_step. destruct have; simpl.
      + wp_step. intros _. by left.
      + wp_step.
        destruct (configure_nccl_proto_sets w (set_negotiation true false g2)
                    Hset) as (g3 & Heq & Hc3 & Hn3 & _ & Hp).
        eapply wp_of_eq; [exact Heq |]. simpl. wp_step.
        intros _. right. by left. }
  wp_step. wp_step.
  - wp_step. apply wp_configure_ep_inorder.
    + intros _ q Hq. unfold inorder_result.
      destruct (unsupported (ep_setopt ep f)) eqn:Hun; simpl.
      * wp_step. by apply Hrec.
      * destruct (ep_setopt ep f =? 0) eqn:H0; simpl.
        -- wp_step. by apply Hrec.
        -- rewrite H0. simpl. wp_step. wp_step. wp_step.
           by apply negotiated_unconfigured.
    + intros _. simpl. wp_step. by apply Hrec.
  - wp_step. by apply Hrec.
Qed.

(** The ways through the P5 exception: it does not apply; it applies,
    and records in an unconfigured domain that ordering is not needed; it
    faults on a NULL platform type. *)
Lemma wp_p5_rdma_exception_cases (w : world) (proto : string) (g : globals)
  (Q : unit -> globals -> Prop) E :
  (forall g', kept w g g' ->
     (environ g !! "NCCL_PROTO" = None ->
      strcasecmp_eq "RDMA" proto = true ->
      exists pt, identity_of w g = Some pt
        /\ (pt <> "p5.48xlarge" \/ nccl_proto_configured g = true)) ->
     Q tt g') ->
  (forall g', kept w g g' ->
     environ g !! "NCCL_PROTO" = None ->
     strcasecmp_eq "RDMA" proto = true ->
     identity_of w g = Some "p5.48xlarge" ->
     gpt_init g' = true -> gpt_platform_type g' = Some "p5.48xlarge" ->
     nccl_proto_configured g = false ->
     Q tt (set_negotiation true false g')) ->
  (forall g', kept w g g' ->
     environ g !! "NCCL_PROTO" = None ->
     strcasecmp_eq "RDMA" proto = true ->
     identity_of w g = None ->
     E None g') ->
  wp (p5_rdma_exception w proto) Q E g.
Proof.
  intros Hsame Hset Hfault. unfold p5_rdma_exception.
  wp_step. wp_step. wp_step.
  - apply andb_prop in Heqb as [Henv Hrdma].
    apply bool_decide_eq_true in Henv.
    wp_step. apply wp_get_platform_type. intros g' Hk Hi Hp.
    destruct (identity_of w g) as [pt|] eqn:Hid.
    + wp_step.
      * unfold strcmp_eq in *. apply String.eqb_eq in Heqb. subst pt.
        wp_step. wp_step. rewrite (kept_configured _ _ _ Hk).
        destruct (nccl_proto_configured g) eqn:Hc; simpl.
        -- wp_step. apply Hsame; [done |]. intros _ _. eexists. split; eauto.
        -- wp_step. by apply Hset.
      * wp_step. apply Hsame; [done |]. intros _ _. eexists. split; [done |].
        left. intros ->. unfold strcmp_eq in *.
        by rewrite String.eqb_refl in Heqb.
    + wp_step. by apply Hfault.
  - wp_step. apply Hsame; [apply kept_refl |]. intros Henv Hrdma.
    rewrite Hrdma, andb_true_r in Heqb.
    apply bool_decide_eq_false in Heqb. done.
Qed.

Lemma config_endpoint_cuda_negotiated (w : world) (ep : fid_ep)
  (gm : globals) :
  setenv_errno w "NCCL_PROTO" = None ->
  nccl_proto_configured gm = false ->
  wp (config_endpoint_cuda w ep)
    (fun _ g' => negotiated g') (fun _ g' => negotiated g') gm.
Proof.
  intros Hset Hc. unfold config_endpoint_cuda.
  assert (Htail : forall g2, negotiated g2 ->
    wp (set_max_msg_size w ep (nccl_ofi_selected_protocol gm);; mret 0)
      (fun _ g' => negotiated g') (fun _ g' => negotiated g') g2).
  { intros g2 Hn. wp_step. apply wp_set_max_msg_size_frame.
    - intros g3 [] Hf. wp_step. by eapply negotiated_step.
    - intros r g3 [] Hf. by eapply negotiated_step. }
  assert (Hgo : forall optname,
    wp (p5_rdma_exception w (nccl_ofi_selected_protocol gm);;
        negotiate_ordering w ep optname;;
        set_max_msg_size w ep (nccl_ofi_selected_protocol gm);; mret 0)
      (fun _ g' => negotiated g') (fun _ g' => negotiated g') gm).
  { intros optname. wp_step. apply wp_p5_rdma_exception_cases.
    - intros g1 Hk _. destruct Hk as [Hc1 _ _ _ _ _]. wp_step.
      eapply wp_mono.
      + apply negotiate_ordering_negotiated; [done | congruence].
      + intros [] g2 Hi. cbv beta. by apply Htail.
      + done.
    - intros g1 Hk _ Hrdma _ Hi Hp _. wp_step.
      eapply wp_of_outcome.
      { by apply negotiate_ordering_unordered. }
      apply Htail. intros _. right. right. simpl.
      split; [done |]. split; [done |].
      by rewrite (kept_protocol _ _ _ Hk).
    - intros g1 Hk _ _ _. apply negotiated_unconfigured.
      rewrite (kept_configured _ _ _ Hk). done. }
  wp_step. wp_step. wp_step. unfold select_inorder_optname. wp_step.
  - wp_step. apply Hgo.
  - wp_step.
    + wp_step. apply Hgo.
    + wp_step. wp_step. wp_step. by apply negotiated_unconfigured.
Qed.

Lemma platform_config_endpoint_negotiated (w : world) (info : fi_info)
  (endpoint : option fid_ep) (g : globals) :
  setenv_errno w "NCCL_PROTO" = None ->
  negotiated g ->
  negotiated (platform_config_endpoint w info endpoint g).2.
Proof.
  intros Hset Hn. destruct (nccl_proto_configured g) eqn:Hc.
  - destruct (platform_config_endpoint_settled w info endpoint g Hc)
      as (Hc' & Hn' & _).
    eapply negotiated_step; [exact Hn | congruence | done |].
    apply (frames_returns endpoint_frame
             (platform_config_endpoint_body w info endpoint) g).
    + apply endpoint_frame_refl.
    + apply frames_endpoint_body.
  - unfold platform_config_endpoint.
    apply (wp_returns _ (fun _ g' => negotiated g')).
    unfold platform_config_endpoint_body. destruct endpoint as [ep|].
    + wp_step. apply wp_config_endpoint_checks_cases.
      * intros _. by apply negotiated_unconfigured.
      * intros pd g' _ _ _ _ _ [] _. apply negotiated_unconfigured. congruence.
      * intros ret g' _ _ _ _ _ _ []. apply negotiated_unconfigured.
        congruence.
      * intros g' _ _ _ _ []. wp_step.
        -- apply config_endpoint_cuda_negotiated; [done | congruence].
        -- wp_step. apply negotiated_unconfigured. congruence.
    + wp_step. wp_step. wp_step. by apply negotiated_unconfigured.
Qed.

(** X10: the negotiation keeps its promise over any sequence of calls
    whose [setenv] of [NCCL_PROTO] does not fail: from a state where it
    holds (so from the start of the process, where nothing is
    configured), after any calls of [platform_config_endpoint], with any
    arguments, whatever their endpoints answer and however they end, a
    configured domain either needs ordering, or has [NCCL_PROTO] set, or
    is on [p5.48xlarge] with the RDMA protocol. *)
Theorem negotiation_sound (calls : list call) (g : globals) :
  Forall (fun c => setenv_errno (call_world c) "NCCL_PROTO" = None) calls ->
  negotiated g ->
  negotiated (run_calls calls g).
Proof.
  revert g. induction calls as [|c calls IH]; intros g Hall Hn; [done |].
  apply Forall_cons in Hall as [Hc Hall]. simpl.
  apply IH; [done |]. by apply platform_config_endpoint_negotiated.
Qed.

Lemma negotiation_sound_witness :
  let g1 :=
    run_calls
      [ {| call_world := sample_world (files_of []); call_info := efa_info;
           call_endpoint := Some (endpoint_answering (- FI_EOPNOTSUPP)) |};
        {| call_world := p4d_world; call_info := efa_info;
           call_endpoint := Some (endpoint_answering 0) |} ]
      process_start in
  nccl_proto_configured g1 = true /\ need_ordering g1 = false
  /\ negotiated g1.
Proof.
  split; [by vm_compute |]. split; [by vm_compute |].
  apply negotiation_sound.
  - repeat constructor.
  - by apply negotiated_unconfigured.
Defined.

(** ** The first call of an unconfigured domain, continued *)

Lemma sendrecv_is_not_rdma (proto : string) :
  strcasecmp_eq "SENDRECV" proto = true -> strcasecmp_eq "RDMA" proto = false.
Proof.
  intros H. destruct (strcasecmp_eq "RDMA" proto) eqn:Hr; [| done].
  apply rdma_is_not_sendrecv in Hr. congruence.
Qed.

Lemma wp_no_p5_exception (w : world) (g0 g : globals)
  (Q : unit -> globals -> Prop) E :
  no_p5_exception w g0 ->
  environ g = environ g0 -> identity_of w g = identity_of w g0 ->
  nccl_proto_configured g = false ->
  (forall g', kept w g g' -> Q tt g') ->
  wp (p5_rdma_exception w (nccl_ofi_selected_protocol g0)) Q E g.
Proof.
  intros Hno He Hi Hc HQ. apply wp_p5_rdma_exception_cases.
  - intros g' Hk _. by apply HQ.
  - intros g' _ Henv Hrdma Hid _ _ _. rewrite He in Henv. rewrite Hi in Hid.
    destruct (Hno Henv Hrdma) as (pt & Hpt & Hne). congruence.
  - intros g' _ Henv Hrdma Hid. rewrite He in Henv. rewrite Hi in Hid.
    destruct (Hno Henv Hrdma) as (pt & Hpt & Hne). congruence.
Qed.

(** The exit of [set_max_msg_size]: with the RDMA protocol, on an error
    of [fi_setopt] other than "unsupported". *)
Lemma wp_set_max_msg_size_code (w : world) (ep : fid_ep) (proto : string)
  (g : globals) (Q : unit -> globals -> Prop) E :
  (forall g', kept w g g' -> Q tt g') ->
  (forall g', kept w g g' -> strcasecmp_eq "RDMA" proto = true ->
     ep_setopt ep FI_OPT_MAX_MSG_SIZE <> 0 ->
     E (Some (ep_setopt ep FI_OPT_MAX_MSG_SIZE)) g') ->
  wp (set_max_msg_size w ep proto) Q E g.
Proof.
  intros HQ HE. unfold set_max_msg_size, configure_ep_max_msg_size.
  destruct (strcasecmp_eq "RDMA" proto) eqn:Hr; [| wp_step; apply HQ, kept_refl].
  wp_step. destruct (HAVE_DECL_FI_OPT_MAX_MSG_SIZE w).
  - cbv zeta. wp_step. wp_step.
    destruct ((ep_setopt ep FI_OPT_MAX_MSG_SIZE =? - FI_EOPNOTSUPP)
              || (ep_setopt ep FI_OPT_MAX_MSG_SIZE =? - FI_ENOPROTOOPT)).
    + wp_step. simpl. wp_step. apply HQ. kept_tac.
    + destruct (Z.eqb_spec (ep_setopt ep FI_OPT_MAX_MSG_SIZE) 0) as [H0 | H0];
        simpl.
      * wp_step. rewrite H0. simpl. wp_step. apply HQ. kept_tac.
      * wp_step. wp_step. wp_step.
        destruct (Z.eqb_spec (ep_setopt ep FI_OPT_MAX_MSG_SIZE) 0); [done |].
        simpl. wp_step. wp_step. wp_step. apply HE; [kept_tac | done | done].
  - wp_step. simpl. wp_step. apply HQ, kept_refl.
Qed.

Lemma config_endpoint_cuda_accepted (w : world) (ep : fid_ep) (o : fi_opt)
  (g gm : globals) :
  kept w g gm ->
  nccl_proto_configured g = false ->
  protocol_option w (nccl_ofi_selected_protocol g) = Some o ->
  HAVE_DECL_FI_OPT_EFA_WRITE_IN_ORDER_ALIGNED_128_BYTES w = true ->
  ep_setopt ep o = 0 ->
  no_p5_exception w g ->
  wp (config_endpoint_cuda w ep)
    (fun ret g1 => accepted_call_post w ep o g (Some ret) g1)
    (fun r g1 => accepted_call_post w ep o g r g1) gm.
Proof.
  intros Hk Hc Ho Hd Hep Hno. unfold config_endpoint_cuda.
  destruct Hk as [Hc1 Hn1 He1 Hp1 Hi1 Hq1].
  wp_step. wp_step. rewrite Hp1. wp_step.
  eapply wp_of_eq; [by apply select_inorder_optname_known |].
  wp_step. apply (wp_no_p5_exception w g gm); [done | done | done | congruence |].
  intros g2 [Hc2 Hn2 He2 Hp2 Hi2 Hq2].
  assert (Hq : quietly g g2) by by eapply quietly_trans.
  wp_step. unfold negotiate_ordering.
  wp_step. wp_step. wp_step. wp_step.
  assert (Hcg2 : nccl_proto_configured g2 = false) by congruence.
  rewrite Hcg2, orb_true_r. simpl.
  wp_step. wp_step. apply wp_configure_ep_inorder; [| congruence].
  intros _ evs Hevs. rewrite Hep. unfold inorder_result. simpl.
  wp_step. wp_step. rewrite andb_false_r. wp_step. wp_step. wp_step.
  simpl. wp_step. wp_step.
  assert (Hpost : forall r g3,
    kept w (set_negotiation true true
              (set_trace (trace g2 ++ EvSetopt o 1 :: evs) g2)) g3 ->
    r = Some 0
    \/ (strcasecmp_eq "RDMA" (nccl_ofi_selected_protocol g) = true
        /\ r = Some (ep_setopt ep FI_OPT_MAX_MSG_SIZE)
        /\ ep_setopt ep FI_OPT_MAX_MSG_SIZE <> 0) ->
    accepted_call_post w ep o g r g3).
  { intros r g3 [Hc3 Hn3 He3 _ _ Hq3] Hr.
    split; [done |]. split; [done |]. split; [simpl in *; congruence |].
    split; [| done].
    eapply attempted_once_quietly; [| exact Hq3].
    eapply attempted_once_intro; [exact Hq | done |].
    eapply Forall_impl; [exact Hevs |]. apply quiet_not_attempt. }
  apply wp_set_max_msg_size_code.
  - intros g3 Hk3. wp_step. apply Hpost; [done | by left].
  - intros g3 Hk3 Hr Hne. apply Hpost; [done |]. by right.
Qed.

(** X11: in a CUDA build that can set in-order options, when the first
    call of an unconfigured domain passes the checks, the P5 exception
    does not apply, and the endpoint accepts the in-order option of the
    selected protocol, the call attempts that option once, leaves the
    domain configured with ordering needed, and leaves the environment
    as it is: [NCCL_PROTO] is not set. The call returns [0], or with the
    RDMA protocol the error of the attempt to set the maximum message
    size. *)
Theorem first_call_accepted (w : world) (info : fi_info) (ep : fid_ep)
  (g gm : globals) (o : fi_opt) :
  HAVE_CUDA w = true ->
  nccl_proto_configured g = false ->
  config_endpoint_checks w info ep g = (Next tt, gm) ->
  protocol_option w (nccl_ofi_selected_protocol g) = Some o ->
  HAVE_DECL_FI_OPT_EFA_WRITE_IN_ORDER_ALIGNED_128_BYTES w = true ->
  ep_setopt ep o = 0 ->
  no_p5_exception w g ->
  let r := platform_config_endpoint w info (Some ep) g in
  nccl_proto_configured r.2 = true /\ need_ordering r.2 = true
  /\ environ r.2 = environ g
  /\ attempted_once o g r.2
  /\ (r.1 = Some 0
      \/ (strcasecmp_eq "RDMA" (nccl_ofi_selected_protocol g) = true
          /\ r.1 = Some (ep_setopt ep FI_OPT_MAX_MSG_SIZE)
          /\ ep_setopt ep FI_OPT_MAX_MSG_SIZE <> 0)).
Proof.
  intros Hcuda Hc Hchecks Ho Hd Hep Hno.
  pose proof (config_endpoint_checks_kept _ _ _ _ _ _ Hchecks) as Hk.
  unfold platform_config_endpoint.
  apply (wp_returns _ (fun r g1 => accepted_call_post w ep o g r g1)).
  unfold platform_config_endpoint_body. wp_step.
  eapply wp_of_outcome; [exact Hchecks |]. rewrite Hcuda.
  by apply config_endpoint_cuda_accepted.
Qed.

Lemma first_call_accepted_witness :
  let r := platform_config_endpoint p4d_world efa_info
             (Some (endpoint_answering 0)) (process_with_protocol "RDMA") in
  r.1 = Some 0
  /\ nccl_proto_configured r.2 = true /\ need_ordering r.2 = true
  /\ environ r.2 !! "NCCL_PROTO" = None.
Proof.
  split; [by vm_compute |].
  destruct (first_call_accepted p4d_world efa_info (endpoint_answering 0)
              (process_with_protocol "RDMA")
              (config_endpoint_checks p4d_world efa_info (endpoint_answering 0)
                 (process_with_protocol "RDMA")).2
              FI_OPT_EFA_WRITE_IN_ORDER_ALIGNED_128_BYTES)
    as (H1 & H2 & H3 & _).
  - reflexivity.
  - reflexivity.
  - by vm_compute.
  - reflexivity.
  - reflexivity.
  - reflexivity.
  - intros _ _. exists "p4d.24xlarge". split; [by vm_compute | discriminate].
  - split; [exact H1 |]. split; [exact H2 |]. by rewrite H3.
Defined.

(** ** A call in a configured domain that does not need ordering *)

Lemma platform_config_endpoint_inert (w : world) (info : fi_info)
  (endpoint : option fid_ep) (g : globals) :
  nccl_proto_configured g = true -> need_ordering g = false ->
  kept w g (platform_config_endpoint w info endpoint g).2.
Proof.
  intros Hc Hn. unfold platform_config_endpoint.
  apply (wp_returns _ (fun _ g' => kept w g g')).
  unfold platform_config_endpoint_body. destruct endpoint as [ep|].
  2: { wp_step. wp_step. wp_step. kept_tac. }
  wp_step. apply wp_config_endpoint_checks; [| done].
  intros g1 Hk1. wp_step; [| wp_step; done].
  unfold config_endpoint_cuda. wp_step. wp_step. wp_step.
  assert (Hgo : forall optname,
    wp (p5_rdma_exception w (nccl_ofi_selected_protocol g1);;
        negotiate_ordering w ep optname;;
        set_max_msg_size w ep (nccl_ofi_selected_protocol g1);; mret 0)
      (fun _ g' => kept w g g') (fun _ g' => kept w g g') g1).
  { intros optname. wp_step. apply wp_p5_rdma_exception_cases.
    - intros g2 Hk2 _. wp_step.
      assert (Hk : kept w g g2) by by eapply kept_trans.
      eapply wp_of_outcome.
      { apply negotiate_ordering_unordered.
        - rewrite (kept_configured _ _ _ Hk). done.
        - rewrite (kept_need _ _ _ Hk). done. }
      cbv beta iota. wp_step. apply wp_set_max_msg_size_code.
      + intros g3 Hk3. wp_step. by eapply kept_trans.
      + intros g3 Hk3 _ _. by eapply kept_trans.
    - intros g2 Hk2 _ _ _ _ _ Hc1.
      rewrite (kept_configured _ _ _ Hk1) in Hc1. congruence.
    - intros g2 Hk2 _ _ _. by eapply kept_trans. }
  unfold select_inorder_optname. wp_step.
  - wp_step. apply Hgo.
  - wp_step.
    + wp_step. apply Hgo.
    + wp_step. wp_step. wp_step. kept_tac.
Qed.

Lemma run_calls_inert (calls : list call) (g : globals) :
  nccl_proto_configured g = true -> need_ordering g = false ->
  nccl_proto_configured (run_calls calls g) = true
  /\ need_ordering (run_calls calls g) = false
  /\ environ (run_calls calls g) = environ g
  /\ nccl_ofi_selected_protocol (run_calls calls g)
     = nccl_ofi_selected_protocol g.
Proof.
  revert g. induction calls as [|c calls IH]; intros g Hc Hn; [done |].
  simpl.
  destruct (platform_config_endpoint_inert (call_world c) (call_info c)
              (call_endpoint c) g Hc Hn) as [Hc1 Hn1 He1 Hp1 _ _].
  destruct (IH _ (eq_trans Hc1 Hc) (eq_trans Hn1 Hn)) as (? & ? & ? & ?).
  split; [done |]. split; [done |]. split; congruence.
Qed.

(** The failure of [configure_nccl_proto]: [NCCL_PROTO] is unset and
    [setenv] fails. *)
Lemma configure_nccl_proto_fails (w : world) (g : globals) (e : Z) :
  environ g !! "NCCL_PROTO" = None ->
  setenv_errno w "NCCL_PROTO" = Some e ->
  exists g',
    configure_nccl_proto w g = (Next (- e), g')
    /\ kept w g g'.
Proof.
  intros Henv Hset. unfold configure_nccl_proto, setenv. munfold. munfold.
  rewrite Hset. cbv beta iota. rewrite Henv. simpl.
  eexists. split; [done |].
  apply (kept_emit w g (set_environ (environ g) e g)); [| done].
  split; try done; [by apply identity_of_ext |].
  exists []. simpl. by rewrite app_nil_r.
Qed.

Lemma config_endpoint_cuda_setenv_failure (w : world) (ep : fid_ep)
  (g gm : globals) (e : Z) :
  kept w g gm ->
  nccl_proto_configured g = false -> need_ordering g = false ->
  strcasecmp_eq "SENDRECV" (nccl_ofi_selected_protocol g) = true ->
  unsupported (ep_setopt ep FI_OPT_EFA_SENDRECV_IN_ORDER_ALIGNED_128_BYTES)
  = true ->
  environ g !! "NCCL_PROTO" = None ->
  setenv_errno w "NCCL_PROTO" = Some e -> e <> 0 ->
  wp (config_endpoint_cuda w ep)
    (fun _ _ => False)
    (fun r g1 =>
       r = Some (- ENOTSUP)
       /\ nccl_proto_configured g1 = true /\ need_ordering g1 = false
       /\ environ g1 = environ g
       /\ nccl_ofi_selected_protocol g1 = nccl_ofi_selected_protocol g) gm.
Proof.
  intros [Hc1 Hn1 He1 Hp1 Hi1 Hq1] Hc Hn Hsr Hun Henv Hset He.
  unfold config_endpoint_cuda.
  wp_step. wp_step. rewrite Hp1. wp_step.
  unfold select_inorder_optname. rewrite Hsr. wp_step.
  wp_step. unfold p5_rdma_exception. wp_step. wp_step.
  rewrite (sendrecv_is_not_rdma _ Hsr), andb_false_r. wp_step.
  wp_step. unfold negotiate_ordering. wp_step. wp_step. wp_step. wp_step.
  rewrite Hc1, Hn1, Hc, Hn. simpl.
  assert (Hrec : forall g2,
    nccl_proto_configured g2 = false -> environ g2 = environ g ->
    nccl_ofi_selected_protocol g2 = nccl_ofi_selected_protocol g ->
    wp (modify (set_negotiation true false);;
        (if negb false then
           ret ← configure_nccl_proto w;
           if negb (ret =? 0) then
             NCCL_OFI_WARN "Failed to set NCCL_PROTO: %d";;
             goto_exit (- ENOTSUP)
           else mret tt
         else mret tt))
      (fun _ g' =>
         wp (set_max_msg_size w ep (nccl_ofi_selected_protocol g);; mret 0)
           (fun _ _ => False)
           (fun r g1 =>
              r = Some (- ENOTSUP)
              /\ nccl_proto_configured g1 = true /\ need_ordering g1 = false
              /\ environ g1 = environ g
              /\ nccl_ofi_selected_protocol g1 = nccl_ofi_selected_protocol g)
           g')
      (fun r g1 =>
         r = Some (- ENOTSUP)
         /\ nccl_proto_configured g1 = true /\ need_ordering g1 = false
         /\ environ g1 = environ g
         /\ nccl_ofi_selected_protocol g1 = nccl_ofi_selected_protocol g) g2).
  { intros g2 Hc2 He2 Hp2. wp_step. wp_step. simpl. wp_step.
    destruct (configure_nccl_proto_fails w (set_negotiation true false g2) e)
      as (g3 & Heq & [Hc3 Hn3 He3 Hp3 _ _]); [simpl; congruence | done |].
    eapply wp_of_eq; [exact Heq |].
    destruct (Z.eqb_spec (- e) 0) as [H0 | H0]; [lia |]. simpl.
    wp_step. wp_step. wp_step. simpl in *.
    split; [done |]. split; [done |]. split; [done |]. split; congruence. }
  wp_step.
  destruct (HAVE_DECL_FI_OPT_EFA_SENDRECV_IN_ORDER_ALIGNED_128_BYTES w).
  - wp_step. apply wp_configure_ep_inorder.
    + intros _ evs _. unfold inorder_result. rewrite Hun. simpl.
      wp_step. wp_step. wp_step. apply Hrec; simpl; congruence.
    + intros _. simpl. wp_step. wp_step. wp_step. apply Hrec; simpl; congruence.
  - wp_step. wp_step. wp_step. apply Hrec; simpl; congruence.
Qed.

(** X12: when [setenv] fails. In a CUDA build, take the first call of
    an unconfigured domain that passes the checks, with the SENDRECV
    protocol, [NCCL_PROTO] unset and an endpoint that does not support
    the in-order option, so that the call has to set [NCCL_PROTO], and
    let [setenv] fail. The call returns [-ENOTSUP], but it has already
    recorded the domain as configured with ordering not needed: the
    promise of the negotiation is broken, and stays so, for no later
    call attempts the option or sets [NCCL_PROTO]. *)
Theorem first_call_setenv_failure (w : world) (info : fi_info) (ep : fid_ep)
  (g gm : globals) (e : Z) :
  HAVE_CUDA w = true ->
  nccl_proto_configured g = false -> need_ordering g = false ->
  config_endpoint_checks w info ep g = (Next tt, gm) ->
  strcasecmp_eq "SENDRECV" (nccl_ofi_selected_protocol g) = true ->
  unsupported (ep_setopt ep FI_OPT_EFA_SENDRECV_IN_ORDER_ALIGNED_128_BYTES)
  = true ->
  environ g !! "NCCL_PROTO" = None ->
  setenv_errno w "NCCL_PROTO" = Some e -> e <> 0 ->
  let r := platform_config_endpoint w info (Some ep) g in
  r.1 = Some (- ENOTSUP)
  /\ nccl_proto_configured r.2 = true /\ need_ordering r.2 = false
  /\ environ r.2 !! "NCCL_PROTO" = None
  /\ forall later : list call,
       ~ negotiated (run_calls later r.2)
       /\ quietly r.2 (run_calls later r.2).
Proof.
  intros Hcuda Hc Hn Hchecks Hsr Hun Henv Hset He.
  pose proof (config_endpoint_checks_kept _ _ _ _ _ _ Hchecks) as Hk.
  assert (Hpost :
    let r := platform_config_endpoint w info (Some ep) g in
    r.1 = Some (- ENOTSUP)
    /\ nccl_proto_configured r.2 = true /\ need_ordering r.2 = false
    /\ environ r.2 = environ g
    /\ nccl_ofi_selected_protocol r.2 = nccl_ofi_selected_protocol g).
  { unfold platform_config_endpoint.
    apply (wp_returns _ (fun r g1 =>
      r = Some (- ENOTSUP)
      /\ nccl_proto_configured g1 = true /\ need_ordering g1 = false
      /\ environ g1 = environ g
      /\ nccl_ofi_selected_protocol g1 = nccl_ofi_selected_protocol g)).
    unfold platform_config_endpoint_body. wp_step.
    eapply wp_of_outcome; [exact Hchecks |]. rewrite Hcuda.
    eapply wp_mono.
    - by eapply config_endpoint_cuda_setenv_failure.
    - done.
    - done. }
  cbv zeta in *. destruct Hpost as (Hr & Hc1 & Hn1 & He1 & Hp1).
  split; [done |]. split; [done |]. split; [done |].
  split; [congruence |]. intros later.
  destruct (run_calls_inert later _ Hc1 Hn1) as (Hc2 & Hn2 & He2 & Hp2).
  split.
  - intros Hneg. destruct (Hneg Hc2) as [H | [H | (_ & _ & H)]].
    + congruence.
    + rewrite He2, He1, Henv in H. by destruct H.
    + rewrite Hp2, Hp1, (sendrecv_is_not_rdma _ Hsr) in H. done.
  - destruct (run_calls_settled later _ Hc1) as (_ & _ & Hq). by apply Hq.
Qed.

Lemma first_call_setenv_failure_witness :
  let w := failing_setenv "NCCL_PROTO" ENOMEM p4d_world in
  let r := platform_config_endpoint w efa_info
             (Some (endpoint_answering (- FI_EOPNOTSUPP))) process_start in
  r.1 = Some (- ENOTSUP)
  /\ nccl_proto_configured r.2 = true /\ need_ordering r.2 = false
  /\ environ r.2 !! "NCCL_PROTO" = None.
Proof.
  destruct (first_call_setenv_failure
              (failing_setenv "NCCL_PROTO" ENOMEM p4d_world) efa_info
              (endpoint_answering (- FI_EOPNOTSUPP)) process_start
              (config_endpoint_checks
                 (failing_setenv "NCCL_PROTO" ENOMEM p4d_world) efa_info
                 (endpoint_answering (- FI_EOPNOTSUPP)) process_start).2
              ENOMEM)
    as (H1 & H2 & H3 & H4 & _).
  - reflexivity.
  - reflexivity.
  - reflexivity.
  - by vm_compute.
  - reflexivity.
  - reflexivity.
  - reflexivity.
  - reflexivity.
  - discriminate.
  - split; [exact H1 |]. split; [exact H2 |]. split; [exact H3 | exact H4].
Defined.

(** ** The steps of [platform_init] *)

Lemma init_frame_refl w g : init_frame w g g.
Proof. split; auto. apply extends_by_refl. Qed.

Lemma init_frame_trans w g1 g2 g3 :
  init_frame w g1 g2 -> init_frame w g2 g3 -> init_frame w g1 g3.
Proof.
  intros [] []. split; try congruence.
  - intros var Hv. rewrite if_environ1 by done. by apply if_environ0.
  - by eapply extends_by_trans.
Qed.

Lemma init_frame_emit w g g' fmt :
  init_frame w g g' ->
  init_frame w g (set_trace (trace g' ++ [EvWarn fmt]) g').
Proof. intros []. split; try done. by apply extends_by_emit. Qed.

Lemma init_frame_caches w g g' :
  caches_only g g' ->
  extends_by (fun e => negb (touches_endpoint e)) g g' ->
  init_frame w g g'.
Proof. intros (t & i & pt & j & pd & ->) Hx. by split. Qed.

Lemma setenv_sets_errno_exit (w : world) (ret : Z) :
  setenv_sets_errno w -> exit_code w ret -> ret <> 0.
Proof.
  intros Hs [-> | [-> | (var & e & _ & He & ->)]]; [done | done |].
  intros H0. apply (Hs var). rewrite He. f_equal. lia.
Qed.

(** [ret = setenv(..); if (ret != 0) { ..; ret = -errno; goto exit; }] on
    a variable of [init_vars]. *)
Lemma wp_setenv_or_exit_init (w : world) (var value : string)
  (overwrite : bool) (warning : string) (g : globals)
  (Q : unit -> globals -> Prop) E :
  var ∈ init_vars w ->
  (overwrite = true -> environ g !! var = None) ->
  (forall g', init_frame w g g' ->
     environ g' = setenv_default var value (environ g) -> Q tt g') ->
  (forall ret g', init_frame w g g' -> exit_code w ret -> E (Some ret) g') ->
  wp (setenv_or_exit w var value overwrite warning) Q E g.
Proof.
  intros Hvar Hov HQ HE. unfold setenv_or_exit, setenv_default.
  assert (Hins : forall e,
    init_frame w g (set_environ (<[var := value]> (environ g)) e g)).
  { intros e. split; try done; simpl.
    - intros v Hv. apply lookup_insert_ne. intros ->. done.
    - by apply extends_by_same_trace. }
  wp_step. unfold setenv.
  destruct (setenv_errno w var) as [e|] eqn:He.
  - eapply wp_of_eq; [done |]. simpl.
    wp_step. wp_step. wp_step. wp_step. wp_step. simpl.
    apply HE.
    + apply (init_frame_emit w g (set_environ (environ g) e g)).
      split; try done. by apply extends_by_same_trace.
    + right. right. by exists var, e.
  - destruct (environ g !! var) as [u|] eqn:Hu.
    + destruct overwrite; [by specialize (Hov eq_refl) |].
      eapply wp_of_eq; [cbv beta; by rewrite Hu |]. simpl. wp_step.
      apply HQ; [apply init_frame_refl | unfold setenv_default; by rewrite Hu].
    + eapply wp_of_eq; [cbv beta; by rewrite Hu |]. simpl. wp_step.
      apply HQ; [apply Hins | unfold setenv_default; by rewrite Hu].
Qed.

Lemma fork_safe_var_name_cases (v : Z) :
  fork_safe_var_name v = "FI_EFA_FORK_SAFE"
  \/ fork_safe_var_name v = "RDMAV_FORK_SAFE".
Proof. unfold fork_safe_var_name. destruct (_ || _); auto. Qed.

Ltac init_var :=
  unfold init_vars; repeat first [ by apply list_elem_of_here | apply list_elem_of_further ].

Lemma wp_set_fork_safe (w : world) (g : globals)
  (Q : unit -> globals -> Prop) E :
  (forall g', init_frame w g g' ->
     environ g'
     = setenv_default (fork_safe_var_name (fi_version w)) "1" (environ g) ->
     Q tt g') ->
  (forall ret g', init_frame w g g' -> exit_code w ret -> E (Some ret) g') ->
  wp (set_fork_safe w) Q E g.
Proof.
  intros HQ HE. unfold set_fork_safe. cbv zeta.
  wp_step. wp_step. wp_step.
  - apply bool_decide_eq_true in Heqb.
    apply wp_setenv_or_exit_init; [init_var | done | done | done].
  - apply bool_decide_eq_false in Heqb. wp_step.
    apply HQ; [apply init_frame_refl |]. unfold setenv_default.
    by destruct (environ g !! fork_safe_var_name (fi_version w)).
Qed.

Lemma wp_set_nvls_option (w : world) (g : globals)
  (Q : unit -> globals -> Prop) E :
  (forall g', init_frame w g g' ->
     (setenv_sets_errno w ->
      environ g'
      = if nvls_to_disable w
        then setenv_default "NCCL_NVLS_ENABLE" "0" (environ g)
        else environ g) ->
     Q tt g') ->
  (forall ret g', init_frame w g g' -> exit_code w ret -> E (Some ret) g') ->
  wp (set_nvls_option w) Q E g.
Proof.
  intros HQ HE. unfold set_nvls_option, configure_nvls_option, nvls_to_disable,
    setenv_default in *.
  wp_step. wp_step. wp_step.
  destruct (environ g !! "NCCL_NVLS_ENABLE") as [v|] eqn:Hv.
  { wp_step. simpl. wp_step. apply HQ; [apply init_frame_refl |].
    intros _. by destruct (ncclGetVersion w) as [[? v']|]; [destruct (v' <? _) |]. }
  destruct (ncclGetVersion w) as [[nccl_ret version]|].
  2: { wp_step. simpl. wp_step. apply HQ; [apply init_frame_refl | done]. }
  destruct (Z.eqb_spec nccl_ret ncclSuccess) as [Hr | Hr]; simpl.
  2: { repeat wp_step; [| by vm_compute in Heqb].
       apply HE; [| by left].
       apply init_frame_emit, init_frame_emit, init_frame_refl. }
  destruct (version <? 21805) eqn:Hver.
  2: { wp_step. simpl. wp_step. apply HQ; [apply init_frame_refl | done]. }
  wp_step. unfold setenv.
  destruct (setenv_errno w "NCCL_NVLS_ENABLE") as [e|] eqn:He.
  - eapply wp_of_eq; [done |]. simpl.
    wp_step. wp_step. wp_step. wp_step. wp_step. simpl.
    assert (Hf : init_frame w g
      (set_trace (trace g ++ [EvWarn "Unable to set NCCL_NVLS_ENABLE"])
         (set_environ (environ g) e g))).
    { apply (init_frame_emit w g (set_environ (environ g) e g)).
      split; try done. by apply extends_by_same_trace. }
    destruct (Z.eqb_spec (- e) 0) as [H0 | H0]; simpl.
    + wp_step. apply HQ; [done |]. intros Hs. destruct (Hs "NCCL_NVLS_ENABLE").
      rewrite He. f_equal. lia.
    + wp_step. wp_step. wp_step.
      apply HE; [by apply init_frame_emit |].
      right. right. exists "NCCL_NVLS_ENABLE", e.
      split; [init_var | done].
  - eapply wp_of_eq; [cbv beta; by rewrite Hv |]. simpl. wp_step. simpl.
    wp_step.
    apply HQ; [| done]. split; try done; simpl.
    + intros v Hne. apply lookup_insert_ne. intros <-. apply Hne. init_var.
    + by apply extends_by_same_trace.
Qed.

Lemma wp_set_force_flush (w : world) (pd : option ec2_platform_data)
  (g : globals) (Q : unit -> globals -> Prop) E :
  (forall g', init_frame w g g' ->
     environ g'
     = (if match pd with
           | Some pd => negb (net_flush_required pd)
           | None => false
           end
        then setenv_default "NCCL_NET_FORCE_FLUSH" "0" (environ g)
        else environ g) ->
     Q tt g') ->
  (forall ret g', init_frame w g g' -> exit_code w ret -> E (Some ret) g') ->
  wp (set_force_flush w pd) Q E g.
Proof.
  intros HQ HE. unfold set_force_flush.
  wp_step. wp_step.
  destruct (match pd with Some pd0 => negb (net_flush_required pd0)
            | None => false end) eqn:Hpd; simpl.
  - destruct (environ g !! "NCCL_NET_FORCE_FLUSH") as [v|] eqn:Hv.
    + rewrite bool_decide_eq_false_2 by done. wp_step.
      apply HQ; [apply init_frame_refl |]. unfold setenv_default.
      by rewrite Hv.
    + rewrite bool_decide_eq_true_2 by done.
      apply wp_setenv_or_exit_init; [init_var | done | done | done].
  - wp_step. apply HQ; [apply init_frame_refl | done].
Qed.

Lemma wp_set_chunk_sizes (w : world) (g : globals)
  (Q : unit -> globals -> Prop) E :
  (forall g', init_frame w g g' ->
     environ g'
     = setenv_default "NCCL_NVLS_CHUNKSIZE" "524288"
         (setenv_default "NCCL_NVLSTREE_MAX_CHUNKSIZE" "524288" (environ g)) ->
     Q tt g') ->
  (forall ret g', init_frame w g g' -> exit_code w ret -> E (Some ret) g') ->
  wp (set_chunk_sizes w) Q E g.
Proof.
  intros HQ HE. unfold set_chunk_sizes. wp_step.
  apply wp_setenv_or_exit_init; [init_var | done | | done].
  intros g1 Hf1 He1.
  apply wp_setenv_or_exit_init; [init_var | done | |].
  - intros g2 Hf2 He2. apply HQ; [by eapply init_frame_trans |].
    by rewrite He2, He1.
  - intros ret g2 Hf2 Hc. apply HE; [by eapply init_frame_trans | done].
Qed.

Lemma wp_platform_init_cuda (w : world) (pd : option ec2_platform_data)
  (g : globals) (Q : unit -> globals -> Prop) E :
  (forall g', init_frame w g g' ->
     (setenv_sets_errno w ->
      environ g' = init_environ_cuda w pd (environ g)) ->
     Q tt g') ->
  (forall ret g', init_frame w g g' -> exit_code w ret -> E (Some ret) g') ->
  wp (platform_init_cuda w pd) Q E g.
Proof.
  intros HQ HE. unfold platform_init_cuda, init_environ_cuda.
  wp_step. apply wp_set_fork_safe; [| done]. intros g1 Hf1 He1.
  wp_step. apply wp_set_nvls_option.
  2: { intros ret g2 Hf2 Hc. apply HE; [by eapply init_frame_trans | done]. }
  intros g2 Hf2 He2.
  assert (Hf12 : init_frame w g g2) by by eapply init_frame_trans.
  wp_step. apply wp_set_force_flush.
  2: { intros ret g3 Hf3 Hc. apply HE; [by eapply init_frame_trans | done]. }
  intros g3 Hf3 He3.
  assert (Hf13 : init_frame w g g3) by by eapply init_frame_trans.
  apply wp_set_chunk_sizes.
  2: { intros ret g4 Hf4 Hc. apply HE; [by eapply init_frame_trans | done]. }
  intros g4 Hf4 He4. apply HQ; [by eapply init_frame_trans |].
  intros Hs. cbv zeta. by rewrite He4, He3, (He2 Hs), He1.
Qed.

Lemma get_platform_type_init_frame (w : world) (g : globals) :
  exists pt g', get_platform_type w g = (Next pt, g')
    /\ init_frame w g g' /\ environ g' = environ g.
Proof.
  destruct (get_platform_type_untouched w g) as (pt & g' & Heq & Hx).
  pose proof (wp_get_platform_type_caches w g
    (fun _ g' => caches_only g g') (fun _ _ => False) (fun _ _ H => H)) as H.
  unfold wp in H. rewrite Heq in H.
  exists pt, g'. split; [done |]. split; [by apply init_frame_caches |].
  by destruct H as (t & i & pt' & j & pd & ->).
Qed.

Lemma wp_set_topology (w : world) (pd : option ec2_platform_data)
  (g : globals) (Q : unit -> globals -> Prop) E :
  (forall g', init_frame w g g' ->
     environ g' = init_environ_topology w pd (environ g) -> Q tt g') ->
  (forall ret g', init_frame w g g' -> exit_code w ret -> E (Some ret) g') ->
  wp (set_topology w pd) Q E g.
Proof.
  intros HQ HE. unfold set_topology, init_environ_topology, setenv_default.
  wp_step. wp_step.
  destruct (environ g !! "NCCL_TOPO_FILE") as [v|] eqn:Hv.
  - wp_step.
    destruct (get_platform_type_init_frame w g) as (pt & g1 & Heq & Hf & He).
    eapply wp_of_eq; [exact Heq |]. wp_step. apply HQ; [done |].
    rewrite He. unfold init_environ_topology, setenv_default.
    destruct pd as [[? [topo|] ? ? ? ? ? ?]|]; try done. by rewrite Hv.
  - destruct pd as [[? [topo|] ? ? ? ? ? ?]|];
      [| wp_step; apply HQ; [apply init_frame_refl | done]
       | wp_step; apply HQ; [apply init_frame_refl | done]].
    cbv zeta. wp_step.
    + wp_step. wp_step. wp_step. apply HE; [| right; by left].
      apply init_frame_emit, init_frame_refl.
    + wp_step.
      destruct (get_platform_type_init_frame w g) as (pt & g1 & Heq & Hf & He).
      eapply wp_of_eq; [exact Heq |].
      apply wp_setenv_or_exit_init; [init_var | by rewrite He | |].
      * intros g2 Hf2 He2. apply HQ; [by eapply init_frame_trans |].
        by rewrite He2, He.
      * intros ret g2 Hf2 Hc. apply HE; [by eapply init_frame_trans | done].
Qed.

Lemma init_frame_provider_selected w g g' :
  init_frame w g g' ->
  environ g' !! "FI_PROVIDER" = environ g !! "FI_PROVIDER" ->
  init_frame w (provider_selected g) (provider_selected g').
Proof.
  intros [] He. unfold provider_selected. rewrite He.
  by destruct (environ g !! "FI_PROVIDER"); split.
Qed.

Lemma fi_provider_not_init_var (w : world) : "FI_PROVIDER" ∉ init_vars w.
Proof.
  unfold init_vars.
  destruct (fork_safe_var_name_cases (fi_version w)) as [-> | ->];
    intros H;
    repeat (apply elem_of_cons in H as [H | H]; [discriminate H |]);
    by apply elem_of_nil in H.
Qed.

(** The whole of [platform_init]: either every step goes on, the
    tunables are assigned and the function returns [0], or a step leaves
    the function with an error code and the tunables are not assigned. *)
Lemma wp_platform_init_body (w : world) (g : globals)
  (Q : Z -> globals -> Prop) E :
  (forall g_mid,
     init_frame w (provider_selected g) g_mid ->
     (setenv_sets_errno w ->
      environ g_mid = init_environ w (platform_of w g) (environ g)) ->
     Q 0 (assign_tunables w (platform_of w g) (select_efa_of g) g_mid)) ->
  (forall ret g',
     init_frame w (provider_selected g) g' -> exit_code w ret ->
     E (Some ret) g') ->
  wp (platform_init_body w) Q E g.
Proof.
  intros HQ HE. unfold platform_init_body.
  wp_step.
  destruct (get_platform_data_next w g) as (g1 & Heq & _ & Hcaches & Hx).
  eapply wp_of_eq; [exact Heq |].
  pose proof (init_frame_caches w _ _ Hcaches Hx) as Hf1.
  assert (He1 : environ g1 = environ g)
    by by destruct (caches_only_fields _ _ Hcaches) as (_ & _ & _ & ? & _).
  set (pd := platform_of w g) in *.
  assert (Hsel : wp select_provider
    (fun sel g2 => sel = select_efa_of g /\ g2 = provider_selected g1)
    (fun _ _ => False) g1).
  { unfold select_provider, select_efa_of, provider_selected.
    wp_step. wp_step. rewrite He1.
    destruct (environ g !! "FI_PROVIDER"); repeat wp_step; done. }
  wp_step. eapply wp_mono; [exact Hsel | | done].
  intros sel g2 [-> ->]. cbv beta.
  assert (Hf2 : init_frame w (provider_selected g) (provider_selected g1)).
  { apply init_frame_provider_selected; [done | by rewrite He1]. }
  assert (He2 : environ (provider_selected g1) = environ g).
  { unfold provider_selected.
    by destruct (environ g1 !! "FI_PROVIDER"). }
  assert (Hrest : forall g3,
    init_frame w (provider_selected g) g3 ->
    (setenv_sets_errno w ->
     environ g3 = if HAVE_CUDA w then init_environ_cuda w pd (environ g)
                  else environ g) ->
    wp (set_topology w pd;;
        modify (set_nic_dup_conns pd);;
        modify (set_net_latency w pd);;
        modify (set_selected_protocol w pd (select_efa_of g));;
        modify (set_domain_per_thread w pd);;
        mret 0) Q E g3).
  { intros g3 Hf3 He3. wp_step. apply wp_set_topology.
    - intros g4 Hf4 He4. repeat wp_step.
      apply (HQ g4); [by eapply init_frame_trans |].
      intros Hs. unfold init_environ. by rewrite He4, (He3 Hs).
    - intros ret g4 Hf4 Hc. apply HE; [by eapply init_frame_trans | done]. }
  wp_step. destruct (HAVE_CUDA w).
  - apply wp_platform_init_cuda.
    + intros g3 Hf3 He3. apply Hrest; [by eapply init_frame_trans |].
      intros Hs. by rewrite (He3 Hs), He2.
    + intros ret g3 Hf3 Hc. apply HE; [by eapply init_frame_trans | done].
  - wp_step. apply Hrest; [done |]. by intros _.
Qed.

(** ** Initialisation: what [platform_init] does *)

Lemma assign_tunables_fields w pd sel g :
  let g' := assign_tunables w pd sel g in
  environ g' = environ g
  /\ nccl_proto_configured g' = nccl_proto_configured g
  /\ need_ordering g' = need_ordering g
  /\ support_gdr g' = support_gdr g
  /\ provider_filter g' = provider_filter g
  /\ trace g' = trace g.
Proof.
  unfold assign_tunables, set_domain_per_thread, set_selected_protocol,
    set_net_latency, set_nic_dup_conns.
  destruct pd as [pd|], (nic_dup_conns g =? 0), (ofi_nccl_net_latency w <? 0),
    (sel && bool_decide (ofi_nccl_protocol w = None)); done.
Qed.

Lemma extends_by_same_trace_r ok g g' g'' :
  extends_by ok g g' -> trace g'' = trace g' -> extends_by ok g g''.
Proof. intros (evs & H & F) Ht. exists evs. by rewrite Ht. Qed.

Lemma provider_selected_fields g :
  environ (provider_selected g) = environ g
  /\ nccl_proto_configured (provider_selected g) = nccl_proto_configured g
  /\ need_ordering (provider_selected g) = need_ordering g
  /\ support_gdr (provider_selected g) = support_gdr g
  /\ nic_dup_conns (provider_selected g) = nic_dup_conns g
  /\ net_latency (provider_selected g) = net_latency g
  /\ nccl_ofi_selected_protocol (provider_selected g)
     = nccl_ofi_selected_protocol g
  /\ global_domain_per_thread (provider_selected g)
     = global_domain_per_thread g
  /\ trace (provider_selected g) = trace g.
Proof. unfold provider_selected. by destruct (environ g !! "FI_PROVIDER"). Qed.


(** X14: whatever its outcome, [platform_init] changes no environment
    variable but the six of [init_vars] (the fork-safety variable of the
    libfabric version, [NCCL_NVLS_ENABLE], [NCCL_NET_FORCE_FLUSH],
    [NCCL_NVLSTREE_MAX_CHUNKSIZE], [NCCL_NVLS_CHUNKSIZE],
    [NCCL_TOPO_FILE]); it leaves the negotiation statics of
    [platform_config_endpoint] and the GDR support level as they are; and
    it touches no endpoint. *)
Theorem platform_init_frame (w : world) (g : globals) :
  let g' := (platform_init w g).2 in
  (forall var, var ∉ init_vars w -> environ g' !! var = environ g !! var)
  /\ nccl_proto_configured g' = nccl_proto_configured g
  /\ need_ordering g' = need_ordering g
  /\ support_gdr g' = support_gdr g
  /\ extends_by (fun e => negb (touches_endpoint e)) g g'.
Proof.
  apply (wp_returns (platform_init_body w)
           (fun _ g' =>
              (forall var, var ∉ init_vars w ->
                 environ g' !! var = environ g !! var)
              /\ nccl_proto_configured g' = nccl_proto_configured g
              /\ need_ordering g' = need_ordering g
              /\ support_gdr g' = support_gdr g
              /\ extends_by (fun e => negb (touches_endpoint e)) g g')).
  destruct (provider_selected_fields g)
    as (He & Hc & Hn & Hg & _ & _ & _ & _ & Ht).
  assert (Hframe : forall g', init_frame w (provider_selected g) g' ->
    (forall var, var ∉ init_vars w -> environ g' !! var = environ g !! var)
    /\ nccl_proto_configured g' = nccl_proto_configured g
    /\ need_ordering g' = need_ordering g
    /\ support_gdr g' = support_gdr g
    /\ extends_by (fun e => negb (touches_endpoint e)) g g').
  { intros g' []. split; [| split; [| split; [| split]]]; try congruence.
    - intros var Hv. rewrite if_environ0 by done. by rewrite He.
    - destruct if_trace0 as (evs & H & F). exists evs. by rewrite H, Ht. }
  apply wp_platform_init_body.
  - intros g_mid Hf _.
    destruct (Hframe _ Hf) as (H1 & H2 & H3 & H4 & H5).
    destruct (assign_tunables_fields w (platform_of w g) (select_efa_of g)
                g_mid) as (He' & Hc' & Hn' & Hg' & _ & Ht').
    cbv zeta in *. split; [| split; [| split; [| split]]]; try congruence.
    + intros var Hv. rewrite He'. by apply H1.
    + by eapply extends_by_same_trace_r.
  - intros ret g' Hf _. by apply Hframe.
Qed.

(** X15: the provider filter after [platform_init], whatever the
    outcome of the call: when [FI_PROVIDER] is unset the filter is [efa],
    also when the call fails later; when [FI_PROVIDER] is set, to [efa]
    or to anything else, the filter is what it was. *)
Theorem platform_init_provider_filter (w : world) (g : globals) :
  provider_filter (platform_init w g).2
  = match environ g !! "FI_PROVIDER" with
    | None => Some "efa"
    | Some _ => provider_filter g
    end.
Proof.
  apply (wp_returns (platform_init_body w)
           (fun _ g' =>
              provider_filter g'
              = match environ g !! "FI_PROVIDER" with
                | None => Some "efa"
                | Some _ => provider_filter g
                end)).
  assert (Hsel : provider_filter (provider_selected g)
                 = match environ g !! "FI_PROVIDER" with
                   | None => Some "efa"
                   | Some _ => provider_filter g
                   end).
  { unfold provider_selected. by destruct (environ g !! "FI_PROVIDER"). }
  apply wp_platform_init_body.
  - intros g_mid [] _.
    destruct (assign_tunables_fields w (platform_of w g) (select_efa_of g)
                g_mid) as (_ & _ & _ & _ & Hp & _).
    cbv zeta in *. congruence.
  - intros ret g' [] _. congruence.
Qed.

(** X16: a call of [platform_init] that does not return [0] has
    assigned none of the tunables: the duplicate connection count, the
    latency, the selected protocol and the domain-per-thread setting are
    what they were. *)
Theorem platform_init_failure (w : world) (g : globals) :
  (platform_init w g).1 <> Some 0 ->
  let g' := (platform_init w g).2 in
  nic_dup_conns g' = nic_dup_conns g
  /\ net_latency g' = net_latency g
  /\ nccl_ofi_selected_protocol g' = nccl_ofi_selected_protocol g
  /\ global_domain_per_thread g' = global_domain_per_thread g.
Proof.
  apply (wp_returns (platform_init_body w)
           (fun r g' =>
              r <> Some 0 ->
              nic_dup_conns g' = nic_dup_conns g
              /\ net_latency g' = net_latency g
              /\ nccl_ofi_selected_protocol g' = nccl_ofi_selected_protocol g
              /\ global_domain_per_thread g' = global_domain_per_thread g)).
  destruct (provider_selected_fields g)
    as (_ & _ & _ & _ & H1 & H2 & H3 & H4 & _).
  apply wp_platform_init_body.
  - intros g_mid _ _ Hne. done.
  - intros ret g' [] _ _. split; [| split; [| split]]; congruence.
Qed.

Lemma platform_init_failure_witness :
  let w := failing_setenv "NCCL_NVLS_CHUNKSIZE" ENOMEM
             (sample_world
                (files_of [(product_name_file, line "p3dn.24xlarge")])) in
  (platform_init w process_start).1 = Some (- ENOMEM)
  /\ nic_dup_conns (platform_init w process_start).2 = 0
  /\ global_domain_per_thread (platform_init w process_start).2 = 0.
Proof.
  split; [by vm_compute |].
  destruct (platform_init_failure
              (failing_setenv "NCCL_NVLS_CHUNKSIZE" ENOMEM
                 (sample_world
                    (files_of [(product_name_file, line "p3dn.24xlarge")])))
              process_start) as (H1 & _ & _ & H4).
  - by vm_compute.
  - split; [exact H1 | exact H4].
Defined.

(** What a call that returns [0] has done, when a failing [setenv] sets
    [errno]. *)
Lemma platform_init_success (w : world) (g : globals)
  (P : globals -> Prop) :
  setenv_sets_errno w ->
  (forall g_mid,
     init_frame w (provider_selected g) g_mid ->
     environ g_mid = init_environ w (platform_of w g) (environ g) ->
     P (assign_tunables w (platform_of w g) (select_efa_of g) g_mid)) ->
  (platform_init w g).1 = Some 0 -> P (platform_init w g).2.
Proof.
  intros Hs HP.
  apply (wp_returns (platform_init_body w) (fun r g' => r = Some 0 -> P g')).
  apply wp_platform_init_body.
  - intros g_mid Hf He _. apply HP; [done | by apply He].
  - intros ret g' _ Hc [= ->]. by destruct (setenv_sets_errno_exit w 0 Hs Hc).
Qed.

(** X17: the defaults of the platform. When [platform_init] returns [0]
    (and a failing [setenv] sets [errno]), each tunable without an
    override has the default of the platform: the duplicate connection
    count when it was [0], the latency when [OFI_NCCL_NET_LATENCY] is
    negative (150 when the platform is unknown or its latency negative),
    the protocol when [OFI_NCCL_PROTOCOL] is unset and the EFA provider
    is selected ([FI_PROVIDER] unset or [efa]), the domain-per-thread
    setting when its override is [-1] (0 when the platform is unknown).
    On an unknown platform, and for the protocol also when another
    provider is selected, the duplicate connection count and the protocol
    are left as they are. *)
Theorem platform_init_defaults (w : world) (g : globals) :
  setenv_sets_errno w ->
  (platform_init w g).1 = Some 0 ->
  let g' := (platform_init w g).2 in
  (nic_dup_conns g = 0 ->
   nic_dup_conns g'
   = match platform_of w g with
     | Some pd => default_dup_conns pd
     | None => 0
     end)
  /\ (ofi_nccl_net_latency w < 0 ->
      net_latency g'
      = match platform_of w g with
        | Some pd => if Qle_bool 0 (latency pd) then latency pd else 150 # 1
        | None => 150 # 1
        end)
  /\ (ofi_nccl_protocol w = None ->
      nccl_ofi_selected_protocol g'
      = match platform_of w g with
        | Some pd =>
            if select_efa_of g then default_protocol pd
            else nccl_ofi_selected_protocol g
        | None => nccl_ofi_selected_protocol g
        end)
  /\ (ofi_nccl_domain_per_thread w = -1 ->
      global_domain_per_thread g'
      = match platform_of w g with
        | Some pd => domain_per_thread pd
        | None => 0
        end).
Proof.
  intros Hs.
  apply (platform_init_success w g (fun g' =>
    (nic_dup_conns g = 0 ->
     nic_dup_conns g'
     = match platform_of w g with
       | Some pd => default_dup_conns pd
       | None => 0
       end)
    /\ (ofi_nccl_net_latency w < 0 ->
        net_latency g'
        = match platform_of w g with
          | Some pd => if Qle_bool 0 (latency pd) then latency pd else 150 # 1
          | None => 150 # 1
          end)
    /\ (ofi_nccl_protocol w = None ->
        nccl_ofi_selected_protocol g'
        = match platform_of w g with
          | Some pd =>
              if select_efa_of g then default_protocol pd
              else nccl_ofi_selected_protocol g
          | None => nccl_ofi_selected_protocol g
          end)
    /\ (ofi_nccl_domain_per_thread w = -1 ->
        global_domain_per_thread g'
        = match platform_of w g with
          | Some pd => domain_per_thread pd
          | None => 0
          end)) Hs).
  intros g_mid [] _.
  destruct (provider_selected_fields g)
    as (_ & _ & _ & _ & H1 & H2 & H3 & H4 & _).
  unfold assign_tunables, set_domain_per_thread, set_selected_protocol,
    set_net_latency, set_nic_dup_conns.
  rewrite H1 in if_nic_dup_conns0. rewrite H3 in if_protocol0.
  split; [| split; [| split]].
  - intros H0. rewrite H0 in if_nic_dup_conns0.
    destruct (platform_of w g) as [pd|]; simpl.
    + rewrite if_nic_dup_conns0. simpl.
      by destruct (ofi_nccl_net_latency w <? 0),
        (select_efa_of g && bool_decide (ofi_nccl_protocol w = None)).
    + by destruct (ofi_nccl_net_latency w <? 0),
        (select_efa_of g && bool_decide (ofi_nccl_protocol w = None)).
  - intros Hl. apply Z.ltb_lt in Hl. rewrite Hl.
    destruct (platform_of w g) as [pd|]; simpl.
    + by destruct (nic_dup_conns g_mid =? 0),
        (select_efa_of g && bool_decide (ofi_nccl_protocol w = None)).
    + by destruct (select_efa_of g && bool_decide (ofi_nccl_protocol w = None)).
  - intros Hp. rewrite Hp, bool_decide_eq_true_2 by done.
    rewrite andb_true_r.
    destruct (platform_of w g) as [pd|]; simpl.
    + by destruct (select_efa_of g), (nic_dup_conns g_mid =? 0),
        (ofi_nccl_net_latency w <? 0).
    + by destruct (select_efa_of g), (ofi_nccl_net_latency w <? 0).
  - intros Hd. rewrite Hd. simpl. done.
Qed.

Lemma platform_init_defaults_witness :
  let w := sample_world
             (files_of [(product_name_file, line "p5.48xlarge")]) in
  let g' := (platform_init w process_start).2 in
  nic_dup_conns g' = 0 /\ net_latency g' = 75 # 1
  /\ nccl_ofi_selected_protocol g' = "RDMA"
  /\ global_domain_per_thread g' = 0.
Proof.
  destruct (platform_init_defaults
              (sample_world
                 (files_of [(product_name_file, line "p5.48xlarge")]))
              process_start) as (H1 & H2 & H3 & H4).
  - intros var. discriminate.
  - by vm_compute.
  - split; [exact (H1 eq_refl) |]. split; [by apply H2 |].
    split; [exact (H3 eq_refl) | exact (H4 eq_refl)].
Defined.

(** ** Initialisation: the environment *)

Lemma lookup_setenv_default (var value : string) (env : gmap string string)
  (var' : string) :
  setenv_default var value env !! var'
  = if decide (var' = var) then Some (default value (env !! var))
    else env !! var'.
Proof.
  unfold setenv_default. destruct (env !! var) as [u|] eqn:Hu.
  - case_decide; [by subst | done].
  - case_decide; [subst; rewrite lookup_insert; by rewrite decide_True |].
    by rewrite lookup_insert_ne.
Qed.

Lemma lookup_init_environ_topology_ne w pd env var :
  var <> "NCCL_TOPO_FILE" ->
  init_environ_topology w pd env !! var = env !! var.
Proof.
  intros Hne. unfold init_environ_topology.
  destruct pd as [[? [topo|] ? ? ? ? ? ?]|]; try done.
  rewrite lookup_setenv_default. by rewrite decide_False.
Qed.

Ltac lookup_env :=
  repeat first
    [ rewrite lookup_setenv_default
    | rewrite decide_True by reflexivity
    | rewrite decide_False by discriminate
    | match goal with
      | |- context [if ?c then _ else _] =>
          lazymatch c with
          | decide _ => fail
          | _ => destruct c
          end
      end ].

(** X18: the environment after initialisation in a CUDA build. When
    [platform_init] returns [0] (and a failing [setenv] sets [errno]),
    the fork-safety variable of the libfabric version and the two chunk
    size variables are set: to the value the user gave them, and else to
    [1] and [524288]. [NCCL_NVLS_ENABLE] is [0] when it was unset and
    [ncclGetVersion] exists and gives a version below 2.18.5, and else
    what it was. [NCCL_NET_FORCE_FLUSH] is [0] when it was unset and the
    platform is known not to require a flush, and else what it was. *)
Theorem platform_init_cuda_environment (w : world) (g : globals) :
  setenv_sets_errno w -> HAVE_CUDA w = true ->
  (platform_init w g).1 = Some 0 ->
  let env := environ g in
  let env' := environ (platform_init w g).2 in
  env' !! fork_safe_var_name (fi_version w)
  = Some (default "1" (env !! fork_safe_var_name (fi_version w)))
  /\ env' !! "NCCL_NVLSTREE_MAX_CHUNKSIZE"
     = Some (default "524288" (env !! "NCCL_NVLSTREE_MAX_CHUNKSIZE"))
  /\ env' !! "NCCL_NVLS_CHUNKSIZE"
     = Some (default "524288" (env !! "NCCL_NVLS_CHUNKSIZE"))
  /\ env' !! "NCCL_NVLS_ENABLE"
     = (if nvls_to_disable w
        then Some (default "0" (env !! "NCCL_NVLS_ENABLE"))
        else env !! "NCCL_NVLS_ENABLE")
  /\ env' !! "NCCL_NET_FORCE_FLUSH"
     = (if match platform_of w g with
           | Some pd => negb (net_flush_required pd)
           | None => false
           end
        then Some (default "0" (env !! "NCCL_NET_FORCE_FLUSH"))
        else env !! "NCCL_NET_FORCE_FLUSH").
Proof.
  intros Hs Hcuda.
  apply (platform_init_success w g (fun g' =>
    environ g' !! fork_safe_var_name (fi_version w)
    = Some (default "1" (environ g !! fork_safe_var_name (fi_version w)))
    /\ environ g' !! "NCCL_NVLSTREE_MAX_CHUNKSIZE"
       = Some (default "524288" (environ g !! "NCCL_NVLSTREE_MAX_CHUNKSIZE"))
    /\ environ g' !! "NCCL_NVLS_CHUNKSIZE"
       = Some (default "524288" (environ g !! "NCCL_NVLS_CHUNKSIZE"))
    /\ environ g' !! "NCCL_NVLS_ENABLE"
       = (if nvls_to_disable w
          then Some (default "0" (environ g !! "NCCL_NVLS_ENABLE"))
          else environ g !! "NCCL_NVLS_ENABLE")
    /\ environ g' !! "NCCL_NET_FORCE_FLUSH"
       = (if match platform_of w g with
             | Some pd => negb (net_flush_required pd)
             | None => false
             end
          then Some (default "0" (environ g !! "NCCL_NET_FORCE_FLUSH"))
          else environ g !! "NCCL_NET_FORCE_FLUSH")) Hs).
  intros g_mid _ He.
  destruct (assign_tunables_fields w (platform_of w g) (select_efa_of g) g_mid)
    as (-> & _).
  rewrite He. unfold init_environ. rewrite Hcuda.
  set (flush := match platform_of w g with
                | Some pd => negb (net_flush_required pd)
                | None => false
                end).
  assert (Hfork : fork_safe_var_name (fi_version w) <> "NCCL_TOPO_FILE").
  { by destruct (fork_safe_var_name_cases (fi_version w)) as [-> | ->]. }
  rewrite !lookup_init_environ_topology_ne by done.
  unfold init_environ_cuda. fold flush.
  destruct (fork_safe_var_name_cases (fi_version w)) as [-> | ->];
    (split; [| split; [| split; [| split]]]); by lookup_env.
Qed.

Lemma platform_init_cuda_environment_witness :
  let w := sample_world
             (files_of [(product_name_file, line "p5.48xlarge")]) in
  let g := set_environ {[ "NCCL_NVLS_CHUNKSIZE" := "1048576" ]} 0
             process_start in
  let env' := environ (platform_init w g).2 in
  env' !! "FI_EFA_FORK_SAFE" = Some "1"
  /\ env' !! "NCCL_NVLSTREE_MAX_CHUNKSIZE" = Some "524288"
  /\ env' !! "NCCL_NVLS_CHUNKSIZE" = Some "1048576"
  /\ env' !! "NCCL_NVLS_ENABLE" = None
  /\ env' !! "NCCL_NET_FORCE_FLUSH" = Some "0".
Proof.
  refine (platform_init_cuda_environment
            (sample_world
               (files_of [(product_name_file, line "p5.48xlarge")]))
            (set_environ {[ "NCCL_NVLS_CHUNKSIZE" := "1048576" ]} 0
               process_start) _ _ _).
  - intros var. discriminate.
  - reflexivity.
  - by vm_compute.
Defined.

(** X19: the topology file. When [platform_init] returns [0] (and a
    failing [setenv] sets [errno]) on a platform whose entry names a
    topology, [NCCL_TOPO_FILE] holds what the user set it to, and else the
    path of that topology under [XML_DIR]; on an unknown platform, or one
    without a topology, [NCCL_TOPO_FILE] is what it was. *)
Theorem platform_init_topology (w : world) (g : globals) :
  setenv_sets_errno w ->
  (platform_init w g).1 = Some 0 ->
  environ (platform_init w g).2 !! "NCCL_TOPO_FILE"
  = match platform_of w g with
    | Some {| topology := Some topo |} =>
        Some (default (XML_DIR w +:+ "/" +:+ topo)
                (environ g !! "NCCL_TOPO_FILE"))
    | _ => environ g !! "NCCL_TOPO_FILE"
    end.
Proof.
  intros Hs.
  apply (platform_init_success w g (fun g' =>
    environ g' !! "NCCL_TOPO_FILE"
    = match platform_of w g with
      | Some {| topology := Some topo |} =>
          Some (default (XML_DIR w +:+ "/" +:+ topo)
                  (environ g !! "NCCL_TOPO_FILE"))
      | _ => environ g !! "NCCL_TOPO_FILE"
      end) Hs).
  intros g_mid _ He.
  destruct (assign_tunables_fields w (platform_of w g) (select_efa_of g) g_mid)
    as (-> & _).
  rewrite He. unfold init_environ.
  assert (Hcuda : (if HAVE_CUDA w
                   then init_environ_cuda w (platform_of w g) (environ g)
                   else environ g) !! "NCCL_TOPO_FILE"
                  = environ g !! "NCCL_TOPO_FILE").
  { destruct (HAVE_CUDA w); [| done]. unfold init_environ_cuda.
    destruct (fork_safe_var_name_cases (fi_version w)) as [-> | ->];
      by lookup_env. }
  unfold init_environ_topology.
  destruct (platform_of w g) as [[? [topo|] ? ? ? ? ? ?]|]; try done.
  rewrite lookup_setenv_default, decide_True by done. by rewrite Hcuda.
Qed.

Lemma platform_init_topology_witness :
  environ
    (platform_init
       (sample_world (files_of [(product_name_file, line "p4de.24xlarge")]))
       process_start).2 !! "NCCL_TOPO_FILE"
  = Some "/usr/share/aws-ofi-nccl/xml/p4de-24xl-topo.xml".
Proof.
  rewrite (platform_init_topology
             (sample_world
                (files_of [(product_name_file, line "p4de.24xlarge")]))
             process_start).
  - reflexivity.
  - intros var. discriminate.
  - by vm_compute.
Defined.

(** ** The fork-safety variable *)

(** X20: the name of the fork-safety variable changes at libfabric
    1.13: for a version word [v] (major number in the upper 16 bits, minor
    number in the lower 16), it is [FI_EFA_FORK_SAFE] from [0x1000D]
    (1.13) on and [RDMAV_FORK_SAFE] below. *)
Theorem fork_safe_var_name_threshold (v : Z) :
  0 <= v ->
  fork_safe_var_name v
  = if 65536 + 13 <=? v then "FI_EFA_FORK_SAFE" else "RDMAV_FORK_SAFE".
Proof.
  intros Hv. unfold fork_safe_var_name, FI_MAJOR, FI_MINOR.
  change 65535 with (Z.ones 16).
  rewrite Z.shiftr_div_pow2, Z.land_ones by lia.
  pose proof (Z.div_mod v (2 ^ 16) ltac:(lia)) as Hdm.
  pose proof (Z.mod_pos_bound v (2 ^ 16) ltac:(lia)) as Hm.
  assert (0 <= v / 2 ^ 16) by (apply Z.div_pos; lia).
  destruct (Z.leb_spec (65536 + 13) v) as [Hge | Hlt].
  - destruct (Z.gtb_spec (v / 2 ^ 16) 1) as [H1 | H1]; [done |].
    assert (v / 2 ^ 16 = 1) as -> by lia. simpl.
    destruct (Z.geb_spec (v mod 2 ^ 16) 13) as [H2 | H2]; [done | lia].
  - destruct (Z.gtb_spec (v / 2 ^ 16) 1) as [H1 | H1]; [lia |]. simpl.
    destruct (Z.eqb_spec (v / 2 ^ 16) 1) as [H2 | H2]; [| done]. simpl.
    destruct (Z.geb_spec (v mod 2 ^ 16) 13) as [H3 | H3]; [lia | done].
Qed.

Lemma fork_safe_var_name_threshold_witness :
  fork_safe_var_name (Z.lor (Z.shiftl 1 16) 12) = "RDMAV_FORK_SAFE"
  /\ fork_safe_var_name (Z.lor (Z.shiftl 1 16) 13) = "FI_EFA_FORK_SAFE"
  /\ fork_safe_var_name (Z.lor (Z.shiftl 2 16) 0) = "FI_EFA_FORK_SAFE".
Proof.
  split; [| split].
  - by rewrite (fork_safe_var_name_threshold (Z.lor (Z.shiftl 1 16) 12)).
  - by rewrite (fork_safe_var_name_threshold (Z.lor (Z.shiftl 1 16) 13)).
  - by rewrite (fork_safe_var_name_threshold (Z.lor (Z.shiftl 2 16) 0)).
Defined.

(** ** Linked lists *)

Lemma is_list_inj (h : heap) (p : option ptr) (l1 l2 : list ptr) :
  is_list h p l1 -> is_list h p l2 -> l1 = l2.
Proof.
  revert p l2. induction l1 as [|a l1 IH]; intros p [|b l2]; simpl.
  - done.
  - intros -> [? _]. discriminate.
  - intros [-> _] ?. discriminate.
  - intros [-> (i1 & H1 & L1)] [[= <-] (i2 & H2 & L2)].
    rewrite H1 in H2. injection H2 as <-. f_equal. by eapply IH.
Qed.

Lemma is_list_app (h : heap) (p : option ptr) (l1 l2 : list ptr) :
  is_list h p (l1 ++ l2) -> exists p', is_list h p' l2.
Proof.
  revert p. induction l1 as [|a l1 IH]; intros p; simpl.
  - intros H. by exists p.
  - intros [_ (i & _ & L)]. by eapply IH.
Qed.

Lemma is_list_NoDup (h : heap) (p : option ptr) (l : list ptr) :
  is_list h p l -> NoDup l.
Proof.
  revert p. induction l as [|q l IH]; intros p; [constructor |].
  intros Hl. pose proof Hl as [-> (info & Hq & L)].
  constructor; [| by eapply IH].
  intros Hin. apply list_elem_of_split in Hin as (l1 & l2 & ->).
  destruct (is_list_app _ _ _ _ L) as (p' & L').
  assert (p' = Some q) as -> by by destruct L'.
  pose proof (is_list_inj _ _ _ _ Hl L') as Heq.
  apply (f_equal length) in Heq. simpl in Heq.
  rewrite length_app in Heq. simpl in Heq. lia.
Qed.

Lemma is_list_dom (h : heap) (p : option ptr) (l : list ptr) (q : ptr) :
  is_list h p l -> q ∈ l -> is_Some (h !! q).
Proof.
  revert p. induction l as [|a l IH]; intros p Hl Hin.
  - by apply elem_of_nil in Hin.
  - destruct Hl as [-> (info & Ha & L)].
    apply elem_of_cons in Hin as [-> | Hin]; [by eexists | by eapply IH].
Qed.

(** ** The first loop of [platform_sort_rails] *)

Lemma rails_of_vf_cons_same files h v q l :
  vf_idx_at files h q = Some v ->
  rails_of_vf files h v (q :: l) = q :: rails_of_vf files h v l.
Proof. intros H. unfold rails_of_vf. by rewrite filter_cons_True. Qed.

Lemma rails_of_vf_cons_other files h v v' q l :
  vf_idx_at files h q = Some v' -> v' <> v ->
  rails_of_vf files h v (q :: l) = rails_of_vf files h v l.
Proof.
  intros H Hne. unfold rails_of_vf. rewrite filter_cons_False; [done |].
  rewrite H. congruence.
Qed.

(** One iteration of the first loop that goes on. *)
Lemma assign_rails_step files h todo q info (n0 n1 : nat) arr arr' :
  h !! q = Some info ->
  assign_rails files h (S todo) (Some q) [Z.of_nat n0; Z.of_nat n1] arr
  = Sorted arr' ->
  (get_rail_vf_idx files info = 0 /\ arr !! n0 = Some None
   /\ assign_rails files h todo (next info)
        [Z.of_nat (S n0); Z.of_nat n1] (<[n0 := Some q]> arr) = Sorted arr')
  \/ (get_rail_vf_idx files info = 1 /\ arr !! n1 = Some None
      /\ assign_rails files h todo (next info)
           [Z.of_nat n0; Z.of_nat (S n1)] (<[n1 := Some q]> arr)
         = Sorted arr').
Proof.
  intros Hq. cbn [assign_rails]. rewrite Hq.
  destruct (Z.ltb_spec (get_rail_vf_idx files info) 0) as [? | Hge];
    [done |].
  destruct (Z.geb_spec (get_rail_vf_idx files info) 2) as [? | Hlt];
    [done |].
  cbn [orb].
  assert (get_rail_vf_idx files info = 0 \/ get_rail_vf_idx files info = 1)
    as [-> | ->] by lia.
  - change (Z.to_nat 0) with 0%nat.
    cbn [lookup list_lookup insert list_insert].
    rewrite Nat2Z.id, !Nat2Z.inj_succ, <- !Z.add_1_r.
    destruct (arr !! n0) as [[x|]|]; try done. intros H. by left.
  - change (Z.to_nat 1) with 1%nat.
    cbn [lookup list_lookup insert list_insert].
    rewrite Nat2Z.id, !Nat2Z.inj_succ, <- !Z.add_1_r.
    destruct (arr !! n1) as [[x|]|]; try done. intros H. by right.
Qed.

(** What the first loop has done when it completes. *)
Lemma assign_rails_sorted files (h : heap) (todo : nat) :
  forall (l : list ptr) (p : option ptr) (n0 n1 : nat)
    (arr arr' : list (option ptr)),
  is_list h p l ->
  assign_rails files h todo p [Z.of_nat n0; Z.of_nat n1] arr = Sorted arr' ->
  length (take todo l) = todo
  /\ Forall (fun q => vf_idx_at files h q = Some 0
                      \/ vf_idx_at files h q = Some 1) (take todo l)
  /\ length arr' = length arr
  /\ (forall i x, arr !! i = Some (Some x) -> arr' !! i = Some (Some x))
  /\ (forall k x, rails_of_vf files h 0 (take todo l) !! k = Some x ->
        arr' !! (n0 + k)%nat = Some (Some x))
  /\ (forall k x, rails_of_vf files h 1 (take todo l) !! k = Some x ->
        arr' !! (n1 + k)%nat = Some (Some x)).
Proof.
  induction todo as [|todo IH]; intros l p n0 n1 arr arr' Hl Hrun.
  - simpl in Hrun. injection Hrun as <-. rewrite take_0.
    split; [done |]. split; [constructor |]. split; [done |].
    split; [done |].
    split; intros k x Hk; unfold rails_of_vf in Hk;
      by rewrite filter_nil, lookup_nil in Hk.
  - destruct l as [|q l].
    { simpl in Hl. subst p. done. }
    destruct Hl as [-> (info & Hq & Hl)].
    assert (Hvf : vf_idx_at files h q = Some (get_rail_vf_idx files info)).
    { unfold vf_idx_at. by rewrite Hq. }
    rewrite firstn_cons.
    destruct (assign_rails_step _ _ _ _ _ _ _ _ _ Hq Hrun)
      as [(Hv & Hfree & Hrec) | (Hv & Hfree & Hrec)];
      rewrite Hv in Hvf;
      destruct (IH _ _ _ _ _ _ Hl Hrec) as (H1 & H2 & H3 & H4 & H5 & H6).
    + split; [simpl; by rewrite H1 |].
      split; [constructor; [by left | done] |].
      split; [by rewrite H3, length_insert |].
      split.
      { intros i x Hi. apply H4. rewrite list_lookup_insert_ne; [done |].
        intros <-. congruence. }
      rewrite (rails_of_vf_cons_same _ _ _ _ _ Hvf).
      rewrite (rails_of_vf_cons_other _ _ 1 0 _ _ Hvf) by done.
      split; [| done].
      intros [|k] x Hk.
      * injection Hk as <-. rewrite Nat.add_0_r. apply H4.
        apply list_lookup_insert_eq. by eapply lookup_lt_Some.
      * rewrite <- Nat.add_succ_comm. by apply H5.
    + split; [simpl; by rewrite H1 |].
      split; [constructor; [by right | done] |].
      split; [by rewrite H3, length_insert |].
      split.
      { intros i x Hi. apply H4. rewrite list_lookup_insert_ne; [done |].
        intros <-. congruence. }
      rewrite (rails_of_vf_cons_same _ _ _ _ _ Hvf).
      rewrite (rails_of_vf_cons_other _ _ 0 1 _ _ Hvf) by done.
      split; [done |].
      intros [|k] x Hk.
      * injection Hk as <-. rewrite Nat.add_0_r. apply H4.
        apply list_lookup_insert_eq. by eapply lookup_lt_Some.
      * rewrite <- Nat.add_succ_comm. by apply H6.
Qed.

(** The first loop completes when the slots it is going to use are free
    and distinct. *)
Lemma assign_rails_completes files (h : heap) (seg : list ptr) :
  forall (l' : list ptr) (p : option ptr) (n0 n1 : nat)
    (arr : list (option ptr)),
  is_list h p (seg ++ l') ->
  Forall (fun q => vf_idx_at files h q = Some 0
                   \/ vf_idx_at files h q = Some 1) seg ->
  (forall k, (k < length (rails_of_vf files h 0 seg))%nat ->
     arr !! (n0 + k)%nat = Some None) ->
  (forall k, (k < length (rails_of_vf files h 1 seg))%nat ->
     arr !! (n1 + k)%nat = Some None) ->
  (forall k k', (k < length (rails_of_vf files h 0 seg))%nat ->
     (k' < length (rails_of_vf files h 1 seg))%nat ->
     (n0 + k)%nat <> (n1 + k')%nat) ->
  exists arr',
    assign_rails files h (length seg) p [Z.of_nat n0; Z.of_nat n1] arr
    = Sorted arr'.
Proof.
  induction seg as [|q seg IH]; intros l' p n0 n1 arr Hl Hall H0 H1 Hd.
  - by eexists.
  - destruct Hl as [-> (info & Hq & Hl)].
    apply Forall_cons in Hall as [Hvq Hall].
    assert (Hvf : vf_idx_at files h q = Some (get_rail_vf_idx files info)).
    { unfold vf_idx_at. by rewrite Hq. }
    cbn [length assign_rails]. rewrite Hq.
    rewrite Hvf in Hvq. destruct Hvq as [[= Hv] | [= Hv]]; rewrite Hv in *.
    + rewrite (rails_of_vf_cons_same _ _ _ _ _ Hvf) in H0, Hd.
      rewrite (rails_of_vf_cons_other _ _ 1 0 _ _ Hvf) in H1, Hd by done.
      cbn [length] in H0, Hd.
      change (Z.to_nat 0) with 0%nat.
      cbn [Z.ltb Z.geb Z.compare orb lookup list_lookup insert list_insert].
      rewrite Nat2Z.id. specialize (H0 0%nat ltac:(lia)) as Hfree.
      rewrite Nat.add_0_r in Hfree. rewrite Hfree.
      rewrite Z.add_1_r, <- Nat2Z.inj_succ.
      apply (IH l').
      * done.
      * done.
      * intros k Hk. rewrite list_lookup_insert_ne by lia.
        rewrite Nat.add_succ_comm. apply H0. lia.
      * intros k' Hk'. rewrite list_lookup_insert_ne.
        -- by apply H1.
        -- specialize (Hd 0%nat k' ltac:(lia) Hk'). lia.
      * intros k k' Hk Hk'. specialize (Hd (S k) k' ltac:(lia) Hk'). lia.
    + rewrite (rails_of_vf_cons_same _ _ _ _ _ Hvf) in H1, Hd.
      rewrite (rails_of_vf_cons_other _ _ 0 1 _ _ Hvf) in H0, Hd by done.
      cbn [length] in H1, Hd.
      change (Z.to_nat 1) with 1%nat.
      cbn [Z.ltb Z.geb Z.compare Pos.compare Pos.compare_cont orb lookup
           list_lookup insert list_insert].
      rewrite Nat2Z.id. specialize (H1 0%nat ltac:(lia)) as Hfree.
      rewrite Nat.add_0_r in Hfree. rewrite Hfree.
      rewrite Z.add_1_r, <- Nat2Z.inj_succ.
      apply (IH l').
      * done.
      * done.
      * intros k Hk. rewrite list_lookup_insert_ne.
        -- by apply H0.
        -- specialize (Hd k 0%nat Hk ltac:(lia)). lia.
      * intros k' Hk'. rewrite list_lookup_insert_ne by lia.
        rewrite Nat.add_succ_comm. apply H1. lia.
      * intros k k' Hk Hk'. specialize (Hd k (S k') Hk ltac:(lia)). lia.
Qed.

(** The rails of index 0 followed by those of index 1 are the rails. *)
Lemma rails_partition files (h : heap) (seg : list ptr) :
  Forall (fun q => vf_idx_at files h q = Some 0
                   \/ vf_idx_at files h q = Some 1) seg ->
  rails_of_vf files h 0 seg ++ rails_of_vf files h 1 seg ≡ₚ seg.
Proof.
  induction seg as [|q seg IH]; intros Hall; [done |].
  apply Forall_cons in Hall as [[Hv | Hv] Hall].
  - rewrite (rails_of_vf_cons_same _ _ _ _ _ Hv).
    rewrite (rails_of_vf_cons_other _ _ 1 0 _ _ Hv) by done.
    simpl. by rewrite IH.
  - rewrite (rails_of_vf_cons_same _ _ _ _ _ Hv).
    rewrite (rails_of_vf_cons_other _ _ 0 1 _ _ Hv) by done.
    rewrite <- Permutation_middle. by rewrite IH.
Qed.

Lemma rails_of_vf_index files (h : heap) (v : Z) (seg : list ptr) (q : ptr) :
  q ∈ rails_of_vf files h v seg -> vf_idx_at files h q = Some v /\ q ∈ seg.
Proof. unfold rails_of_vf. by rewrite list_elem_of_filter. Qed.

(** ** The second loop of [platform_sort_rails] *)

Lemma set_next_set_next (a b : option ptr) (info : fi_info) :
  set_next a (set_next b info) = set_next a info.
Proof. done. Qed.

Lemma relink_rails_sorted (cur : list ptr) :
  forall (pre : list ptr) (h : heap) (arr : list (option ptr)) (n : nat),
  arr = Some <$> (pre ++ cur) -> n = length (pre ++ cur) ->
  NoDup cur -> (forall q, q ∈ cur -> is_Some (h !! q)) ->
  exists h',
    relink_rails arr n (length cur) (length pre) (head cur) h = Some h'
    /\ is_list h' (head cur) cur
    /\ (forall q, q ∉ cur -> h' !! q = h !! q)
    /\ (forall q info, h !! q = Some info ->
          exists nxt, h' !! q = Some (set_next nxt info)).
Proof.
  induction cur as [|p cur IH]; intros pre h arr n Harr Hn Hnd Hdom.
  - exists h. split; [done |]. split; [done |]. split; [done |].
    intros q info Hq. exists (next info). by rewrite set_next_id.
  - apply NoDup_cons in Hnd as [Hp Hnd].
    destruct (Hdom p ltac:(left)) as [info Hinfo].
    cbn [length relink_rails head].
    assert (Hi : arr !! length pre = Some (Some p)).
    { rewrite Harr, list_lookup_fmap, lookup_app_r by lia.
      by rewrite Nat.sub_diag. }
    rewrite Hi, Hinfo.
    set (nxt := if (length pre =? n - 1)%nat then None
                else default None (arr !! S (length pre))).
    assert (Hnxt : nxt = head cur).
    { unfold nxt. rewrite Hn, length_app. cbn [length].
      destruct cur as [|c cur].
      - simpl. replace (length pre + 1 - 1)%nat with (length pre) by lia.
        by rewrite Nat.eqb_refl.
      - destruct (Nat.eqb_spec (length pre)
                    (length pre + S (length (c :: cur)) - 1)) as [He | _].
        { simpl in He. lia. }
        rewrite Harr, list_lookup_fmap, lookup_app_r by lia.
        replace (S (length pre) - length pre)%nat with 1%nat by lia. done. }
    rewrite Hnxt.
    destruct (IH (pre ++ [p]) (<[p := set_next (head cur) info]> h) arr n)
      as (h' & Hrun & Hlist & Hout & Hkeep).
    + by rewrite <- app_assoc.
    + by rewrite <- app_assoc.
    + done.
    + intros q Hq. destruct (decide (q = p)) as [-> | Hne].
      * rewrite lookup_insert. by rewrite decide_True.
      * rewrite lookup_insert_ne by done. apply Hdom. by right.
    + rewrite length_app in Hrun. cbn [length] in Hrun.
      rewrite Nat.add_1_r in Hrun.
      exists h'. split; [exact Hrun |].
      assert (Hp' : h' !! p = Some (set_next (head cur) info)).
      { rewrite (Hout p Hp). rewrite lookup_insert. by rewrite decide_True. }
      split; [| split].
      * split; [done |]. eexists. split; [exact Hp' | done].
      * intros q Hq. apply not_elem_of_cons in Hq as [Hne Hq].
        rewrite (Hout q Hq). by rewrite lookup_insert_ne.
      * intros q info' Hq. destruct (decide (q = p)) as [-> | Hne].
        -- rewrite Hinfo in Hq. injection Hq as <-. by eexists.
        -- apply Hkeep. by rewrite lookup_insert_ne.
Qed.

(** ** [platform_sort_rails] on the lists it sorts *)

Lemma head_of_sorted (s : list ptr) :
  default None ((Some <$> s) !! 0%nat) = head s.
Proof. by destruct s. Qed.

(** The array that the first loop leaves: the rails of index 0, then
    those of index 1; so that either no rail has the index 1, or exactly
    two rails have the index 0. *)
Lemma sort_rails_stage_sorted files (h : heap) (info_list : option ptr)
  (num_rails : Z) (l : list ptr) (arr : list (option ptr)) :
  is_list h info_list l ->
  sort_rails_stage files info_list num_rails h = Sorted arr ->
  let seg := take (Z.to_nat num_rails) l in
  length seg = Z.to_nat num_rails
  /\ sortable files h seg
  /\ arr = Some <$> (rails_of_vf files h 0 seg ++ rails_of_vf files h 1 seg).
Proof.
  intros Hl Hrun seg. unfold sort_rails_stage in Hrun.
  change [0; 2] with [Z.of_nat 0; Z.of_nat 2] in Hrun.
  destruct (assign_rails_sorted _ _ _ _ _ _ _ _ _ Hl Hrun)
    as (Hlen & Hall & Harr & _ & H0 & H1).
  fold seg in Hlen, Hall, H0, H1.
  rewrite length_replicate in Harr.
  pose proof (rails_partition _ _ _ Hall) as Hperm.
  pose proof (Permutation_length Hperm) as Hcount.
  rewrite length_app, Hlen in Hcount.
  set (zs := rails_of_vf files h 0 seg) in *.
  set (os := rails_of_vf files h 1 seg) in *.
  assert (Hshape : os = [] \/ length zs = 2%nat).
  { destruct os as [|o os'] eqn:Hos; [by left | right].
    assert (2 <= length zs)%nat.
    { destruct (lookup_lt_is_Some_2 (o :: os') (length os'))
        as [x Hx]; [simpl; lia |].
      apply H1, lookup_lt_Some in Hx. simpl in Hcount. lia. }
    destruct (decide (length zs = 2%nat)) as [| Hne]; [done |].
    destruct (lookup_lt_is_Some_2 zs 2) as [x Hx]; [lia |].
    pose proof (H0 _ _ Hx) as Hx0.
    pose proof (H1 0%nat o eq_refl) as Ho1.
    simpl in Hx0, Ho1. rewrite Hx0 in Ho1. injection Ho1 as ->.
    apply list_elem_of_lookup_2, rails_of_vf_index in Hx as [Hv0 _].
    assert (o ∈ rails_of_vf files h 1 seg) as Hin by (fold os; rewrite Hos; left).
    apply rails_of_vf_index in Hin as [Hv1 _]. congruence. }
  split; [done |]. split; [by split |].
  apply list_eq. intros i. rewrite list_lookup_fmap.
  destruct (decide (i < length zs)%nat) as [Hi | Hi].
  - rewrite lookup_app_l by done.
    destruct (lookup_lt_is_Some_2 zs i Hi) as [x Hx].
    rewrite Hx. apply (H0 i x Hx).
  - rewrite lookup_app_r by lia.
    destruct (decide (i < length zs + length os)%nat) as [Hi' | Hi'].
    + destruct Hshape as [Hnil | H2]; [rewrite Hnil in Hi'; simpl in Hi'; lia |].
      destruct (lookup_lt_is_Some_2 os (i - length zs)) as [x Hx]; [lia |].
      rewrite Hx. pose proof (H1 _ _ Hx) as Hx1.
      replace (2 + (i - length zs))%nat with i in Hx1 by lia. done.
    + rewrite (lookup_ge_None_2 os) by lia.
      apply lookup_ge_None_2. lia.
Qed.

(** On a list that can be sorted, the first loop completes. *)
Lemma sort_rails_stage_completes files (h : heap) (info_list : option ptr)
  (num_rails : Z) (l : list ptr) :
  is_list h info_list l ->
  (Z.to_nat num_rails <= length l)%nat ->
  sortable files h (take (Z.to_nat num_rails) l) ->
  exists arr, sort_rails_stage files info_list num_rails h = Sorted arr.
Proof.
  intros Hl Hlen [Hall Hshape]. unfold sort_rails_stage.
  set (n := Z.to_nat num_rails) in *. set (seg := take n l) in *.
  assert (Hseg : length seg = n) by (unfold seg; rewrite length_take; lia).
  pose proof (rails_partition _ _ _ Hall) as Hperm.
  pose proof (Permutation_length Hperm) as Hcount.
  rewrite length_app, Hseg in Hcount.
  change [0; 2] with [Z.of_nat 0; Z.of_nat 2].
  cut (exists arr,
         assign_rails files h (length seg) info_list
           [Z.of_nat 0; Z.of_nat 2] (replicate n None) = Sorted arr).
  { by rewrite Hseg. }
  apply (assign_rails_completes files h seg (drop n l)).
  - unfold seg. by rewrite take_drop.
  - done.
  - intros k Hk. apply lookup_replicate_2. lia.
  - intros k Hk. apply lookup_replicate_2.
    destruct Hshape as [Hnil | H2]; [rewrite Hnil in Hk; simpl in Hk; lia |].
    lia.
  - intros k k' Hk Hk'.
    destruct Hshape as [Hnil | H2]; [rewrite Hnil in Hk'; simpl in Hk'; lia |].
    lia.
Qed.

(** X21: what [platform_sort_rails] makes of a list that it sorts.
    Let the first [num_rails] nodes of the list have VF indices 0 or 1
    only, with either no node of index 1 or exactly two nodes of index 0.
    Then the call has defined behaviour; the caller's list becomes the
    nodes of index 0 followed by the nodes of index 1, each group in the
    order it had (a stable partition of those [num_rails] nodes), and
    ends there. Every node of the memory is still there, with nothing
    changed but its link; nodes outside the first [num_rails] are not
    changed at all. *)
Theorem platform_sort_rails_sorted (files : filesystem) (h : heap)
  (info_list : option ptr) (num_rails : Z) (l : list ptr) :
  0 < num_rails -> is_list h info_list l ->
  (Z.to_nat num_rails <= length l)%nat ->
  let seg := take (Z.to_nat num_rails) l in
  sortable files h seg ->
  let sorted := rails_of_vf files h 0 seg ++ rails_of_vf files h 1 seg in
  sorted ≡ₚ seg
  /\ exists h',
       platform_sort_rails files info_list num_rails h
       = Some (head sorted, h')
       /\ is_list h' (head sorted) sorted
       /\ (forall q, q ∉ seg -> h' !! q = h !! q)
       /\ (forall q info, h !! q = Some info ->
             exists nxt, h' !! q = Some (set_next nxt info)).
Proof.
  intros Hpos Hl Hlen seg Hsort sorted.
  pose proof (rails_partition _ _ _ (proj1 Hsort)) as Hperm.
  change (sorted ≡ₚ seg) in Hperm.
  split; [exact Hperm |].
  destruct (sort_rails_stage_completes _ _ _ _ _ Hl Hlen Hsort) as [arr Hrun].
  destruct (sort_rails_stage_sorted _ _ _ _ _ _ Hl Hrun)
    as (Hseg & _ & Harr).
  fold seg in Hseg, Harr. fold sorted in Harr.
  assert (Hnd : NoDup sorted).
  { rewrite Hperm. unfold seg.
    pose proof (is_list_NoDup _ _ _ Hl) as Hndl.
    rewrite <- (take_drop (Z.to_nat num_rails) l) in Hndl.
    by apply NoDup_app in Hndl as [? _]. }
  assert (Hdom : forall q, q ∈ sorted -> is_Some (h !! q)).
  { intros q Hq. rewrite Hperm in Hq. apply (is_list_dom _ _ _ _ Hl).
    unfold seg in Hq. apply elem_of_take in Hq as (i & Hi & _).
    by eapply list_elem_of_lookup_2. }
  destruct (relink_rails_sorted sorted [] h arr (length sorted))
    as (h' & Hrel & Hlist & Hout & Hkeep); [done | done | done | done |].
  exists h'. unfold platform_sort_rails.
  destruct (Z.leb_spec num_rails 0) as [? | _]; [lia |].
  rewrite Hrun. cbn [length] in Hrel.
  assert (Hn : Z.to_nat num_rails = length sorted).
  { by rewrite (Permutation_length Hperm). }
  rewrite Hn, Harr, head_of_sorted. rewrite <- Harr, Hrel. simpl.
  split; [done |]. split; [done |]. split; [| done].
  intros q Hq. apply Hout. by rewrite Hperm.
Qed.

Lemma platform_sort_rails_sorted_witness :
  let files := four_guids "0000:0000:0000:0001" "0000:0000:0000:0000"
                          "0000:0000:0000:0001" "0000:0000:0000:0000" in
  exists h',
    platform_sort_rails files (Some 1%positive) 4 four_rails
    = Some (Some 2%positive, h')
    /\ is_list h' (Some 2%positive) [2; 4; 1; 3]%positive.
Proof.
  intros files.
  destruct (platform_sort_rails_sorted files four_rails (Some 1%positive) 4
              [1; 2; 3; 4]%positive)
    as (_ & h' & Hrun & Hlist & _).
  - done.
  - repeat (split; [reflexivity |]; eexists; split; [reflexivity |]).
    reflexivity.
  - simpl. lia.
  - split.
    + repeat constructor; by vm_compute; auto.
    + right. by vm_compute.
  - exists h'. split; [exact Hrun | exact Hlist].
Defined.

(** X22: [platform_sort_rails] sorts no other list. When the first
    [num_rails] nodes are not as above (there are fewer than [num_rails]
    nodes, or a node has a VF index other than 0 and 1, as it has when
    its identifier cannot be read, or nodes of index 1 come with a number
    of nodes of index 0 other than two), a call either leaves the
    caller's list and every node as they are, or has no defined behaviour
    (it reads past the end of its array). *)
Theorem platform_sort_rails_unsorted (files : filesystem) (h : heap)
  (info_list : option ptr) (num_rails : Z) (l : list ptr) :
  is_list h info_list l ->
  ~ ((Z.to_nat num_rails <= length l)%nat
     /\ sortable files h (take (Z.to_nat num_rails) l)) ->
  platform_sort_rails files info_list num_rails h = Some (info_list, h)
  \/ platform_sort_rails files info_list num_rails h = None.
Proof.
  intros Hl Hnot. unfold platform_sort_rails.
  destruct (num_rails <=? 0); [by left |].
  destruct (sort_rails_stage files info_list num_rails h) as [arr| |] eqn:Hrun;
    [| by left | by right].
  destruct Hnot.
  destruct (sort_rails_stage_sorted _ _ _ _ _ _ Hl Hrun) as (Hlen & Hs & _).
  split; [| done]. rewrite length_take in Hlen. lia.
Qed.

Lemma platform_sort_rails_unsorted_witness :
  let files := four_guids "0000:0000:0000:0000" "0000:0000:0000:0000"
                          "0000:0000:0000:0000" "0000:0000:0000:0001" in
  platform_sort_rails files (Some 1%positive) 4 four_rails
  = Some (Some 1%positive, four_rails).
Proof.
  intros files.
  destruct (platform_sort_rails_unsorted files four_rails (Some 1%positive) 4
              [1; 2; 3; 4]%positive) as [H | H].
  - repeat (split; [reflexivity |]; eexists; split; [reflexivity |]).
    reflexivity.
  - intros [_ [_ [H | H]]]; by vm_compute in H.
  - exact H.
  - by vm_compute in H.
Defined.

(** ** The identifier file of a rail *)

Lemma fgets_chars_prefix (guid rest : string) :
  has_char newline guid = false ->
  fgets_chars (String.length guid) (guid +:+ rest) = (guid, false).
Proof.
  induction guid as [|c guid IH]; [done |]. cbn [has_char].
  intros [Hc Hg]%orb_false_elim.
  change (fgets_chars (S (String.length guid)) (String c (guid +:+ rest))
          = (String c guid, false)).
  cbn [fgets_chars]. rewrite Hc. by rewrite IH.
Qed.

Lemma fgets_chars_exhausted (n : nat) (data : string) :
  (fgets_chars n data).2 = true
  <-> (String.length data < n)%nat /\ has_char newline data = false.
Proof.
  revert data. induction n as [|n IH]; intros data.
  - simpl. split; [done | lia].
  - destruct data as [|c data]; cbn [fgets_chars has_char String.length].
    + simpl. split; [intros _; split; [lia | done] | done].
    + destruct (Ascii.eqb c newline); cbn [orb].
      * simpl. split; [done | by intros [_ ?]].
      * specialize (IH data). destruct (fgets_chars n data) as [buf eof].
        simpl in *. rewrite IH.
        split; intros [? ?]; split; [lia | done | lia | done].
Qed.

Lemma fgets_chars_nothing (n : nat) (data : string) :
  (fgets_chars (S n) data).1 = EmptyString <-> data = EmptyString.
Proof.
  destruct data as [|c data]; cbn [fgets_chars]; [done |].
  destruct (Ascii.eqb c newline); [done |].
  by destruct (fgets_chars n data).
Qed.

Lemma digit_not_space (d : ascii) (v : Z) :
  digit_val d = Some v -> isspace d = false.
Proof.
  unfold digit_val, isspace. intros Hd.
  destruct (_ && _)%nat eqn:Hdig in Hd; [| done].
  apply andb_prop in Hdig as [H1 H2]. apply Nat.leb_le in H1, H2.
  apply orb_false_intro.
  - apply Nat.eqb_neq. lia.
  - apply andb_false_intro2. apply Nat.leb_gt. lia.
Qed.

Lemma digit_not_sign (d : ascii) (v : Z) (T : Type) (a b c : T) :
  digit_val d = Some v ->
  match d with
  | "-"%char => a
  | "+"%char => b
  | _ => c
  end = c.
Proof.
  intros Hd.
  destruct d as [[] [] [] [] [] [] [] []]; try reflexivity; discriminate Hd.
Qed.

(** The read of the identifier gives nothing exactly when the file cannot
    be read. *)
Lemma read_guid_unreadable (files : filesystem) (info : fi_info) :
  read_guid files info = None <-> guid_unreadable files info.
Proof.
  unfold read_guid, guid_unreadable, fgets.
  destruct (files (guid_file info)) as [fp|]; [| done].
  change (20 - 1)%nat with 19%nat.
  pose proof (fgets_chars_exhausted 19 (f_data fp)) as Hex.
  pose proof (fgets_chars_nothing 18 (f_data fp)) as Hno.
  destruct (fgets_chars 19 (f_data fp)) as [buf eof]. simpl in Hex, Hno.
  destruct eof; cbn [andb].
  - destruct (proj1 Hex eq_refl) as [Hlen Hnl].
    destruct (f_error fp); [split; [by right | done] |].
    destruct (String.eqb_spec buf EmptyString) as [-> | Hne].
    + split; [intros _; left; by apply Hno | done].
    + split; [done |]. intros [Hd | [? _]]; [| done].
      destruct Hne. by apply Hno.
  - split; [done |]. intros [Hd | (_ & Hlen & Hnl)].
    + rewrite Hd in Hex. simpl in Hex.
      by specialize (proj2 Hex (conj ltac:(lia) eq_refl)).
    + by specialize (proj2 Hex (conj Hlen Hnl)).
Qed.

(** X23: an identifier that cannot be read. [get_rail_vf_idx] gives up
    on the read exactly when the identifier file of the device cannot be
    opened, or is empty, or fails before 19 characters or a newline have
    been read; its result is then [-EIO]. *)
Theorem get_rail_vf_idx_unreadable (files : filesystem) (info : fi_info) :
  (read_guid files info = None <-> guid_unreadable files info)
  /\ (guid_unreadable files info -> get_rail_vf_idx files info = - EIO).
Proof.
  split; [apply read_guid_unreadable |].
  intros Hu%read_guid_unreadable. unfold get_rail_vf_idx. by rewrite Hu.
Qed.

(** X24: the VF index is read in base 10 from the first 19 characters of
    the file. When the identifier file of the device starts with 19
    characters, none of them a newline or a NUL, that have a colon at
    index 14 and two decimal digits at indices 17 and 18,
    [get_rail_vf_idx] returns ten times the first digit plus the second,
    whatever the other characters are and whatever follows in the file. *)
Theorem get_rail_vf_idx_decimal (files : filesystem) (info : fi_info)
  (fp : file) (guid rest : string) (d1 d2 : ascii) (a b : Z) :
  files (guid_file info) = Some fp ->
  f_data fp = guid +:+ rest ->
  String.length guid = 19%nat ->
  has_char newline guid = false -> has_char NUL guid = false ->
  String.get 14 guid = Some ":"%char ->
  string_drop 17 guid = String d1 (String d2 EmptyString) ->
  digit_val d1 = Some a -> digit_val d2 = Some b ->
  get_rail_vf_idx files info = 10 * a + b.
Proof.
  intros Hfile Hdata Hlen Hnl Hnul Hcolon Hdrop Ha Hb.
  pose proof (digit_val_range _ _ Ha) as Hra.
  pose proof (digit_val_range _ _ Hb) as Hrb.
  unfold get_rail_vf_idx, read_guid, fgets. rewrite Hfile, Hdata.
  change (20 - 1)%nat with 19%nat. rewrite <- Hlen.
  rewrite fgets_chars_prefix by done. cbn [andb].
  rewrite cstr_no_NUL by done.
  unfold vf_idx_of_guid, strlen. rewrite Hlen. cbn [Z.of_nat Z.eqb negb Pos.eqb].
  change (Z.of_nat 19 =? 19) with true. cbn [negb].
  rewrite bool_decide_eq_true_2 by done. cbn [negb].
  rewrite Hdrop. unfold strtol10. cbn [skip_space].
  rewrite (digit_not_space d1 a Ha).
  rewrite (digit_not_sign d1 a _ _ _ _ Ha).
  cbn [digits]. rewrite Ha, Hb. cbn [Nat.eqb negb Nat.add].
  rewrite to_int_small; unfold LONG_MIN, LONG_MAX; lia.
Qed.

Lemma get_rail_vf_idx_decimal_witness :
  get_rail_vf_idx
    (files_of [(guid_file (rail "rdmap0" None),
                "0a1b:2c3d:4e5f:6712 trailing text")])
    (rail "rdmap0" None) = 12.
Proof.
  apply (get_rail_vf_idx_decimal
           (files_of [(guid_file (rail "rdmap0" None),
                       "0a1b:2c3d:4e5f:6712 trailing text")])
           (rail "rdmap0" None)
           {| f_data := "0a1b:2c3d:4e5f:6712 trailing text";
              f_error := false |}
           "0a1b:2c3d:4e5f:6712" " trailing text" "1"%char "2"%char 1 2);
    reflexivity.
Defined.

(** ** The rail at which the first loop gives up *)

(** The first loop over rails that it places: it goes on behind them with
    the counters advanced and the rails in their slots. *)
Lemma assign_rails_placed files (h : heap) (pre : list ptr) :
  forall (rest : list ptr) (p : option ptr) (n0 n1 todo : nat)
    (arr : list (option ptr)),
  is_list h p (pre ++ rest) ->
  Forall (fun q => vf_idx_at files h q = Some 0
                   \/ vf_idx_at files h q = Some 1) pre ->
  (forall k, (k < length (rails_of_vf files h 0 pre))%nat ->
     arr !! (n0 + k)%nat = Some None) ->
  (forall k, (k < length (rails_of_vf files h 1 pre))%nat ->
     arr !! (n1 + k)%nat = Some None) ->
  (forall k k', (k < length (rails_of_vf files h 0 pre))%nat ->
     (k' < length (rails_of_vf files h 1 pre))%nat ->
     (n0 + k)%nat <> (n1 + k')%nat) ->
  exists p' arr',
    is_list h p' rest
    /\ assign_rails files h (length pre + todo) p
         [Z.of_nat n0; Z.of_nat n1] arr
       = assign_rails files h todo p'
           [Z.of_nat (n0 + length (rails_of_vf files h 0 pre));
            Z.of_nat (n1 + length (rails_of_vf files h 1 pre))] arr'
    /\ (forall i x, arr !! i = Some (Some x) -> arr' !! i = Some (Some x))
    /\ (forall k x, rails_of_vf files h 0 pre !! k = Some x ->
          arr' !! (n0 + k)%nat = Some (Some x))
    /\ (forall k x, rails_of_vf files h 1 pre !! k = Some x ->
          arr' !! (n1 + k)%nat = Some (Some x)).
Proof.
  induction pre as [|q pre IH]; intros rest p n0 n1 todo arr Hl Hall H0 H1 Hd.
  - exists p, arr. split; [done |]. unfold rails_of_vf. rewrite !filter_nil.
    cbn [length]. rewrite !Nat.add_0_r. split; [done |]. split; [done |].
    split; intros k x Hk; by rewrite lookup_nil in Hk.
  - destruct Hl as [-> (info & Hq & Hl)].
    apply Forall_cons in Hall as [Hvq Hall].
    assert (Hvf : vf_idx_at files h q = Some (get_rail_vf_idx files info)).
    { unfold vf_idx_at. by rewrite Hq. }
    cbn [length Nat.add assign_rails]. rewrite Hq.
    rewrite Hvf in Hvq. destruct Hvq as [[= Hv] | [= Hv]]; rewrite Hv in *.
    + rewrite (rails_of_vf_cons_same _ _ _ _ _ Hvf) in H0, Hd |- *.
      rewrite (rails_of_vf_cons_other _ _ 1 0 _ _ Hvf) in H1, Hd |- * by done.
      cbn [length] in H0, Hd |- *.
      change (Z.to_nat 0) with 0%nat.
      cbn [Z.ltb Z.geb Z.compare orb lookup list_lookup insert list_insert].
      rewrite Nat2Z.id. specialize (H0 0%nat ltac:(lia)) as Hfree.
      rewrite Nat.add_0_r in Hfree. rewrite Hfree.
      rewrite Z.add_1_r, <- Nat2Z.inj_succ.
      destruct (IH rest (next info) (S n0) n1 todo (<[n0 := Some q]> arr))
        as (p' & arr' & Hl' & Hrun & Hkeep & Hz & Ho).
      * done.
      * done.
      * intros k Hk. rewrite list_lookup_insert_ne by lia.
        rewrite Nat.add_succ_comm. apply H0. lia.
      * intros k' Hk'. rewrite list_lookup_insert_ne.
        -- by apply H1.
        -- specialize (Hd 0%nat k' ltac:(lia) Hk'). lia.
      * intros k k' Hk Hk'. specialize (Hd (S k) k' ltac:(lia) Hk'). lia.
      * exists p', arr'. split; [done |]. split.
        { rewrite Hrun. by rewrite <- Nat.add_succ_comm. }
        split.
        { intros i x Hi. apply Hkeep. rewrite list_lookup_insert_ne; [done |].
          intros <-. congruence. }
        split; [| done].
        intros [|k] x Hk.
        -- injection Hk as <-. rewrite Nat.add_0_r. apply Hkeep.
           apply list_lookup_insert_eq. by eapply lookup_lt_Some.
        -- rewrite <- Nat.add_succ_comm. by apply Hz.
    + rewrite (rails_of_vf_cons_same _ _ _ _ _ Hvf) in H1, Hd |- *.
      rewrite (rails_of_vf_cons_other _ _ 0 1 _ _ Hvf) in H0, Hd |- * by done.
      cbn [length] in H1, Hd |- *.
      change (Z.to_nat 1) with 1%nat.
      cbn [Z.ltb Z.geb Z.compare Pos.compare Pos.compare_cont orb lookup
           list_lookup insert list_insert].
      rewrite Nat2Z.id. specialize (H1 0%nat ltac:(lia)) as Hfree.
      rewrite Nat.add_0_r in Hfree. rewrite Hfree.
      rewrite Z.add_1_r, <- Nat2Z.inj_succ.
      destruct (IH rest (next info) n0 (S n1) todo (<[n1 := Some q]> arr))
        as (p' & arr' & Hl' & Hrun & Hkeep & Hz & Ho).
      * done.
      * done.
      * intros k Hk. rewrite list_lookup_insert_ne.
        -- by apply H0.
        -- specialize (Hd k 0%nat Hk ltac:(lia)). lia.
      * intros k' Hk'. rewrite list_lookup_insert_ne by lia.
        rewrite Nat.add_succ_comm. apply H1. lia.
      * intros k k' Hk Hk'. specialize (Hd k (S k') Hk ltac:(lia)). lia.
      * exists p', arr'. split; [done |]. split.
        { rewrite Hrun. by rewrite <- Nat.add_succ_comm. }
        split.
        { intros i x Hi. apply Hkeep. rewrite list_lookup_insert_ne; [done |].
          intros <-. congruence. }
        split; [done |].
        intros [|k] x Hk.
        -- injection Hk as <-. rewrite Nat.add_0_r. apply Hkeep.
           apply list_lookup_insert_eq. by eapply lookup_lt_Some.
        -- rewrite <- Nat.add_succ_comm. by apply Ho.
Qed.

(** The VF index of a rail whose identifier is not read, or not
    accepted, is negative. *)
Lemma get_rail_vf_idx_negative (files : filesystem) (info : fi_info) :
  guid_unreadable files info
  \/ (exists guid,
        read_guid files info = Some guid
        /\ (String.length guid <> 19%nat
            \/ String.get 14 guid <> Some ":"%char
            \/ (strtol10 (string_drop 17 guid)).2 <> 2%nat)) ->
  get_rail_vf_idx files info < 0.
Proof.
  unfold get_rail_vf_idx.
  intros [Hu%read_guid_unreadable | (guid & Hr & Hbad)].
  - rewrite Hu. by vm_compute.
  - rewrite Hr. unfold vf_idx_of_guid, strlen.
    destruct (Z.eqb_spec (Z.of_nat (String.length guid)) 19) as [Hlen | Hlen];
      cbn [negb]; [| by vm_compute].
    destruct (decide (String.get 14 guid = Some ":"%char)) as [Hc | Hc].
    2:{ rewrite bool_decide_eq_false_2 by done. by vm_compute. }
    rewrite bool_decide_eq_true_2 by done. cbn [negb].
    destruct Hbad as [Hbad | [Hbad | Hbad]]; [lia | done |].
    destruct (strtol10 (string_drop 17 guid)) as [v endptr].
    simpl in Hbad. apply Nat.eqb_neq in Hbad. rewrite Hbad. by vm_compute.
Qed.

Lemma rails_of_vf_snoc_same files h v q pre :
  vf_idx_at files h q = Some v ->
  rails_of_vf files h v (pre ++ [q]) = rails_of_vf files h v pre ++ [q].
Proof.
  intros H. unfold rails_of_vf. rewrite filter_app. f_equal.
  by rewrite filter_cons_True.
Qed.

Lemma rails_of_vf_snoc_other files h v v' q pre :
  vf_idx_at files h q = Some v' -> v' <> v ->
  rails_of_vf files h v (pre ++ [q]) = rails_of_vf files h v pre.
Proof.
  intros H Hne. unfold rails_of_vf. rewrite filter_app.
  rewrite (filter_cons_False _ q); [by rewrite app_nil_r |].
  rewrite H. congruence.
Qed.

(** Conversely, the first loop takes [goto error] only at a rail that is
    rejected, after rails that it has placed. *)
Lemma assign_rails_error files (h : heap) (n : nat) (todo : nat) :
  forall (pre rest : list ptr) (p : option ptr) (n0 n1 : nat)
    (arr : list (option ptr)) (why : sort_failure),
  is_list h p rest ->
  placed files h n pre ->
  n0 = length (rails_of_vf files h 0 pre) ->
  n1 = (2 + length (rails_of_vf files h 1 pre))%nat ->
  length arr = n ->
  (forall i x, arr !! i = Some (Some x) ->
     (i < n0)%nat \/ (2 <= i < n1)%nat) ->
  (forall i, (i < n0)%nat \/ (2 <= i < n1)%nat -> arr !! i <> Some None) ->
  assign_rails files h todo p [Z.of_nat n0; Z.of_nat n1] arr = GotoError why ->
  exists k,
    (k < todo)%nat /\ (k <= length rest)%nat
    /\ placed files h n (pre ++ take k rest)
    /\ rejected files h (pre ++ take k rest) (rest !! k).
Proof.
  induction todo as [|todo IH];
    intros pre rest p n0 n1 arr why Hl Hpl Hn0 Hn1 Hlen Honly Hocc Hrun;
    [done |].
  destruct rest as [|q rest].
  { exists 0%nat. rewrite take_0, app_nil_r.
    split; [lia |]. split; [done |]. by split. }
  destruct Hl as [-> (info & Hq & Hl)].
  assert (Hvf : vf_idx_at files h q = Some (get_rail_vf_idx files info)).
  { unfold vf_idx_at. by rewrite Hq. }
  assert (Hhere :
    (get_rail_vf_idx files info < 0
     \/ 2 <= get_rail_vf_idx files info
     \/ (get_rail_vf_idx files info = 0
         /\ length (rails_of_vf files h 0 pre) = 2%nat
         /\ rails_of_vf files h 1 pre <> [])
     \/ (get_rail_vf_idx files info = 1
         /\ (3 <= length (rails_of_vf files h 0 pre))%nat)) ->
    exists k,
      (k < S todo)%nat /\ (k <= length (q :: rest))%nat
      /\ placed files h n (pre ++ take k (q :: rest))
      /\ rejected files h (pre ++ take k (q :: rest)) ((q :: rest) !! k)).
  { intros Hwhy. exists 0%nat. rewrite take_0, app_nil_r.
    split; [lia |]. split; [simpl; lia |]. split; [done |].
    exists info. split; [done |]. right. right. exact Hwhy. }
  assert (Hnext :
    (exists k,
       (k < todo)%nat /\ (k <= length rest)%nat
       /\ placed files h n ((pre ++ [q]) ++ take k rest)
       /\ rejected files h ((pre ++ [q]) ++ take k rest) (rest !! k)) ->
    exists k',
      (k' < S todo)%nat /\ (k' <= length (q :: rest))%nat
      /\ placed files h n (pre ++ take k' (q :: rest))
      /\ rejected files h (pre ++ take k' (q :: rest)) ((q :: rest) !! k')).
  { intros (k & H1 & H2 & H3 & H4). exists (S k).
    rewrite firstn_cons, cons_middle, app_assoc.
    split; [lia |]. split; [simpl; lia |]. by split. }
  cbn [assign_rails] in Hrun. rewrite Hq in Hrun.
  destruct (Z.ltb_spec (get_rail_vf_idx files info) 0) as [Hneg | Hge].
  { apply Hhere. by left. }
  destruct (Z.geb_spec (get_rail_vf_idx files info) 2) as [Hbig | Hlt].
  { apply Hhere. right. by left. }
  cbn [orb] in Hrun. destruct Hpl as [Hall Hshape].
  assert (get_rail_vf_idx files info = 0 \/ get_rail_vf_idx files info = 1)
    as [Hv | Hv] by lia; rewrite Hv in Hrun, Hvf.
  - change (Z.to_nat 0) with 0%nat in Hrun.
    cbn [lookup list_lookup insert list_insert] in Hrun.
    rewrite Nat2Z.id in Hrun.
    destruct (arr !! n0) as [[x|]|] eqn:Hslot; [| | done].
    + apply Hhere. right. right. left.
      split; [done |].
      destruct (Honly _ _ Hslot) as [? | [Hlo Hhi]]; [lia |].
      destruct Hshape as [Hnil | [Htwo _]].
      * rewrite Hnil in Hn1. simpl in Hn1. lia.
      * split; [lia |]. intros Hnil. rewrite Hnil in Hn1. simpl in Hn1. lia.
    + apply Hnext.
      rewrite Z.add_1_r, <- Nat2Z.inj_succ in Hrun.
      apply (IH (pre ++ [q]) rest (next info) (S n0) n1
               (<[n0 := Some q]> arr) why); try done.
      * split.
        { apply Forall_app. split; [done |]. constructor; [by left | done]. }
        rewrite (rails_of_vf_snoc_same _ _ _ _ _ Hvf).
        rewrite (rails_of_vf_snoc_other _ _ 1 0 _ _ Hvf) by done.
        destruct (rails_of_vf files h 1 pre) as [|o os'] eqn:Hos;
          [by left | right].
        destruct Hshape as [Hnil | [Htwo Hfit]]; [done |].
        split; [| done]. rewrite length_app. simpl.
        destruct (decide (n0 = 2%nat)) as [H2 | H2]; [| lia].
        exfalso. apply (Hocc n0); [| done]. right. simpl in Hn1. lia.
      * rewrite (rails_of_vf_snoc_same _ _ _ _ _ Hvf), length_app. simpl. lia.
      * by rewrite (rails_of_vf_snoc_other _ _ 1 0 _ _ Hvf).
      * by rewrite length_insert.
      * intros i x Hi. destruct (decide (i = n0)) as [-> | Hne]; [lia |].
        rewrite list_lookup_insert_ne in Hi by done.
        destruct (Honly _ _ Hi); [left; lia | by right].
      * intros i Hi. destruct (decide (i = n0)) as [-> | Hne].
        { rewrite list_lookup_insert_eq; [done |]. by eapply lookup_lt_Some. }
        rewrite list_lookup_insert_ne by done. apply Hocc.
        destruct Hi; [left; lia | by right].
  - change (Z.to_nat 1) with 1%nat in Hrun.
    cbn [lookup list_lookup insert list_insert] in Hrun.
    rewrite Nat2Z.id in Hrun.
    destruct (arr !! n1) as [[x|]|] eqn:Hslot; [| | done].
    + apply Hhere. right. right. right.
      split; [done |].
      destruct (Honly _ _ Hslot) as [? | [Hlo Hhi]]; lia.
    + apply Hnext.
      rewrite Z.add_1_r, <- Nat2Z.inj_succ in Hrun.
      assert (Hin : (n1 < n)%nat).
      { rewrite <- Hlen. by eapply lookup_lt_Some. }
      apply (IH (pre ++ [q]) rest (next info) n0 (S n1)
               (<[n1 := Some q]> arr) why); try done.
      * split.
        { apply Forall_app. split; [done |]. constructor; [by right | done]. }
        rewrite (rails_of_vf_snoc_same _ _ _ _ _ Hvf).
        rewrite (rails_of_vf_snoc_other _ _ 0 1 _ _ Hvf) by done.
        right. rewrite length_app. simpl. split; [| lia].
        destruct Hshape as [Hnil | [Htwo _]]; [| done].
        rewrite Hnil in Hn1. simpl in Hn1.
        destruct (decide (n0 <= 2)%nat) as [| Hmore]; [lia |].
        exfalso. apply (Hocc n1); [| done]. left. lia.
      * by rewrite (rails_of_vf_snoc_other _ _ 0 1 _ _ Hvf).
      * rewrite (rails_of_vf_snoc_same _ _ _ _ _ Hvf), length_app. simpl. lia.
      * by rewrite length_insert.
      * intros i x Hi. destruct (decide (i = n1)) as [-> | Hne]; [lia |].
        rewrite list_lookup_insert_ne in Hi by done.
        destruct (Honly _ _ Hi); [by left | right; lia].
      * intros i Hi. destruct (decide (i = n1)) as [-> | Hne].
        { rewrite list_lookup_insert_eq; [done |]. by eapply lookup_lt_Some. }
        rewrite list_lookup_insert_ne by done. apply Hocc.
        destruct Hi; [by left | right; lia].
Qed.

(** Every call on a list either gives up at a rail for one of these
    reasons, or sorts the list, or has no defined behaviour. *)
Lemma platform_sort_rails_cases (files : filesystem) (h : heap)
  (info_list : option ptr) (num_rails : Z) (l : list ptr) :
  is_list h info_list l -> 0 < num_rails ->
  (exists k,
     (k < Z.to_nat num_rails)%nat /\ (k <= length l)%nat
     /\ placed files h (Z.to_nat num_rails) (take k l)
     /\ rejected files h (take k l) (l !! k))
  \/ ((Z.to_nat num_rails <= length l)%nat
      /\ sortable files h (take (Z.to_nat num_rails) l))
  \/ platform_sort_rails files info_list num_rails h = None.
Proof.
  intros Hl Hpos. unfold platform_sort_rails.
  destruct (Z.leb_spec num_rails 0) as [? | _]; [lia |].
  destruct (sort_rails_stage files info_list num_rails h)
    as [arr | why |] eqn:Hrun.
  - right. left.
    destruct (sort_rails_stage_sorted _ _ _ _ _ _ Hl Hrun) as (Hlen & Hs & _).
    split; [| done]. rewrite length_take in Hlen. lia.
  - left. unfold sort_rails_stage in Hrun.
    destruct (assign_rails_error files h (Z.to_nat num_rails)
                (Z.to_nat num_rails) [] l info_list 0 2
                (replicate (Z.to_nat num_rails) None) why)
      as (k & Hk & Hlen & Hp & Hr); try done.
    + split; [constructor | by left].
    + by rewrite length_replicate.
    + intros i x Hi. apply lookup_replicate in Hi as [? _]. done.
    + intros i [? | ?]; simpl in *; lia.
    + by exists k.
  - by do 2 right.
Qed.

(** C4, as the code has it: when the first loop of [platform_sort_rails]
    has placed the rails before a rail and gives up at that rail (the
    list has ended; the identifier of the rail cannot be read, or fails
    the check of its length, of its colon or of its last two characters;
    the VF index is outside of 0 and 1; or the position of the rail is
    taken), the call returns with
    the caller's [*info_list] and every node as they were. The function
    returns nothing, so the caller is not told. By
    [platform_sort_rails_cases], a call that neither sorts the list nor
    has undefined behaviour gives up in this way. *)
Theorem platform_sort_rails_failure (files : filesystem) (h : heap)
  (info_list : option ptr) (num_rails : Z) (l : list ptr) (k : nat) :
  is_list h info_list l ->
  (k < Z.to_nat num_rails)%nat -> (k <= length l)%nat ->
  placed files h (Z.to_nat num_rails) (take k l) ->
  rejected files h (take k l) (l !! k) ->
  platform_sort_rails files info_list num_rails h = Some (info_list, h).
Proof.
  intros Hl Hk Hlen [Hall Hshape] Hrej.
  unfold platform_sort_rails.
  destruct (Z.leb_spec num_rails 0) as [? | Hpos]; [done |].
  cut (exists why,
         sort_rails_stage files info_list num_rails h = GotoError why).
  { intros [why ->]. done. }
  unfold sort_rails_stage.
  set (n := Z.to_nat num_rails) in *.
  set (pre := take k l) in *.
  set (zs := rails_of_vf files h 0 pre) in *.
  set (os := rails_of_vf files h 1 pre) in *.
  assert (Hpre : length pre = k) by (unfold pre; rewrite length_take; lia).
  assert (Hcount : (length zs + length os = k)%nat).
  { rewrite <- Hpre, <- length_app. apply Permutation_length.
    by apply rails_partition. }
  rewrite <- (take_drop k l) in Hl. fold pre in Hl.
  destruct (assign_rails_placed files h pre (drop k l) info_list 0 2
              (S (n - k - 1)) (replicate n None) Hl Hall)
    as (p' & arr' & Hl' & Hrun & _ & Hz & Ho).
  { intros j Hj. apply lookup_replicate_2. fold zs in Hj. lia. }
  { intros j Hj. apply lookup_replicate_2. fold os in Hj.
    destruct Hshape as [Hnil | [_ Hfit]]; [fold os in Hnil |].
    - rewrite Hnil in Hj. simpl in Hj. lia.
    - fold os in Hfit. lia. }
  { intros j j' Hj Hj'. fold zs in Hj. fold os in Hj'.
    destruct Hshape as [Hnil | [Htwo _]]; [fold os in Hnil |].
    - rewrite Hnil in Hj'. simpl in Hj'. lia.
    - fold zs in Htwo. lia. }
  fold zs os in Hrun, Hz, Ho.
  replace (length pre + S (n - k - 1))%nat with n in Hrun by lia.
  change [Z.of_nat 0; Z.of_nat 2] with [0; 2] in Hrun. rewrite Hrun.
  destruct (drop k l) as [|p rest] eqn:Hdrop.
  - simpl in Hl'. subst p'. by eexists.
  - destruct Hl' as [-> (info & Hp & _)].
    assert (Hkth : l !! k = Some p).
    { rewrite <- (Nat.add_0_r k), <- lookup_drop, Hdrop. done. }
    rewrite Hkth in Hrej. destruct Hrej as (info' & Hp' & Hwhy).
    rewrite Hp in Hp'. injection Hp' as <-.
    cbn [assign_rails]. rewrite Hp.
    assert (Hcases :
      get_rail_vf_idx files info < 0 \/ 2 <= get_rail_vf_idx files info
      \/ (get_rail_vf_idx files info = 0 /\ length zs = 2%nat /\ os <> [])
      \/ (get_rail_vf_idx files info = 1 /\ (3 <= length zs)%nat)).
    { destruct Hwhy as [H | [H | [H | [H | [H | H]]]]].
      - left. apply get_rail_vf_idx_negative. by left.
      - left. apply get_rail_vf_idx_negative. by right.
      - by left.
      - right. by left.
      - right. right. by left.
      - right. right. by right. }
    destruct Hcases as [Hneg | [Hbig | [(Hv & Htwo & Hos) | (Hv & Hthree)]]].
    + destruct (Z.ltb_spec (get_rail_vf_idx files info) 0); [| lia].
      by eexists.
    + destruct (Z.ltb_spec (get_rail_vf_idx files info) 0); [by eexists |].
      destruct (Z.geb_spec (get_rail_vf_idx files info) 2); [| lia].
      by eexists.
    + rewrite Hv. change (Z.to_nat 0) with 0%nat.
      cbn [Z.ltb Z.geb Z.compare orb lookup list_lookup].
      rewrite Nat2Z.id, Htwo.
      destruct os as [|o os'] eqn:Heq; [done |].
      pose proof (Ho 0%nat o eq_refl) as Ho2.
      change (2 + 0)%nat with 2%nat in Ho2. change (0 + 2)%nat with 2%nat.
      rewrite Ho2. by eexists.
    + rewrite Hv. change (Z.to_nat 1) with 1%nat.
      cbn [Z.ltb Z.geb Z.compare Pos.compare Pos.compare_cont orb lookup
           list_lookup].
      rewrite Nat2Z.id.
      assert (os = []) as ->.
      { destruct Hshape as [Hnil | [Htwo _]]; [done |].
        fold zs in Htwo. lia. }
      destruct (lookup_lt_is_Some_2 zs 2) as [x Hx]; [lia |].
      pose proof (Hz 2%nat x Hx) as Hz2.
      change (0 + 2)%nat with 2%nat in Hz2. cbn [length].
      change (2 + 0)%nat with 2%nat. rewrite Hz2. by eexists.
Qed.

Lemma platform_sort_rails_failure_witness :
  platform_sort_rails
    (four_guids "0000:0000:0000:0000" "0000:0000:0000:0001"
                "0000:0000:0000:0203" "0000:0000:0000:0001")
    (Some 1%positive) 4 four_rails
  = Some (Some 1%positive, four_rails).
Proof.
  apply (platform_sort_rails_failure _ _ _ _ [1; 2; 3; 4]%positive 2).
  - repeat (split; [reflexivity |]; eexists; split; [reflexivity |]).
    reflexivity.
  - simpl. lia.
  - simpl. lia.
  - split.
    + repeat constructor; by vm_compute; auto.
    + right. split; vm_compute; lia.
  - eexists. split; [reflexivity |]. do 3 right. left. by vm_compute.
Defined.
